(** * socktest: the readiness strategies, the retry loop and the socket registry

    A shallow embedding of [socktest.c], an interactive harness that drives
    the socket API under four readiness disciplines, and the properties of
    its specification checked against it.

    The C program talks to the kernel and the C library all the time.  The
    embedding keeps the program's globals in a [state] record, threads it
    through a small state monad, and takes every answer of the outside
    world from an [env]: a fixed but arbitrary oracle for system calls,
    library parsers and asynchronous signals.  Every call the program makes
    is logged in the state's [trace], together with the answer it got, so
    that ordering properties can be stated on the log. *)

From Stdlib Require Import ZArith List String Ascii Bool Lia Arith.
Import ListNotations.
Open Scope string_scope.
Open Scope Z_scope.

(** ** Constants of the source *)

Definition MAXTOKENS : Z := 100.          (* Maximum tokens in command line *)
Definition MAXSOCKETS : Z := 10.          (* Maximum sockets open simultaneously *)
Definition UNUSED_FD : Z := -1.           (* Value for gSockfd *)
Definition BUFFER_SIZE : Z := 100.        (* Size of read/write buffer *)
Definition MAX_DATA_DISPLAY : Z := 64.    (* Bytes of incoming packets to display *)
Definition BLOCK_THRESHOLD : Z := 1000000. (* Delay in us. that we will intepret as a block *)

(** Which condition does the fd have to be ready for? *)
Inductive readyCondition : Type := READ_READY | WRITE_READY | EXCEPT_READY.

(** Mode in which APIs are exercised. *)
Inductive Model : Type :=
  BLOCKING_MODEL | NONBLOCKING_MODEL | SELECT_MODEL | SIGNAL_MODEL.

Definition is_WRITE_READY (c : readyCondition) : bool :=
  match c with WRITE_READY => true | _ => false end.

(** ** The outside world *)

Record timeval : Type := mkTimeval { tv_sec : Z; tv_usec : Z }.

(** An [fd_set] is the list of the descriptors whose bit is set. *)
Definition fd_set : Type := list Z.
Definition FD_ZERO : fd_set := [].
Definition FD_SET (fd : Z) (s : fd_set) : fd_set := fd :: s.
Definition FD_ISSET (fd : Z) (s : fd_set) : bool := existsb (Z.eqb fd) s.

(** The signals the program installs a handler for. *)
Inductive signo : Type := SIGINT | SIGTSTP | SIGPIPE | SIGIO.

(** What is installed for SIGIO: nothing yet (the system default), or one
    of the program's two handlers. *)
Inductive sighandler : Type := SIG_DFL | defaultSIGIOHandler_ | activeSIGIOHandler_.

Inductive fcntl_cmd : Type := F_GETFL | F_SETFL | F_SETOWN.

(** The socket calls whose only argument of interest is the descriptor. *)
Inductive sockop : Type :=
  | CONNECT | ACCEPT | RECVMSG | SENDMSG | READ | WRITE
  | BIND | LISTEN | SETSOCKOPT | GETSOCKOPT | SHUTDOWN
  | GETSOCKNAME | GETPEERNAME | IOCTL_SIOCATMARK.

Inductive syscall : Type :=
  | sys_gettimeofday
  | sys_fcntl (fd : Z) (cmd : fcntl_cmd) (arg : Z)
  | sys_select (nfds : Z) (readfds writefds exceptfds : fd_set) (timeout : timeval)
  | sys_sleep (seconds : Z)
  | sys_signal (handler : sighandler)
  | sys_getpid
  | sys_socket (domain type protocol : Z)
  | sys_close (fd : Z)
  | sys_getaddrinfo (node : option string)
  | sys_op (f : sockop) (fd : Z) (args : list Z).

(** What a call gives back.  A call reads the fields it has a use for:
    [ret] is the returned value and [err] the errno of a failure; [now] is
    the time stored by gettimeofday; [rbits], [wbits] and [ebits] are the
    three sets as select leaves them; [out] is the integer stored through
    a result pointer (ioctl, getsockopt); [sigs] are the signals delivered
    to the process before the call returns. *)
Record response : Type := mkResponse {
  ret : Z;
  err : Z;
  now : timeval;
  rbits : fd_set;
  wbits : fd_set;
  ebits : fd_set;
  out : Z;
  sigs : list signo
}.

Inductive stream : Type := stdout | stderr.

(** An argument of a printf format: an integer, a string, the text
    strerror (or gai_strerror) gives for an error number, or text made
    from received bytes and addresses, which the model does not hold. *)
Inductive arg : Type :=
  AInt (z : Z) | AStr (s : string) | AStrerror (e : Z) | AData.

Inductive event : Type :=
  | Sys (c : syscall) (r : response)
  | Out (f : stream) (format : string) (args : list arg).

Definition sockop_code (f : sockop) : nat :=
  match f with
  | CONNECT => 0 | ACCEPT => 1 | RECVMSG => 2 | SENDMSG => 3 | READ => 4
  | WRITE => 5 | BIND => 6 | LISTEN => 7 | SETSOCKOPT => 8 | GETSOCKOPT => 9
  | SHUTDOWN => 10 | GETSOCKNAME => 11 | GETPEERNAME => 12
  | IOCTL_SIOCATMARK => 13
  end%nat.

(** The function a call goes to, as a number: two calls with the same
    number are calls of the same function. *)
Definition fn_code (c : syscall) : nat :=
  match c with
  | sys_gettimeofday => 0
  | sys_fcntl _ _ _ => 1
  | sys_select _ _ _ _ _ => 2
  | sys_sleep _ => 3
  | sys_signal _ => 4
  | sys_getpid => 5
  | sys_socket _ _ _ => 6
  | sys_close _ => 7
  | sys_getaddrinfo _ => 8
  | sys_op f _ _ => 9 + sockop_code f
  end%nat.

Definition same_fn (c : syscall) (e : event) : bool :=
  match e with
  | Sys c' _ => Nat.eqb (fn_code c) (fn_code c')
  | Out _ _ _ => false
  end.

(** The calls that report a failure through errno. *)
Definition sets_errno (c : syscall) : bool :=
  match c with
  | sys_sleep _ | sys_getpid | sys_getaddrinfo _ => false
  | _ => true
  end.

(** How many calls of the function of [c] the log holds. *)
Definition earlier (c : syscall) (tr : list event) : nat :=
  List.length (filter (same_fn c) tr).

(** The environment: the kernel, the C library and the user.  [respond c n]
    answers the call [c] when [n] calls of the same function came before
    it.  The header constants the source uses, and the pure library
    functions it calls, are fields too. *)
Record env : Type := mkEnv {
  respond : syscall -> nat -> response;
  (* errno.h, fcntl.h, sys/socket.h *)
  EWOULDBLOCK : Z;
  EINPROGRESS : Z;
  EALREADY : Z;
  O_NONBLOCK : Z;
  O_ASYNC : Z;
  PF_INET : Z;
  PF_INET6 : Z;
  SOCK_STREAM : Z;
  SOCK_DGRAM : Z;
  SOCK_RAW : Z;
  MSG_OOB : Z;
  SHUT_RD : Z;
  SHUT_WR : Z;
  SHUT_RDWR : Z;
  SOL_IPV6 : Z;
  IPV6_ADD_MEMBERSHIP : Z;
  IPV6_DROP_MEMBERSHIP : Z;
  (* sscanf(param, "%i", &v): the number read, if one was *)
  sscanf_i : string -> option Z;
  (* strtol(token, &ptr, 0): the number read, None when ptr == token *)
  strtol : string -> option Z;
  (* getopt(argc, argv, optstring) entered with the given optind: the
     value returned (-1 at the end), optarg, and optind afterwards *)
  getopt : list string -> string -> Z -> Z * string * Z;
  (* the words next to the gSockfd array, read by an index outside 0..9 *)
  adjacent : Z -> Z;
  (* what a caller finds as the result of an int function left by a bare
     return *)
  indeterminate : Z
}.

(** ** The program's globals *)

Record state : Type := mkState {
  gVerbose : bool;  (* gVerbose selected on command line? *)
  gCurrent : Z;  (* index of the current socket *)
  gSockfd : Z -> Z;  (* fd of test socket, by index *)
  model : Model;  (* mode in which APIs are exercised *)
  gDomain : Z;  (* domain specified when socket created *)
  gType : Z;  (* type specified when socket created *)
  gProtocol : Z;  (* protocol specified when socket created *)
  gInterrupted : bool;  (* received an interrupt from the user *)
  callTime : timeval;  (* time at which API was called *)
  shouldBlock : bool;  (* flag for blocking model special case *)
  sigioReceived : bool;  (* flag from sig handler to main program *)
  sigioDisposition : sighandler;  (* handler currently installed for SIGIO *)
  errno : Z;  (* the C library's errno *)
  trace : list event  (* what the process did so far, newest first *)
}.

Definition set_gVerbose (v : bool) (s : state) : state :=
  mkState v (gCurrent s) (gSockfd s) (model s) (gDomain s) (gType s) (gProtocol s) (gInterrupted s) (callTime s) (shouldBlock s) (sigioReceived s) (sigioDisposition s) (errno s) (trace s).

Definition set_gCurrent (v : Z) (s : state) : state :=
  mkState (gVerbose s) v (gSockfd s) (model s) (gDomain s) (gType s) (gProtocol s) (gInterrupted s) (callTime s) (shouldBlock s) (sigioReceived s) (sigioDisposition s) (errno s) (trace s).

Definition set_gSockfd (v : Z -> Z) (s : state) : state :=
  mkState (gVerbose s) (gCurrent s) v (model s) (gDomain s) (gType s) (gProtocol s) (gInterrupted s) (callTime s) (shouldBlock s) (sigioReceived s) (sigioDisposition s) (errno s) (trace s).

Definition set_model (v : Model) (s : state) : state :=
  mkState (gVerbose s) (gCurrent s) (gSockfd s) v (gDomain s) (gType s) (gProtocol s) (gInterrupted s) (callTime s) (shouldBlock s) (sigioReceived s) (sigioDisposition s) (errno s) (trace s).

Definition set_gDomain (v : Z) (s : state) : state :=
  mkState (gVerbose s) (gCurrent s) (gSockfd s) (model s) v (gType s) (gProtocol s) (gInterrupted s) (callTime s) (shouldBlock s) (sigioReceived s) (sigioDisposition s) (errno s) (trace s).

Definition set_gType (v : Z) (s : state) : state :=
  mkState (gVerbose s) (gCurrent s) (gSockfd s) (model s) (gDomain s) v (gProtocol s) (gInterrupted s) (callTime s) (shouldBlock s) (sigioReceived s) (sigioDisposition s) (errno s) (trace s).

Definition set_gProtocol (v : Z) (s : state) : state :=
  mkState (gVerbose s) (gCurrent s) (gSockfd s) (model s) (gDomain s) (gType s) v (gInterrupted s) (callTime s) (shouldBlock s) (sigioReceived s) (sigioDisposition s) (errno s) (trace s).

Definition set_gInterrupted (v : bool) (s : state) : state :=
  mkState (gVerbose s) (gCurrent s) (gSockfd s) (model s) (gDomain s) (gType s) (gProtocol s) v (callTime s) (shouldBlock s) (sigioReceived s) (sigioDisposition s) (errno s) (trace s).

Definition set_callTime (v : timeval) (s : state) : state :=
  mkState (gVerbose s) (gCurrent s) (gSockfd s) (model s) (gDomain s) (gType s) (gProtocol s) (gInterrupted s) v (shouldBlock s) (sigioReceived s) (sigioDisposition s) (errno s) (trace s).

Definition set_shouldBlock (v : bool) (s : state) : state :=
  mkState (gVerbose s) (gCurrent s) (gSockfd s) (model s) (gDomain s) (gType s) (gProtocol s) (gInterrupted s) (callTime s) v (sigioReceived s) (sigioDisposition s) (errno s) (trace s).

Definition set_sigioReceived (v : bool) (s : state) : state :=
  mkState (gVerbose s) (gCurrent s) (gSockfd s) (model s) (gDomain s) (gType s) (gProtocol s) (gInterrupted s) (callTime s) (shouldBlock s) v (sigioDisposition s) (errno s) (trace s).

Definition set_sigioDisposition (v : sighandler) (s : state) : state :=
  mkState (gVerbose s) (gCurrent s) (gSockfd s) (model s) (gDomain s) (gType s) (gProtocol s) (gInterrupted s) (callTime s) (shouldBlock s) (sigioReceived s) v (errno s) (trace s).

Definition set_errno (v : Z) (s : state) : state :=
  mkState (gVerbose s) (gCurrent s) (gSockfd s) (model s) (gDomain s) (gType s) (gProtocol s) (gInterrupted s) (callTime s) (shouldBlock s) (sigioReceived s) (sigioDisposition s) v (trace s).

Definition set_trace (v : list event) (s : state) : state :=
  mkState (gVerbose s) (gCurrent s) (gSockfd s) (model s) (gDomain s) (gType s) (gProtocol s) (gInterrupted s) (callTime s) (shouldBlock s) (sigioReceived s) (sigioDisposition s) (errno s) v.
(** ** The monad *)

(** A run either returns a value, or is still inside a loop when the
    bound on loop iterations is reached. *)
Inductive outcome (A : Type) : Type :=
  | Returned (a : A) (s : state)
  | Spinning (s : state).
Arguments Returned {A} a s.
Arguments Spinning {A} s.

Definition M (A : Type) : Type := state -> outcome A.

Definition final {A : Type} (o : outcome A) : state :=
  match o with Returned _ s => s | Spinning s => s end.

Definition value {A : Type} (o : outcome A) : option A :=
  match o with Returned a _ => Some a | Spinning _ => None end.

Definition retM {A : Type} (a : A) : M A := fun s => Returned a s.

Definition bindM {A B : Type} (m : M A) (k : A -> M B) : M B :=
  fun s => match m s with
           | Returned a s' => k a s'
           | Spinning s' => Spinning s'
           end.

Definition gets {A : Type} (f : state -> A) : M A := fun s => Returned (f s) s.
Definition modify (f : state -> state) : M unit := fun s => Returned tt (f s).
Definition spin {A : Type} : M A := fun s => Spinning s.

Notation "x <- c1 ;; c2" := (bindM c1 (fun x => c2))
  (at level 61, c1 at next level, right associativity).
Notation "c1 ;; c2" := (bindM c1 (fun _ => c2))
  (at level 61, right associativity).
Notation "' pat <- c1 ;; c2" :=
  (bindM c1 (fun x => match x with pat => c2 end))
  (at level 61, pat pattern, c1 at next level, right associativity).

(** fprintf: the text goes to the log. *)
Definition fprintf (f : stream) (format : string) (args : list arg) : M unit :=
  modify (fun s => set_trace (Out f format args :: trace s) s).
Definition printf : string -> list arg -> M unit := fprintf stdout.

(** An index inside the gSockfd array. *)
Definition is_slot (i : Z) : bool := (0 <=? i) && (i <? MAXSOCKETS).

(** gSockfd[i] = v.  The array is one window of memory: the model keeps
    the words an index outside 0..9 reaches in the same map.  This is
    exact for the indices 0..9; a store through an index outside them
    lands in C on whatever the linker placed there, which may be another
    global of the program, and the model does not follow it there. *)
Definition store_gSockfd (i v : Z) (s : state) : state :=
  set_gSockfd (fun j => if j =? i then v else gSockfd s j) s.

(** gSockfd[gCurrent] *)
Definition currentSocket (s : state) : Z := gSockfd s (gCurrent s).

(** ** Signal handlers *)

(** Signal handler for user interrupts. *)
Definition interruptSignalHandler : M unit :=
  printf "User interrupt received.\n" [] ;;
  modify (set_gInterrupted true).

Definition pipeSignalHandler : M unit :=
  printf "Broken pipe signal received.\n" [] ;;
  modify (set_gInterrupted true).

(** This SIGIO handler is used when we do not expect a SIGIO signal. *)
Definition defaultSIGIOHandler : M unit :=
  fprintf stderr "Error - Unexpected SIGIO signal.\n" [].

(** This SIGIO handler is used when we expect a SIGIO signal. *)
Definition activeSIGIOHandler : M unit :=
  modify (set_sigioReceived true) ;;
  v <- gets gVerbose ;;
  if v then printf "SIGIO handler called.\n" [] else retM tt.

(** The handler a signal runs.  main installs the first three; for SIGIO
    it is what the last successful signal() call installed.  SIGIO is
    raised by the kernel for a descriptor with O_ASYNC enabled, which the
    program enables only after it installed a handler; the action of the
    system default on a SIGIO from elsewhere is outside the model, which
    runs nothing for it. *)
Definition handler_of (sg : signo) (s : state) : M unit :=
  match sg with
  | SIGINT => interruptSignalHandler
  | SIGTSTP => interruptSignalHandler
  | SIGPIPE => pipeSignalHandler
  | SIGIO =>
      match sigioDisposition s with
      | SIG_DFL => retM tt
      | defaultSIGIOHandler_ => defaultSIGIOHandler
      | activeSIGIOHandler_ => activeSIGIOHandler
      end
  end.

Definition deliver (sgs : list signo) (s : state) : state :=
  fold_left (fun s sg => final (handler_of sg s s)) sgs s.

Section Harness.

Variable E : env.

(** Every loop of the program runs at most [fuel] times around. *)
Variable fuel : nat.

(** A call into the kernel or the library: logged with its answer; a
    failure (a negative result) leaves the error number in errno; the signals that
    arrived meanwhile run their handlers before the call returns. *)
Definition call (c : syscall) : M response :=
  fun s =>
    let r := respond E c (earlier c (trace s)) in
    let s1 := set_trace (Sys c r :: trace s) s in
    let s2 := if sets_errno c && (ret r <? 0) then set_errno (err r) s1 else s1 in
    Returned r (deliver (sigs r) s2).

(** signal(SIGIO, h): when it succeeds, [h] is what SIGIO runs from now on. *)
Definition signal_SIGIO (h : sighandler) : M Z :=
  r <- call (sys_signal h) ;;
  (if ret r <? 0 then retM tt else modify (set_sigioDisposition h)) ;;
  retM (ret r).

(** Translate a number parameter into a binary value: the value, or None
    for the return code 1. *)
Definition setIntegerArgument (param : string) : M (option Z) :=
  match sscanf_i E param with
  | None =>
      fprintf stderr "%s is not a valid value.\n" [AStr param] ;;
      retM None
  | Some temp_value => retM (Some temp_value)
  end.

Definition tolower (c : ascii) : ascii :=
  let n := nat_of_ascii c in
  if (65 <=? n)%nat && (n <=? 90)%nat then ascii_of_nat (n + 32) else c.

Fixpoint lowercase (token : string) : string :=
  match token with
  | EmptyString => EmptyString
  | String c rest => String (tolower c) (lowercase rest)
  end.

Fixpoint searchNames (token : string) (names : list (string * Z)) : option Z :=
  match names with
  | [] => None
  | (name, v) :: rest =>
      if String.eqb token name then Some v else searchNames token rest
  end.

(** Translate a named option value into an integer: the return code and
    what *resultValue holds afterwards. *)
Definition getNamedValue (token : string) (names : list (string * Z)) : M (Z * Z) :=
  (* Force to connonical lower case. *)
  let token := lowercase token in
  (* Search through the provided names. *)
  match searchNames token names with
  | Some v => retM (0, v)
  | None =>
      match strtol E token with
      | Some v => retM (0, v)
      | None =>
          fprintf stderr "%s is not a recognized option value.\n" [AStr token] ;;
          retM (-1, 0)
      end
  end.

(** The for loop of findFreeSocketSlot: the value of i when it ends. *)
Fixpoint scanSlots (sockfd : Z -> Z) (i : Z) (left : nat) : Z :=
  match left with
  | O => i
  | S left' =>
      if sockfd i =? UNUSED_FD then i else scanSlots sockfd (i + 1) left'
  end.

(** Find a free socket slot. *)
Definition findFreeSocketSlot : M Z :=
  i <- gets (fun s => scanSlots (gSockfd s) 0 (Z.to_nat MAXSOCKETS)) ;;
  if i >=? MAXSOCKETS then
    fprintf stderr "All %d sockets are in use.\n" [AInt MAXSOCKETS] ;;
    retM (-1)
  else retM i.

(** Set a flag on the gCurrent socket. *)
Definition setFctlFlag (flag : Z) : M unit :=
  fd <- gets currentSocket ;;
  r <- call (sys_fcntl fd F_GETFL 0) ;;
  let flags := ret r in
  if flags <? 0 then
    e <- gets errno ;;
    fprintf stderr "Error on F_GETFL - %s.\n" [AStrerror e]
  else
    let flags := Z.lor flags flag in
    fd <- gets currentSocket ;;
    r <- call (sys_fcntl fd F_SETFL flags) ;;
    if ret r <? 0 then
      e <- gets errno ;;
      fprintf stderr "Error on F_SETFL - %s.\n" [AStrerror e]
    else retM tt.

(** Clear a flag on the gCurrent socket. *)
Definition clearFctlFlag (flag : Z) : M unit :=
  fd <- gets currentSocket ;;
  r <- call (sys_fcntl fd F_GETFL 0) ;;
  let flags := ret r in
  if flags <? 0 then
    e <- gets errno ;;
    fprintf stderr "Error on F_GETFL - %s.\n" [AStrerror e]
  else
    let flags := Z.land flags (Z.lnot flag) in
    fd <- gets currentSocket ;;
    r <- call (sys_fcntl fd F_SETFL flags) ;;
    if ret r <? 0 then
      e <- gets errno ;;
      fprintf stderr "Error on F_SETFL - %s.\n" [AStrerror e]
    else retM tt.

(** *** The blocking oracle *)

(** Arithmetic on a long of 64 bits. *)
Definition wrap_long (z : Z) : Z := (z + 2 ^ 63) mod 2 ^ 64 - 2 ^ 63.

(** (returnTime.tv_sec - callTime.tv_sec) * 1000000
      + returnTime.tv_usec - callTime.tv_usec *)
Definition elapsed (callTime returnTime : timeval) : Z :=
  wrap_long
    (wrap_long
       (wrap_long (wrap_long (tv_sec returnTime - tv_sec callTime) * 1000000)
        + tv_usec returnTime)
     - tv_usec callTime).

(** Setup the mechanism used to determine if an API blocked. *)
Definition doBlockingSetup : M unit :=
  r <- call sys_gettimeofday ;;
  modify (set_callTime (now r)).

Definition did (blocked : bool) : arg := AStr (if blocked then "did" else "did not").

(** Determine if the API just called actually blocked. *)
Definition verifyBlocking (expected : bool) : M unit :=
  r <- call sys_gettimeofday ;;
  let returnTime := now r in
  t <- gets callTime ;;
  let delta := elapsed t returnTime in
  let blocked := delta >? BLOCK_THRESHOLD in
  v <- gets gVerbose ;;
  if negb (Bool.eqb blocked expected) then
    fprintf stderr "Error - API %s block.\n" [did blocked]
  else if v then
    fprintf stderr "API %s block.\n" [did blocked]
  else retM tt.

(** *** Blocking model *)

(** Do setup for before we call a socket API in blocking model. *)
Definition blockingPreAPISetup (neededCondition : readyCondition) : M unit :=
  modify (set_shouldBlock (negb (is_WRITE_READY neededCondition))) ;;
  (* Set up our blocking test. *)
  doBlockingSetup.

(** Do setup for after we call a socket API in blocking model. *)
Definition blockingPostAPISetup (apiResult : Z) : M bool :=
  (* Determine if we blocked in the API. *)
  sb <- gets shouldBlock ;;
  verifyBlocking (sb && (apiResult >=? 0)) ;;
  retM true.

(** *** Nonblocking model *)

(** Do setup for before we call a socket API in nonblocking model. *)
Definition nonblockingPreAPISetup : M unit :=
  (* Set up our blocking test. *)
  doBlockingSetup ;;
  (* Enable non-blocking model on the file descriptor. *)
  setFctlFlag (O_NONBLOCK E) ;;
  v <- gets gVerbose ;;
  if v then printf "Tick.\n" [] else retM tt.

(** Do setup for after we call a socket API in nonblocking model. *)
Definition nonblockingPostAPISetup (apiResult : Z) : M bool :=
  err <- gets errno ;;
  (* Determine if we blocked in the API. *)
  verifyBlocking false ;;
  (* Disable non-blocking model on the file descriptor. *)
  clearFctlFlag (O_NONBLOCK E) ;;
  let done :=
    (apiResult >=? 0)
    || (negb (err =? EWOULDBLOCK E) && negb (err =? EINPROGRESS E)
        && negb (err =? EALREADY E)) in
  v <- gets gVerbose ;;
  (if v then
     if negb (apiResult =? 0) then
       printf "API result is %d, errno is '%s'.\n" [AInt apiResult; AStrerror err]
     else
       printf "API result is zero.\n" [AInt apiResult; AStrerror err]
   else retM tt) ;;
  (if negb done then r <- call (sys_sleep 1) ;; retM tt else retM tt) ;;
  retM done.

(** *** Select model *)

(** The set watchBits points to, among the three select left behind. *)
Definition watchBits (neededCondition : readyCondition) (r : response) : fd_set :=
  match neededCondition with
  | READ_READY => rbits r
  | WRITE_READY => wbits r
  | EXCEPT_READY => ebits r
  end.

(** The three sets after FD_ZERO on each and FD_SET on the watched one. *)
Definition watching (neededCondition : readyCondition) (fd : Z)
  : fd_set * fd_set * fd_set :=
  match neededCondition with
  | READ_READY => (FD_SET fd FD_ZERO, FD_ZERO, FD_ZERO)
  | WRITE_READY => (FD_ZERO, FD_SET fd FD_ZERO, FD_ZERO)
  | EXCEPT_READY => (FD_ZERO, FD_ZERO, FD_SET fd FD_ZERO)
  end.

(** The check of what select returned: the value of done after it. *)
Definition checkSelect (neededCondition : readyCondition) (r : response) : M bool :=
  let result := ret r in
  v <- gets gVerbose ;;
  if result =? 0 then
    (if v then printf "Tick.\n" [] else retM tt) ;;
    retM false
  else if result =? 1 then
    fd <- gets currentSocket ;;
    (if negb (FD_ISSET fd (watchBits neededCondition r)) then
       fprintf stderr
         "Error - Expected fd bit not set after select() returned 1.\n" []
     else if v then printf "select() exited as expected.\n" []
     else retM tt) ;;
    retM true
  else
    fprintf stderr "Error - select() returned %d.\n" [AInt result] ;;
    retM false.

(** One turn of the loop doing the select: the value of done after it. *)
Definition selectOnce (neededCondition : readyCondition) : M bool :=
  fd <- gets currentSocket ;;
  (* Initialize the bit sets. *)
  let '(readBits, writeBits, exceptBits) := watching neededCondition fd in
  (* Initialize the timeout. *)
  let timeout := mkTimeval 1 0 in
  (* Do the select() and check its output. *)
  nfds <- gets (fun s => currentSocket s + 1) ;;
  r <- call (sys_select nfds readBits writeBits exceptBits timeout) ;;
  checkSelect neededCondition r.

(** Loop doing the select:  do { ... } while (!done && !gInterrupted). *)
Fixpoint selectLoop (n : nat) (neededCondition : readyCondition) : M unit :=
  match n with
  | O => spin
  | S n' =>
      done <- selectOnce neededCondition ;;
      i <- gets gInterrupted ;;
      if negb done && negb i then selectLoop n' neededCondition else retM tt
  end.

(** Do setup for before we call a socket API in select model.
    neededCondition indicates what condition the socket has to be ready
    for before we can call the API. *)
Definition selectPreAPISetup (neededCondition : readyCondition) : M unit :=
  selectLoop fuel neededCondition ;;
  (* Set up our blocking test. *)
  doBlockingSetup.

(** Do setup for after we call a socket API in select model. *)
Definition selectPostAPISetup (apiResult : Z) : M bool :=
  (* Determine if we blocked in the API. *)
  verifyBlocking false ;;
  retM true.

(** *** Signal model *)

(** One turn of the loop waiting for SIGIO. *)
Definition sigioTick : M unit :=
  r <- call (sys_sleep 1) ;;
  v <- gets gVerbose ;;
  if v then printf "Tick.\n" [] else retM tt.

(** Loop until the SIGIO occurs:
    while (!sigioReceived && !gInterrupted) { sleep(1); ... } *)
Fixpoint sigioLoop (n : nat) : M unit :=
  match n with
  | O => spin
  | S n' =>
      g <- gets sigioReceived ;;
      i <- gets gInterrupted ;;
      if negb g && negb i then sigioTick ;; sigioLoop n' else retM tt
  end.

(** Do setup for before we call a socket API in signal model. *)
Definition signalPreAPISetup (neededCondition : readyCondition) : M unit :=
  (* If the condition needed by this API is write, then we're done.  In
     signal I/O, the socket is assumed to always be ready for writing. *)
  if is_WRITE_READY neededCondition then
    (* Set up our blocking test. *)
    doBlockingSetup
  else
    (* Set up signal handler and claim the socket. *)
    sigResult <- signal_SIGIO activeSIGIOHandler_ ;;
    if sigResult <? 0 then
      fprintf stderr "Error - signal() returned SIG_ERR.\n" []
    else
      pid <- call sys_getpid ;;
      fd <- gets currentSocket ;;
      r <- call (sys_fcntl fd F_SETOWN (ret pid)) ;;
      if ret r <? 0 then
        e <- gets errno ;;
        fprintf stderr "Error on F_SETOWN - %s.\n" [AStrerror e]
      else
        (* Enable signal model on the file descriptor. *)
        modify (set_sigioReceived false) ;;
        setFctlFlag (O_ASYNC E) ;;
        (* Loop until the SIGIO occurs. *)
        sigioLoop fuel ;;
        (* Set up our blocking test. *)
        doBlockingSetup.

(** Do setup for after we call a socket API in signal model.  The bare
    return after a failed signal() leaves the result to chance. *)
Definition signalPostAPISetup (apiResult : Z) : M bool :=
  (* Determine if we blocked in the API. *)
  verifyBlocking false ;;
  (* Restore default SIGIO hanlder. *)
  sigResult <- signal_SIGIO defaultSIGIOHandler_ ;;
  if sigResult <? 0 then
    fprintf stderr "Error - signal() returned SIG_ERR.\n" [] ;;
    retM (negb (indeterminate E =? 0))
  else
    (* Disable signal model on the file descriptor. *)
    clearFctlFlag (O_ASYNC E) ;;
    retM true.

(** Do common setup for before we call a socket API. *)
Definition preAPISetup (neededCondition : readyCondition) : M unit :=
  m <- gets model ;;
  match m with
  | BLOCKING_MODEL => blockingPreAPISetup neededCondition
  | NONBLOCKING_MODEL => nonblockingPreAPISetup
  | SELECT_MODEL => selectPreAPISetup neededCondition
  | SIGNAL_MODEL => signalPreAPISetup neededCondition
  end.

(** Do common setup for after we call a socket API.  apiResult is the
    value returned by the API just called. *)
Definition postAPISetup (apiResult : Z) : M bool :=
  m <- gets model ;;
  match m with
  | BLOCKING_MODEL => blockingPostAPISetup apiResult
  | NONBLOCKING_MODEL => nonblockingPostAPISetup apiResult
  | SELECT_MODEL => selectPostAPISetup apiResult
  | SIGNAL_MODEL => signalPostAPISetup apiResult
  end.

(** *** The retry loop

    Six command handlers (connect, accept, recvmsg, sendmsg, read, write)
    hold the same loop, word for word but for the call in its middle:

      do { preAPISetup(cond); if (gInterrupted) return;
           result = api(gSockfd[gCurrent], ...); done = postAPISetup(result);
      } while (!done);

    [callAPI] is that loop.  It gives None when the handler returned from
    inside it, and the last result of the call otherwise. *)
Fixpoint callAPILoop (n : nat) (neededCondition : readyCondition)
    (api : sockop) (args : list Z) : M (option Z) :=
  match n with
  | O => spin
  | S n' =>
      preAPISetup neededCondition ;;
      i <- gets gInterrupted ;;
      if i then retM None
      else
        fd <- gets currentSocket ;;
        r <- call (sys_op api fd args) ;;
        let result := ret r in
        done <- postAPISetup result ;;
        if done then retM (Some result)
        else callAPILoop n' neededCondition api args
  end.

Definition callAPI : readyCondition -> sockop -> list Z -> M (option Z) :=
  callAPILoop fuel.

(** The message every handler prints for a negative result. *)
Definition reportAPIError (result : Z) : M unit :=
  e <- gets errno ;;
  fprintf stderr "API returned %d.  Error %d passed in errno - %s.\n"
    [AInt result; AInt e; AStrerror e].

(** ** Command handlers

    gTokens holds the tokens of the command line; gTokenCount is their
    number, and gTokens[gTokenCount] is NULL. *)

Definition gCommands : list string :=
  ["quit"; "help"; "model"; "use"; "socket"; "bind"; "connect"; "listen";
   "accept"; "recvmsg"; "sendmsg"; "read"; "write"; "setsockopt";
   "getsockopt"; "multijoin"; "multileave"; "shutdown"; "getsockname";
   "getpeername"; "close"].

Definition gUsage : list string :=
  ["quit";
   "help";
   "model *blocking | nonblocking | select | signal";
   "use number";
   "socket [-d domain] [-t type] [-p protocol]";
   "bind portnumber [ hostaddress ]";
   "connect portnumber [ hostaddress ]";
   "listen [backlogCount]";
   "accept";
   "recvmsg [-f OOB]";
   "sendmsg [-a hostaddress port] [-f OOB]";
   "read";
   "write";
   "setsockopt level opt [-i value]";
   "getsockopt level opt [-i]";
   "multijoin interfaceIndex hostaddress";
   "multileave interfaceIndex hostaddress";
   "shutdown [SHUT_RD | SHUT_WR | SHUT_RDWR]";
   "getsockname";
   "getpeername";
   "close"].

Definition CMD_QUIT : nat := 0.
Definition CMD_HELP : nat := 1.
Definition CMD_MODEL : nat := 2.
Definition CMD_USE : nat := 3.
Definition CMD_SOCKET : nat := 4.
Definition CMD_BIND : nat := 5.
Definition CMD_CONNECT : nat := 6.
Definition CMD_LISTEN : nat := 7.
Definition CMD_ACCEPT : nat := 8.
Definition CMD_RECVMSG : nat := 9.
Definition CMD_SENDMSG : nat := 10.
Definition CMD_READ : nat := 11.
Definition CMD_WRITE : nat := 12.
Definition CMD_SETSOCKOPT : nat := 13.
Definition CMD_GETSOCKOPT : nat := 14.
Definition CMD_MULTIJOIN : nat := 15.
Definition CMD_MULTILEAVE : nat := 16.
Definition CMD_SHUTDOWN : nat := 17.
Definition CMD_GETSOCKNAME : nat := 18.
Definition CMD_GETPEERNAME : nat := 19.
Definition CMD_CLOSE : nat := 20.
Definition NUM_COMMANDS : nat := 21.

Definition showUsage (cmd : nat) : M unit :=
  fprintf stderr "gUsage:  %s.\n" [AStr (nth cmd gUsage "")].

Definition gTokenCount (gTokens : list string) : Z := Z.of_nat (List.length gTokens).

(** gTokens[i], for an i below gTokenCount. *)
Definition token (gTokens : list string) (i : nat) : string := nth i gTokens "".

Definition char (c : ascii) : Z := Z.of_nat (nat_of_ascii c).

(** Implement help command. *)
Definition doHelp : M unit :=
  printf "socktest understands these gCommands:\n" [] ;;
  fold_right (fun u rest => printf "  %s\n" [AStr u] ;; rest) (retM tt) gUsage.

(** Implement model command.

      model *blocking | nonblocking | select | signal *)
Definition doModel (gTokens : list string) : M unit :=
  match nth_error gTokens 1 with
  | None => modify (set_model BLOCKING_MODEL)
  | Some t =>
      if String.eqb t "blocking" then modify (set_model BLOCKING_MODEL)
      else if String.eqb t "nonblocking" then modify (set_model NONBLOCKING_MODEL)
      else if String.eqb t "signal" then modify (set_model SIGNAL_MODEL)
      else if String.eqb t "select" then modify (set_model SELECT_MODEL)
      else fprintf stderr "Unrecognized model %s\n" [AStr t]
  end.

(** Implement use command.

      use number *)
Definition doUse (gTokens : list string) : M unit :=
  (* Process command line argument *)
  if negb (gTokenCount gTokens =? 2) then showUsage CMD_USE
  else
    result <- setIntegerArgument (token gTokens 1) ;;
    match result with
    | None => fprintf stderr "Invalid socket number.\n" []
    | Some newgCurrent =>
        fd <- gets (fun s => gSockfd s newgCurrent) ;;
        if fd =? UNUSED_FD then
          fprintf stderr "Socket number %d not open.\n" [AInt newgCurrent]
        else modify (set_gCurrent newgCurrent)
    end.

(** The option loop of doSocket,

      while (retval == 0 && (option = getopt(...)) != -1) switch (option) ...

    entered with retval == 0.  It gives None when the handler returned
    from inside it, and retval and optind at its end otherwise. *)
Fixpoint socketOptions (n : nat) (gTokens : list string) (optind : Z)
  : M (option (Z * Z)) :=
  match n with
  | O => spin
  | S n' =>
      let '(option, optarg, optind) := getopt E gTokens "d:t:p:" optind in
      if option =? -1 then retM (Some (0, optind))
      else if option =? char "d" then
        '(retval, v) <- getNamedValue optarg
                          [("inet", PF_INET E); ("inet6", PF_INET6 E)] ;;
        modify (set_gDomain v) ;;
        if retval =? 0 then socketOptions n' gTokens optind
        else retM (Some (retval, optind))
      else if option =? char "t" then
        '(retval, v) <- getNamedValue optarg
                          [("stream", SOCK_STREAM E); ("datagram", SOCK_DGRAM E);
                           ("raw", SOCK_RAW E)] ;;
        modify (set_gType v) ;;
        if retval =? 0 then socketOptions n' gTokens optind
        else retM (Some (retval, optind))
      else if option =? char "p" then
        '(retval, v) <- getNamedValue optarg [] ;;
        modify (set_gProtocol v) ;;
        if retval =? 0 then socketOptions n' gTokens optind
        else retM (Some (retval, optind))
      else
        fprintf stderr "Unknown option %c.\n" [AInt option] ;;
        retM None
  end.

(** Implement socket command.

      socket [-d domain] [-t type] [-p protocol] *)
Definition doSocket (gTokens : list string) : M unit :=
  (* Set defaults. *)
  modify (set_gDomain (PF_INET6 E)) ;;
  modify (set_gType (SOCK_STREAM E)) ;;
  modify (set_gProtocol 0) ;;
  (* Process command line arguments *)
  parsed <- socketOptions fuel gTokens 0 ;;
  match parsed with
  | None => retM tt
  | Some (retval, optind) =>
      if optind <? gTokenCount gTokens then
        fprintf stderr "Unexpected argument(s) at end of command.\n" [] ;;
        showUsage CMD_SOCKET
      else if negb (retval =? 0) then showUsage CMD_SOCKET
      else
        (* Find a free socket slot. *)
        newgCurrent <- findFreeSocketSlot ;;
        if newgCurrent <? 0 then retM tt
        else
          modify (set_gCurrent newgCurrent) ;;
          (* Call the socket() API. *)
          d <- gets gDomain ;;
          t <- gets gType ;;
          p <- gets gProtocol ;;
          r <- call (sys_socket d t p) ;;
          cur <- gets gCurrent ;;
          modify (store_gSockfd cur (ret r)) ;;
          fd <- gets currentSocket ;;
          if fd <? 0 then reportAPIError fd else retM tt
  end.

(** getaddrinfo(node, NULL, &hints, &addrInfo): zero on success. *)
Definition lookupAddress (node : option string) : M Z :=
  r <- call (sys_getaddrinfo node) ;;
  (if negb (ret r =? 0) then
     fprintf stderr "Error - %s is not a valid address:  %s.\n"
       [AStr (match node with Some n => n | None => "" end); AStrerror (ret r)]
   else retM tt) ;;
  retM (ret r).

(** A socket call made once on the current socket, with the report of a
    negative result that follows it in every handler. *)
Definition plainAPI (api : sockop) (args : list Z) : M response :=
  fd <- gets currentSocket ;;
  r <- call (sys_op api fd args) ;;
  (if ret r <? 0 then reportAPIError (ret r) else retM tt) ;;
  retM r.

(** Implement bind command.

      bind portnumber [ hostaddress ] *)
Definition doBind (gTokens : list string) : M unit :=
  (* Process command line arguments *)
  if (gTokenCount gTokens <? 2) || (gTokenCount gTokens >? 3) then showUsage CMD_BIND
  else
    result <- setIntegerArgument (token gTokens 1) ;;
    match result with
    | None => fprintf stderr "Invalid port number.\n" []
    | Some port =>
        (* Translate/lookup host address/name. *)
        result <- (if gTokenCount gTokens =? 3
                   then lookupAddress (Some (token gTokens 2)) else retM 0) ;;
        if negb (result =? 0) then retM tt
        else
          (* Call the bind() API. *)
          r <- plainAPI BIND [port] ;;
          retM tt
    end.

(** Implement connect command.

      connect portnumber [ hostaddress ] *)
Definition doConnect (gTokens : list string) : M unit :=
  (* Process command line arguments *)
  if (gTokenCount gTokens <? 2) || (gTokenCount gTokens >? 3) then showUsage CMD_CONNECT
  else
    result <- setIntegerArgument (token gTokens 1) ;;
    match result with
    | None => fprintf stderr "Invalid port number.\n" []
    | Some port =>
        (* Translate/lookup host address/name. *)
        result <- lookupAddress (nth_error gTokens 2) ;;
        if negb (result =? 0) then retM tt
        else
          (* Call the connect() API. *)
          r <- callAPI READ_READY CONNECT [port] ;;
          match r with
          | None => retM tt
          | Some result => if result <? 0 then reportAPIError result else retM tt
          end
    end.

(** Implement listen command.

      listen [backlogCount]

    Backlog defaults to 1 if not specified. *)
Definition doListen (gTokens : list string) : M unit :=
  (* Process command line arguments *)
  if gTokenCount gTokens >? 2 then showUsage CMD_LISTEN
  else
    backlog <- (if gTokenCount gTokens =? 2
                then setIntegerArgument (token gTokens 1) else retM (Some 1)) ;;
    match backlog with
    | None => fprintf stderr "Invalid backlog count.\n" []
    | Some backlog =>
        (* Call the listen() API. *)
        r <- plainAPI LISTEN [backlog] ;;
        retM tt
    end.

(** Implement accept command.

      accept *)
Definition doAccept : M unit :=
  (* Find a free socket slot. *)
  newgCurrent <- findFreeSocketSlot ;;
  if newgCurrent <? 0 then retM tt
  else
    (* Call the API. *)
    r <- callAPI READ_READY ACCEPT [] ;;
    match r with
    | None => retM tt
    | Some result =>
        if result <? 0 then reportAPIError result
        else
          (* Update our state. *)
          modify (store_gSockfd newgCurrent result) ;;
          modify (set_gCurrent newgCurrent)
    end.

(** The option loop of doRecvmsg; flags travels with it. *)
Fixpoint recvmsgOptions (n : nat) (gTokens : list string) (optind flags : Z)
  : M (option (Z * Z * Z)) :=
  match n with
  | O => spin
  | S n' =>
      let '(option, optarg, optind) := getopt E gTokens "f:" optind in
      if option =? -1 then retM (Some (0, optind, flags))
      else if option =? char "f" then
        '(retval, flags) <- getNamedValue optarg [("oob", MSG_OOB E)] ;;
        if retval =? 0 then recvmsgOptions n' gTokens optind flags
        else retM (Some (retval, optind, flags))
      else
        fprintf stderr "Unknown option %c.\n" [AInt option] ;;
        retM None
  end.

(** What the verbose handlers print about the bytes they received. *)
Definition showReceived (result : Z) : M unit :=
  let bytesToDisplay := if result <? MAX_DATA_DISPLAY then result else MAX_DATA_DISPLAY in
  printf "First %d bytes received are: %s\n" [AInt bytesToDisplay; AData].

(** Implement recvmsg command.

      recvmsg [-f OOB] *)
Definition doRecvmsg (gTokens : list string) : M unit :=
  (* Process command line arguments *)
  parsed <- recvmsgOptions fuel gTokens 0 0 ;;
  match parsed with
  | None => retM tt
  | Some (retval, optind, flags) =>
      if optind <? gTokenCount gTokens then
        fprintf stderr "Unexpected argument(s) at end of command.\n" [] ;;
        showUsage CMD_RECVMSG
      else if negb (retval =? 0) then showUsage CMD_RECVMSG
      else
        (* Call the API. *)
        r <- callAPI READ_READY RECVMSG [flags] ;;
        match r with
        | None => retM tt
        | Some result =>
            if result <? 0 then reportAPIError result
            else
              v <- gets gVerbose ;;
              (if v then
                 (if result =? 0 then printf "End of file returned.\n" []
                  else printf "%d bytes read.\n" [AInt result]) ;;
                 t <- gets gType ;;
                 (if negb (t =? SOCK_STREAM E)
                  then fprintf stdout "Source address = %s.\n" [AData]
                  else retM tt) ;;
                 showReceived result
               else retM tt) ;;
              fd <- gets currentSocket ;;
              r <- call (sys_op IOCTL_SIOCATMARK fd []) ;;
              if ret r <? 0 then
                e <- gets errno ;;
                fprintf stderr "Error in ioctl(SIOCATMARK) call - %s.\n" [AStrerror e]
              else if negb (out r =? 0) then
                fprintf stdout "SIOCATMARK returned true.\n" []
              else retM tt
        end
  end.

(** The option loop of doSendmsg; flags and whether an address was given
    travel with it. *)
Fixpoint sendmsgOptions (n : nat) (gTokens : list string) (optind flags : Z)
    (faddr : bool) : M (option (Z * Z * Z * bool)) :=
  match n with
  | O => spin
  | S n' =>
      let '(option, optarg, optind) := getopt E gTokens "a:f:" optind in
      if option =? -1 then retM (Some (0, optind, flags, faddr))
      else if option =? char "a" then
        r <- call (sys_getaddrinfo (Some optarg)) ;;
        (if negb (ret r =? 0) then
           fprintf stderr "Error - %s is not a valid address:  %s.\n"
             [AStr optarg; AData]
         else retM tt) ;;
        (* Translate port number. *)
        port <- setIntegerArgument (token gTokens (Z.to_nat optind)) ;;
        let retval := match port with None => 1 | Some _ => 0 end in
        (if negb (retval =? 0) then fprintf stderr "Invalid port number.\n" []
         else retM tt) ;;
        let optind := optind + 1 in
        if retval =? 0 then sendmsgOptions n' gTokens optind flags true
        else retM (Some (retval, optind, flags, true))
      else if option =? char "f" then
        '(retval, flags) <- getNamedValue optarg [("oob", MSG_OOB E)] ;;
        if retval =? 0 then sendmsgOptions n' gTokens optind flags faddr
        else retM (Some (retval, optind, flags, faddr))
      else
        fprintf stderr "Unknown option %c.\n" [AInt option] ;;
        retM None
  end.

(** What the verbose handlers print about the bytes they wrote. *)
Definition showWritten (result : Z) : M unit :=
  v <- gets gVerbose ;;
  if (result =? 0) && v then printf "Zero count returned.\n" []
  else if (result >? 0) && v then printf "%d bytes written.\n" [AInt result]
  else retM tt.

(** Implement sendmsg command.

      sendmsg [-a hostaddress port] [-f OOB] *)
Definition doSendmsg (gTokens : list string) : M unit :=
  (* Process command line arguments *)
  parsed <- sendmsgOptions fuel gTokens 0 0 false ;;
  match parsed with
  | None => retM tt
  | Some (retval, optind, flags, faddr) =>
      if optind <? gTokenCount gTokens then
        fprintf stderr "Unexpected argument(s) at end of command.\n" [] ;;
        showUsage CMD_SENDMSG
      else if negb (retval =? 0) then showUsage CMD_SENDMSG
      else
        (* Call the API. *)
        r <- callAPI WRITE_READY SENDMSG [flags; if faddr then 1 else 0] ;;
        match r with
        | None => retM tt
        | Some result =>
            if result <? 0 then reportAPIError result else showWritten result
        end
  end.

(** Implement read command.

      read *)
Definition doRead : M unit :=
  (* Call the API. *)
  r <- callAPI READ_READY READ [BUFFER_SIZE] ;;
  match r with
  | None => retM tt
  | Some result =>
      if result <? 0 then reportAPIError result
      else
        v <- gets gVerbose ;;
        if v then
          (if result =? 0 then printf "End of file returned.\n" []
           else if result >? 0 then printf "%d bytes read.\n" [AInt result]
           else retM tt) ;;
          showReceived result
        else retM tt
  end.

(** Implement write command.

      write *)
Definition doWrite : M unit :=
  (* Call the API. *)
  r <- callAPI WRITE_READY WRITE [BUFFER_SIZE] ;;
  match r with
  | None => retM tt
  | Some result =>
      if result <? 0 then reportAPIError result else showWritten result
  end.

(** Implement setsockopt command.

      setsockopt level opt [-i value] *)
Definition doSetsockopt (gTokens : list string) : M unit :=
  (* Process command line arguments *)
  if negb (gTokenCount gTokens =? 5) then showUsage CMD_SETSOCKOPT
  else
    level <- setIntegerArgument (token gTokens 1) ;;
    match level with
    | None => fprintf stderr "Invalid level value.\n" []
    | Some level =>
        opt <- setIntegerArgument (token gTokens 2) ;;
        match opt with
        | None => fprintf stderr "Invalid opt value.\n" []
        | Some opt =>
            intArg <- setIntegerArgument (token gTokens 4) ;;
            match intArg with
            | None => fprintf stderr "Invalid argument value.\n" []
            | Some intArg =>
                (* Call the API. *)
                r <- plainAPI SETSOCKOPT [level; opt; intArg] ;;
                retM tt
            end
        end
    end.

(** Implement getsockopt command.

      getsockopt level opt [-i] *)
Definition doGetsockopt (gTokens : list string) : M unit :=
  (* Process command line arguments *)
  if negb (gTokenCount gTokens =? 4) then showUsage CMD_GETSOCKOPT
  else
    level <- setIntegerArgument (token gTokens 1) ;;
    match level with
    | None => fprintf stderr "Invalid level value.\n" []
    | Some level =>
        opt <- setIntegerArgument (token gTokens 2) ;;
        match opt with
        | None => fprintf stderr "Invalid opt value.\n" []
        | Some opt =>
            (* Call the API. *)
            r <- plainAPI GETSOCKOPT [level; opt] ;;
            if ret r <? 0 then retM tt
            else
              printf "Option value = %d, option length = %d.\n" [AInt (out r); AData]
        end
    end.

(** multijoin and multileave differ in the option they set. *)
Definition doMembership (option : Z) (gTokens : list string) : M unit :=
  (* Process command line arguments *)
  if negb (gTokenCount gTokens =? 3) then showUsage CMD_MULTIJOIN
  else
    interface <- setIntegerArgument (token gTokens 1) ;;
    match interface with
    | None => fprintf stderr "Invalid interfaceIndex value.\n" []
    | Some interface =>
        result <- lookupAddress (Some (token gTokens 2)) ;;
        if negb (result =? 0) then retM tt
        else
          (* Call the API. *)
          r <- plainAPI SETSOCKOPT [SOL_IPV6 E; option; interface] ;;
          retM tt
    end.

(** Implement multijoin command.

      multijoin interfaceIndex hostaddress *)
Definition doMultijoin : list string -> M unit :=
  doMembership (IPV6_ADD_MEMBERSHIP E).

(** Implement multileave command.

      multileave interfaceIndex hostaddress *)
Definition doMultileave : list string -> M unit :=
  doMembership (IPV6_DROP_MEMBERSHIP E).

(** Implement shutdown command.

      shutdown [SHUT_RD | SHUT_WR | SHUT_RDWR] *)
Definition doShutdown (gTokens : list string) : M unit :=
  (* Process command line arguments *)
  if negb (gTokenCount gTokens =? 2) then showUsage CMD_SHUTDOWN
  else
    '(result, option) <- getNamedValue (token gTokens 1)
                           [("shut_rd", SHUT_RD E); ("shut_wr", SHUT_WR E);
                            ("shut_rdwr", SHUT_RDWR E)] ;;
    if negb (result =? 0) then fprintf stderr "Invalid shutdown option value.\n" []
    else
      r <- plainAPI SHUTDOWN [option] ;;
      retM tt.

(** getsockname and getpeername differ in the call they make. *)
Definition showName (api : sockop) : M unit :=
  r <- plainAPI api [] ;;
  if ret r <? 0 then retM tt
  else
    (* Print out result. *)
    printf "Address = %s, port = %d, sockaddr length = %d.\n" [AData; AData; AData].

(** Implement getsockname command. *)
Definition doGetsockname : M unit := showName GETSOCKNAME.

(** Implement getpeername command. *)
Definition doGetpeername : M unit := showName GETPEERNAME.

(** Implement close command.

      close *)
Definition doClose : M unit :=
  fd <- gets currentSocket ;;
  r <- call (sys_close fd) ;;
  let result := ret r in
  if result <? 0 then reportAPIError result
  else
    cur <- gets gCurrent ;;
    modify (store_gSockfd cur UNUSED_FD).

(** ** The command loop of main *)

(** Find the command: its place in gCommands, NUM_COMMANDS when absent. *)
Fixpoint findCommand (name : string) (commands : list string) (i : nat) : nat :=
  match commands with
  | [] => i
  | c :: rest => if String.eqb name c then i else findCommand name rest (S i)
  end.

(** The switch of main on the command found. *)
Definition dispatch (i : nat) (gTokens : list string) : M bool :=
  match i with
  | 0%nat => retM true
  | 1%nat => doHelp ;; retM false
  | 2%nat => doModel gTokens ;; retM false
  | 3%nat => doUse gTokens ;; retM false
  | 4%nat => doSocket gTokens ;; retM false
  | 5%nat => doBind gTokens ;; retM false
  | 6%nat => doConnect gTokens ;; retM false
  | 7%nat => doListen gTokens ;; retM false
  | 8%nat => doAccept ;; retM false
  | 9%nat => doRecvmsg gTokens ;; retM false
  | 10%nat => doSendmsg gTokens ;; retM false
  | 11%nat => doRead ;; retM false
  | 12%nat => doWrite ;; retM false
  | 13%nat => doSetsockopt gTokens ;; retM false
  | 14%nat => doGetsockopt gTokens ;; retM false
  | 15%nat => doMultijoin gTokens ;; retM false
  | 16%nat => doMultileave gTokens ;; retM false
  | 17%nat => doShutdown gTokens ;; retM false
  | 18%nat => doGetsockname ;; retM false
  | 19%nat => doGetpeername ;; retM false
  | 20%nat => doClose ;; retM false
  | _ =>
      fprintf stderr "Unrecognized command.\n" [] ;;
      retM false
  end.

(** One turn of the loop of main, from the tokens of the line read: the
    value of done after it. *)
Definition command (gTokens : list string) : M bool :=
  if gTokenCount gTokens >=? MAXTOKENS then
    fprintf stderr "Too many tokens in input line.\n" [] ;;
    retM false
  else
    (* Find the command. *)
    let i := findCommand (token gTokens 0) gCommands 0 in
    (* Dispatch to the command processor. *)
    modify (set_gInterrupted false) ;;
    dispatch i gTokens.

(** The loop of main over the lines the user types, until quit. *)
Fixpoint session (lines : list (list string)) : M unit :=
  match lines with
  | [] => retM tt
  | gTokens :: rest =>
      done <- command gTokens ;;
      if done then retM tt else session rest
  end.

(** ** The line of main

    What main does with the line readline gave it, before the switch:

      for (i = 0; i < strlen(command); i++) command[i] = tolower(command[i]);
      tokenPtr = command;
      for (gTokenCount = 0; gTokenCount < MAXTOKENS; gTokenCount++){
          gTokens[gTokenCount] = strsep(&tokenPtr, CMDDELIMS);
          if (gTokens[gTokenCount] == NULL) break;
      } *)

Definition CMDDELIMS : string := " ,=".   (* Command token delimiters *)

(** strchr(s, c) != NULL, for a c other than the terminator. *)
Fixpoint strchr (s : string) (c : ascii) : bool :=
  match s with
  | EmptyString => false
  | String d rest => Ascii.eqb c d || strchr rest c
  end.

(** strsep(&stringp, delim) on a string that is not NULL: the token it
    returns, and what it leaves in stringp (None for NULL: no delimiter
    was found). *)
Fixpoint strsep (s : string) (delim : string) : string * option string :=
  match s with
  | EmptyString => (EmptyString, None)
  | String c rest =>
      if strchr delim c then (EmptyString, Some rest)
      else let '(tok, after) := strsep rest delim in (String c tok, after)
  end.

(** The loop that fills gTokens, with [left] turns to go: the tokens
    stored, and whether it ended at the break (strsep returned NULL)
    rather than on gTokenCount reaching MAXTOKENS. *)
Fixpoint tokenLoop (left : nat) (tokenPtr : option string) : list string * bool :=
  match left with
  | O => ([], false)
  | S left' =>
      match tokenPtr with
      | None => ([], true)
      | Some s =>
          let '(tok, after) := strsep s CMDDELIMS in
          let '(toks, ended) := tokenLoop left' after in
          (tok :: toks, ended)
      end
  end.

Definition tokenize (line : string) : list string * bool :=
  tokenLoop (Z.to_nat MAXTOKENS) (Some line).

(** One turn of the loop of main, from the (non-empty) line read. *)
Definition runLine (line : string) : M bool :=
  (* Force to all lower-case. *)
  let line := lowercase line in
  (* Break the string into tokens, in-place. *)
  let '(gTokens, _) := tokenize line in
  command gTokens.

(** ** The display of the bytes received

    The loop of doRead and doRecvmsg that fills hexBuffer:

      bytesToDisplay = MIN(result, MAX_DATA_DISPLAY);
      for (i = 0; i < bytesToDisplay; i++){
          snprintf(temp, sizeof(temp), "%.8x ", (unsigned)buffer[i]);
          strncpy(&hexBuffer[i*3], &temp[6], 3);
      }
      hexBuffer[i*3] = '\0';

    A byte of the buffer is the value of the char, signed or not. *)

Definition hexdigit (d : Z) : ascii :=
  nth (Z.to_nat d) (list_ascii_of_string "0123456789abcdef") "?"%char.

(** The last [n] hexadecimal digits of [u], before [acc]. *)
Fixpoint hexdigits (n : nat) (u : Z) (acc : string) : string :=
  match n with
  | O => acc
  | S n' => hexdigits n' (u / 16) (String (hexdigit (u mod 16)) acc)
  end.

(** What snprintf(temp, sizeof(temp), "%.8x ", (unsigned)b) leaves in
    temp: the eight digits of an unsigned int of 32 bits and a space. *)
Definition temp (b : Z) : string := hexdigits 8 (b mod 2 ^ 32) " ".

(** The for loop, with [n] turns to go. *)
Fixpoint hexLoop (buffer : list Z) (n : nat) : string :=
  match n, buffer with
  | S n', b :: rest => (substring 6 3 (temp b) ++ hexLoop rest n')%string
  | _, _ => EmptyString
  end.

(** hexBuffer when the loop is over. *)
Definition hexBuffer (buffer : list Z) (result : Z) : string :=
  let bytesToDisplay :=
    if result <? MAX_DATA_DISPLAY then result else MAX_DATA_DISPLAY in
  hexLoop buffer (Z.to_nat bytesToDisplay).

End Harness.

(** The globals as the program starts: every slot unused, the blocking
    model, no handler for SIGIO. *)
Definition initial (E : env) (verbose : bool) : state :=
  mkState verbose 0
    (fun i => if is_slot i then UNUSED_FD else adjacent E i)
    BLOCKING_MODEL 0 0 0 false (mkTimeval 0 0) false false SIG_DFL 0 [].

(** ** Concrete environments, for the examples *)

Definition digit (c : ascii) : option Z :=
  let n := nat_of_ascii c in
  if (48 <=? n)%nat && (n <=? 57)%nat then Some (Z.of_nat n - 48) else None.

(** The decimal digits at the head of a string, read as a number. *)
Fixpoint digits (acc : option Z) (s : string) : option Z :=
  match s with
  | EmptyString => acc
  | String c rest =>
      match digit c with
      | Some d => digits (Some (10 * match acc with Some a => a | None => 0 end + d)) rest
      | None => acc
      end
  end.

(** A reader of decimal numbers with an optional minus sign. *)
Definition decimal (s : string) : option Z :=
  match s with
  | String "-" rest => option_map Z.opp (digits None rest)
  | _ => digits None s
  end.

(** An answer that reports success and carries nothing. *)
Definition plain (result : Z) : response :=
  mkResponse result 0 (mkTimeval 0 0) [] [] [] 0 [].

(** A failure with the given errno. *)
Definition failure (e : Z) : response :=
  mkResponse (-1) e (mkTimeval 0 0) [] [] [] 0 [].

(** An answer that also delivers signals. *)
Definition with_signals (sgs : list signo) (r : response) : response :=
  mkResponse (ret r) (err r) (now r) (rbits r) (wbits r) (ebits r) (out r) sgs.

(** The header constants of Linux, readers of decimal numbers, a getopt
    that finds no option on a line of one token, zeroes next to the
    array, and the given answers to calls. *)
Definition linux (answers : syscall -> nat -> response) : env :=
  mkEnv answers 11 115 114 2048 8192 2 10 1 2 3 1 0 1 2 41 20 21
    decimal decimal (fun _ _ _ => (-1, "", 1)) (fun _ => 0) 1.

(** A state with the given model and registry, everything else as at the
    start. *)
Definition with_sockets (m : Model) (cur : Z) (fds : list Z) : state :=
  mkState false cur (fun i => if is_slot i then nth (Z.to_nat i) fds UNUSED_FD else 0)
    m 0 0 0 false (mkTimeval 0 0) false false SIG_DFL 0 [].

(** The calls in a log, oldest first. *)
Definition calls (tr : list event) : list syscall :=
  flat_map (fun e => match e with Sys c _ => [c] | Out _ _ _ => [] end) (rev tr).

(** The lines printed in a log, oldest first. *)
Definition printed (tr : list event) : list (stream * string * list arg) :=
  flat_map (fun e => match e with Sys _ _ => [] | Out f fmt a => [(f, fmt, a)] end) (rev tr).

(** ** Readings of the log and of the registry, for the statements *)

(** A call of one of the socket operations. *)
Definition is_op (e : event) : bool :=
  match e with Sys (sys_op _ _ _) _ => true | _ => false end.

(** The socket operations in a log. *)
Definition ops (tr : list event) : list event := filter is_op tr.

Definition is_sleep (e : event) : bool :=
  match e with Sys (sys_sleep _) _ => true | _ => false end.

(** The report of the blocking oracle that its expectation failed. *)
Definition is_mismatch (e : event) : bool :=
  match e with
  | Out stderr format _ => String.eqb format "Error - API %s block.\n"
  | _ => false
  end.

Definition mismatches (tr : list event) : list event := filter is_mismatch tr.

(** The calls that only prepare or conclude a socket operation. *)
Definition setup_call (c : syscall) : bool :=
  match c with
  | sys_gettimeofday | sys_fcntl _ _ _ | sys_select _ _ _ _ _
  | sys_sleep _ | sys_signal _ | sys_getpid => true
  | _ => false
  end.

(** errno values on which the nonblocking model calls again. *)
Definition transient (E : env) (e : Z) : bool :=
  (e =? EWOULDBLOCK E) || (e =? EINPROGRESS E) || (e =? EALREADY E).

Definition is_select (e : event) : bool :=
  match e with Sys (sys_select _ _ _ _ _) _ => true | _ => false end.

(** An event that is neither a select nor a socket operation. *)
Definition idle (e : event) : Prop := is_select e = false /\ is_op e = false.

(** Reading a log (newest first) from its oldest event on: whether the
    last select seen so far satisfied [ok] with no operation after it, and
    whether every operation seen so far came at such a moment. *)
Fixpoint scan (ok : response -> bool) (start : bool * bool) (tr : list event)
  : bool * bool :=
  match tr with
  | [] => start
  | e :: older =>
      let '(ready, fine) := scan ok start older in
      match e with
      | Sys (sys_select _ _ _ _ _) r => (ok r, fine)
      | Sys (sys_op _ _ _) _ => (false, fine && ready)
      | _ => (ready, fine)
      end
  end.

(** Every operation in the log follows a select that satisfied [ok]. *)
Definition guarded (ok : response -> bool) (tr : list event) : bool :=
  snd (scan ok (false, true) tr).

(** select reported the bit of [fd] in the set of the condition. *)
Definition bit_reported (c : readyCondition) (fd : Z) (r : response) : bool :=
  FD_ISSET fd (watchBits c r).

(** select returned 1. *)
Definition one_ready (r : response) : bool := ret r =? 1.

(** A select that watches the one descriptor [fd], for the condition [c],
    for one second. *)
Definition watches_one (c : readyCondition) (fd : Z) (e : event) : Prop :=
  match e with
  | Sys (sys_select nfds r w x t) _ =>
      nfds = fd + 1 /\ (r, w, x) = watching c fd /\ (r ++ w ++ x)%list = [fd]
      /\ t = mkTimeval 1 0
  | _ => True
  end.

(** The current selection is a slot of the registry, and an open one. *)
Definition selected_in_use (s : state) : Prop :=
  is_slot (gCurrent s) = true /\ currentSocket s <> UNUSED_FD.

(** Some socket is open: a slot of the registry is in use. *)
Definition socket_exists (s : state) : Prop :=
  exists i, is_slot i = true /\ gSockfd s i <> UNUSED_FD.

(** The invariant of the selection: once any socket exists, the current
    selection refers to an in-use slot. *)
Definition selection_invariant (s : state) : Prop :=
  socket_exists s -> selected_in_use s.

(** Neither the selection nor the registry has changed. *)
Definition untouched (s s' : state) : Prop :=
  gCurrent s' = gCurrent s /\ gSockfd s' = gSockfd s.

(** Every slot of the registry is taken. *)
Definition full (s : state) : Prop :=
  forall i, 0 <= i < MAXSOCKETS -> gSockfd s i <> UNUSED_FD.

(** The socket() calls in a log, and those among them that failed. *)
Definition is_socket (e : event) : bool :=
  match e with Sys (sys_socket _ _ _) _ => true | _ => false end.
Definition is_failed_socket (e : event) : bool :=
  match e with Sys (sys_socket _ _ _) r => ret r <? 0 | _ => false end.

(** No signal in the list interrupts: only SIGIO may be there. *)
Definition no_interrupt (sgs : list signo) : Prop :=
  Forall (fun sg => sg = SIGIO) sgs.

Definition is_sys (e : event) : bool :=
  match e with Sys _ _ => true | Out _ _ _ => false end.

(** What no signal handler touches: every global but the two flags, the
    calls logged, and the reports of the blocking oracle. *)
Definition beyond_signals (s : state) :=
  (gVerbose s, gCurrent s, gSockfd s, model s, (gDomain s, gType s, gProtocol s),
   callTime s, shouldBlock s, sigioDisposition s, errno s,
   mismatches (trace s), filter is_sys (trace s)).

(** The answer the environment gives to the call [c] made in state [s]. *)
Definition answer (E : env) (c : syscall) (s : state) : response :=
  respond E c (earlier c (trace s)).

(** The environments of the examples: one where every call succeeds at
    once, and one where close fails. *)
Definition all_succeed : env := linux (fun _ _ => plain 0).

Definition close_fails : env :=
  linux (fun c _ => match c with sys_close _ => failure 5 | _ => plain 0 end).

(** An environment where socket() fails (EMFILE), and one where it gives
    descriptor 7. *)
Definition socket_fails : env :=
  linux (fun c _ => match c with sys_socket _ _ _ => failure 24 | _ => plain 0 end).
Definition socket_opens : env :=
  linux (fun c _ => match c with sys_socket _ _ _ => plain 7 | _ => plain 0 end).

(** What the setup functions keep when no signal interrupts: the
    model, the interrupt flag, the current socket, and the count
    of the operations called so far. *)
Definition steady (c : syscall) (s s' : state) : Prop :=
  model s' = model s /\ gInterrupted s' = gInterrupted s
  /\ currentSocket s' = currentSocket s
  /\ earlier c (trace s') = earlier c (trace s).

(** An environment whose receive answers "would block" three times, then
    gives 7 bytes. *)
Definition would_block_thrice : env :=
  linux (fun c n =>
           match c with
           | sys_op RECVMSG _ _ => if (n <? 3)%nat then failure 11 else plain 7
           | _ => plain 0
           end).

(** An environment where select returns 1 and reports no bit. *)
Definition bit_never_reported : env :=
  linux (fun c _ =>
           match c with
           | sys_select _ _ _ _ _ => plain 1
           | sys_op READ _ _ => plain 7
           | _ => plain 0
           end).

(** An environment where select times out once, and then reports the
    descriptor it was asked about readable. *)
Definition ready_at_second_select : env :=
  linux (fun c n =>
           match c with
           | sys_select _ r _ _ _ =>
               if (n <? 1)%nat then plain 0
               else mkResponse 1 0 (mkTimeval 0 0) r [] [] 0 []
           | sys_op READ _ _ => plain 7
           | _ => plain 0
           end).

(** An environment where fcntl cannot set the owner of the descriptor. *)
Definition setown_fails : env :=
  linux (fun c _ =>
           match c with
           | sys_fcntl _ F_SETOWN _ => failure 9
           | _ => plain 0
           end).

(** An environment where SIGIO arrives during the second sleep. *)
Definition sigio_at_second_sleep : env :=
  linux (fun c n =>
           match c with
           | sys_sleep _ =>
               if (n <? 1)%nat then plain 0 else with_signals [SIGIO] (plain 0)
           | _ => plain 0
           end).

(** An environment where the user interrupts while select waits. *)
Definition interrupt_during_select : env :=
  linux (fun c _ =>
           match c with
           | sys_select _ _ _ _ _ => with_signals [SIGINT] (plain 0)
           | _ => plain 0
           end).

(** ** What a run keeps *)

(** The delimiters of a line, in the order they stand in it. *)
Fixpoint delimiters (line : string) : list ascii :=
  match line with
  | EmptyString => []
  | String c rest =>
      if strchr CMDDELIMS c then c :: delimiters rest else delimiters rest
  end.

(** Tokens put back around the delimiters they were cut at. *)
Fixpoint rejoin (tokens : list string) (seps : list ascii) : string :=
  match tokens, seps with
  | [], _ => EmptyString
  | tok :: _, [] => tok
  | tok :: rest, d :: seps' => (tok ++ String d (rejoin rest seps'))%string
  end.

(** The two hexadecimal digits of the low eight bits of a byte, and a
    blank. *)
Definition twoDigits (b : Z) : string :=
  String (hexdigit (b mod 256 / 16)) (String (hexdigit (b mod 16)) " ").

(** The bytes shown that way, one after the other. *)
Fixpoint hexText (bytes : list Z) : string :=
  match bytes with
  | [] => EmptyString
  | b :: rest => (twoDigits b ++ hexText rest)%string
  end.

(** A time of day in microseconds, and the times gettimeofday gives on a
    machine whose clock is set: seconds below 2^40, microseconds below a
    million. *)
Definition microseconds (t : timeval) : Z := tv_sec t * 1000000 + tv_usec t.

Definition clock_time (t : timeval) : Prop :=
  0 <= tv_sec t < 2 ^ 40 /\ 0 <= tv_usec t < 1000000.

(** An environment whose clock stands at one second after the start. *)
Definition one_second_later : env :=
  linux (fun _ _ => mkResponse 0 0 (mkTimeval 1 0) [] [] [] 0 []).

(** The signals whose handler raises the interrupt flag, and SIGIO. *)
Definition interrupts (sg : signo) : bool :=
  match sg with SIGIO => false | _ => true end.

Definition is_SIGIO (sg : signo) : bool :=
  match sg with SIGIO => true | _ => false end.

(** Whether the handler that raises sigioReceived is installed. *)
Definition expects_SIGIO (s : state) : bool :=
  match sigioDisposition s with activeSIGIOHandler_ => true | _ => false end.

(** A handler that only printed the usage line of a command. *)
Definition usage_only (cmd : nat) (s : state) : outcome unit :=
  Returned tt
    (set_trace (Out stderr "gUsage:  %s.\n" [AStr (nth cmd gUsage "")] :: trace s) s).

(** What select promises when it is given one descriptor in one set, as
    the loop doing the select gives it: when it returns 1, the descriptor
    it counted is that one, and its bit is set in that set on return. *)
Definition select_contract (E : env) : Prop :=
  forall (c : readyCondition) (fd nfds : Z) (r w x : fd_set) (t : timeval) (n : nat),
    (r, w, x) = watching c fd ->
    ret (respond E (sys_select nfds r w x t) n) = 1 ->
    FD_ISSET fd (watchBits c (respond E (sys_select nfds r w x t) n)) = true.

(** A select in the log holds an answer of the environment. *)
Definition answered (E : env) (e : event) : Prop :=
  match e with
  | Sys (sys_select nfds r w x t) a =>
      exists n, a = respond E (sys_select nfds r w x t) n
  | _ => True
  end.

(** An environment where select times out once, and then reports ready
    the descriptors it was asked about. *)
Definition watched_ready_at_second_select : env :=
  linux (fun c n =>
           match c with
           | sys_select _ r w x _ =>
               if (n <? 1)%nat then plain 0
               else mkResponse 1 0 (mkTimeval 0 0) r w x 0 []
           | sys_op READ _ _ => plain 7
           | _ => plain 0
           end).

(** The select call of one turn of the loop doing the select, on the
    descriptor [fd]. *)
Definition selectCall (c : readyCondition) (fd : Z) : syscall :=
  let '(readBits, writeBits, exceptBits) := watching c fd in
  sys_select (fd + 1) readBits writeBits exceptBits (mkTimeval 1 0).

(** When the run of [m] ends or stands with the interrupt flag up, the
    run of [m'] returns, with the flag up. *)
Definition settles {A : Type} (m m' : M A) : Prop :=
  forall s, gInterrupted (final (m s)) = true ->
  exists a, m' s = Returned a (final (m' s)) /\ gInterrupted (final (m' s)) = true.

(** What a failed fcntl leaves on stderr: the name of the request and
    the error in errno. *)
Definition fcntlError (request : string) (r : response) : event :=
  Out stderr ("Error on " ++ request ++ " - %s.\n") [AStrerror (err r)].

(** The log after the update of a flag to the value [update] gives: after
    a failed F_GETFL its error line, after a failed F_SETFL that of
    F_SETFL, and nothing but the calls otherwise. *)
Definition flagLog (E : env) (update : Z -> Z) (s : state) : list event :=
  let get := sys_fcntl (currentSocket s) F_GETFL 0 in
  let r := answer E get s in
  let s1 := final (call E get s) in
  let set := sys_fcntl (currentSocket s) F_SETFL (update (ret r)) in
  let r2 := answer E set s1 in
  let s2 := final (call E set s1) in
  if ret r <? 0 then fcntlError "F_GETFL" r :: trace s1
  else if ret r2 <? 0 then fcntlError "F_SETFL" r2 :: trace s2
  else trace s2.

(** Whatever the run of [m] does, its last state is related to its first. *)
Definition keeps {A : Type} (R : state -> state -> Prop) (m : M A) : Prop :=
  forall s, R s (final (m s)).

(** The run of [m] returns, from every state. *)
Definition returns {A : Type} (m : M A) : Prop :=
  forall s, exists a, m s = Returned a (final (m s)).

(** The relation that a reading of the state has not changed. *)
Definition same {A : Type} (f : state -> A) (s s' : state) : Prop := f s' = f s.

(** The run of [m] returns from every state that satisfies [P]. *)
Definition returns_when {A : Type} (P : state -> Prop) (m : M A) : Prop :=
  forall s, P s -> exists a, m s = Returned a (final (m s)).

(** From a state that satisfies [P], the last state of the run of [m] is
    related to the first. *)
Definition keeps_when {A : Type} (P : state -> Prop)
    (R : state -> state -> Prop) (m : M A) : Prop :=
  forall s, P s -> R s (final (m s)).

(** The user has interrupted the command. *)
Definition interrupted (s : state) : Prop := gInterrupted s = true.

(** The log has grown, by events that satisfy [P]. *)
Definition grows (P : event -> Prop) (s s' : state) : Prop :=
  exists new, trace s' = (new ++ trace s)%list /\ Forall P new.

(** A flag that was up is still up. *)
Definition still (f : state -> bool) (s s' : state) : Prop :=
  f s = true -> f s' = true.

(** Entered with the interrupt flag up, [m] calls no socket operation. *)
Definition unattempted {A : Type} (m : M A) : Prop :=
  keeps_when interrupted (same (fun s => ops (trace s))) m.

(** [m] calls no socket operation and leaves a raised interrupt flag up. *)
Definition quiet_step {A : Type} (m : M A) : Prop :=
  keeps (same (fun s => ops (trace s))) m /\ keeps (still gInterrupted) m.

(** What makes a relation stable under the steps every handler is made
    of: logging, errno, the handlers of the signals the environment may
    deliver, and the bookkeeping of the setup functions.  [goodc] tells
    which calls the relation survives, [allowed] which signals. *)
Record frame (E : env) (R : state -> state -> Prop)
    (goodc : syscall -> Prop) (allowed : signo -> Prop) : Prop := mkFrame {
  fr_refl : forall s, R s s;
  fr_trans : forall a b c, R a b -> R b c -> R a c;
  fr_out : forall s f fmt a, R s (set_trace (Out f fmt a :: trace s) s);
  fr_sys : forall s c r, goodc c -> R s (set_trace (Sys c r :: trace s) s);
  fr_errno : forall s e, R s (set_errno e s);
  fr_handler : forall s sg, allowed sg -> R s (final (handler_of sg s s));
  fr_env : forall c n, Forall allowed (sigs (respond E c n));
  fr_callTime : forall s v, R s (set_callTime v s);
  fr_shouldBlock : forall s v, R s (set_shouldBlock v s);
  fr_disposition : forall s v, R s (set_sigioDisposition v s)
}.

(** * Properties *)

Create HintDb keeps discriminated.
Create HintDb steps discriminated.
#[global] Hint Constants Opaque : keeps.
#[global] Hint Variables Opaque : keeps.

(** ** The frame rules *)

Section Frame.

Variable E : env.
Variable fuel : nat.
Variable R : state -> state -> Prop.
Variable goodc : syscall -> Prop.
Variable allowed : signo -> Prop.
Hypothesis F : frame E R goodc allowed.

Lemma keeps_ret {A : Type} (a : A) : keeps R (retM a).
Proof. intros s. apply (fr_refl _ _ _ _ F). Qed.

Lemma keeps_gets {A : Type} (f : state -> A) : keeps R (gets f).
Proof. intros s. apply (fr_refl _ _ _ _ F). Qed.

Lemma keeps_spin {A : Type} : keeps R (@spin A).
Proof. intros s. apply (fr_refl _ _ _ _ F). Qed.

Lemma keeps_bind {A B : Type} (m : M A) (k : A -> M B) :
  keeps R m -> (forall a, keeps R (k a)) -> keeps R (bindM m k).
Proof.
  intros Hm Hk s. unfold bindM. specialize (Hm s).
  destruct (m s) as [a s'|s']; simpl in *.
  - eapply (fr_trans _ _ _ _ F); [exact Hm | apply Hk].
  - exact Hm.
Qed.

Lemma keeps_modify (f : state -> state) :
  (forall s, R s (f s)) -> keeps R (modify f).
Proof. intros H s. apply H. Qed.

Lemma keeps_fprintf f fmt a : keeps R (fprintf f fmt a).
Proof. intros s. apply (fr_out _ _ _ _ F). Qed.

Lemma keeps_printf fmt a : keeps R (printf fmt a).
Proof. apply keeps_fprintf. Qed.

Lemma keeps_deliver sgs : Forall allowed sgs -> forall s, R s (deliver sgs s).
Proof.
  induction 1 as [|sg sgs Hsg _ IH]; intros s.
  - apply (fr_refl _ _ _ _ F).
  - simpl. eapply (fr_trans _ _ _ _ F); [|apply IH].
    apply (fr_handler _ _ _ _ F); exact Hsg.
Qed.

Lemma keeps_call c : goodc c -> keeps R (call E c).
Proof.
  intros Hc s. unfold call. simpl.
  eapply (fr_trans _ _ _ _ F); [|apply keeps_deliver, (fr_env _ _ _ _ F)].
  destruct (sets_errno c && (ret _ <? 0)).
  - eapply (fr_trans _ _ _ _ F); [apply (fr_sys _ _ _ _ F); exact Hc|].
    apply (fr_errno _ _ _ _ F).
  - apply (fr_sys _ _ _ _ F); exact Hc.
Qed.

(** The calls of the setup functions, one hypothesis for each. *)
Hypothesis good_gettimeofday : goodc sys_gettimeofday.
Hypothesis good_fcntl : forall fd cmd a, goodc (sys_fcntl fd cmd a).
Hypothesis good_select : forall n r w x t, goodc (sys_select n r w x t).
Hypothesis good_sleep : forall n, goodc (sys_sleep n).
Hypothesis good_signal : forall h, goodc (sys_signal h).
Hypothesis good_getpid : goodc sys_getpid.

Lemma R_callTime v s : R s (set_callTime v s).
Proof. apply (fr_callTime _ _ _ _ F). Qed.

Lemma R_shouldBlock v s : R s (set_shouldBlock v s).
Proof. apply (fr_shouldBlock _ _ _ _ F). Qed.

Lemma R_disposition v s : R s (set_sigioDisposition v s).
Proof. apply (fr_disposition _ _ _ _ F). Qed.

Local Hint Resolve R_callTime R_shouldBlock R_disposition : steps.
Local Hint Resolve good_gettimeofday good_fcntl good_select good_sleep
  good_signal good_getpid : steps.

Ltac keep1 :=
  lazymatch goal with
  | |- keeps _ (retM _) => apply keeps_ret
  | |- keeps _ (gets _) => apply keeps_gets
  | |- keeps _ spin => apply keeps_spin
  | |- keeps _ (fprintf _ _ _) => apply keeps_fprintf
  | |- keeps _ (printf _ _) => apply keeps_printf
  | |- keeps _ (modify _) => apply keeps_modify; solve [auto with steps nocore]
  | |- keeps _ (call _ _) => apply keeps_call; solve [auto with steps nocore]
  | |- keeps _ (bindM _ _) => apply keeps_bind; [ | intros ? ]
  | |- keeps _ (if ?b then _ else _) => destruct b
  | |- keeps _ (match ?x with _ => _ end) => destruct x
  | |- keeps _ _ => solve [auto with keeps nocore]
  end.

Ltac keep := repeat keep1.

Lemma keeps_signal_SIGIO h : keeps R (signal_SIGIO E h).
Proof. unfold signal_SIGIO. keep. Qed.

Lemma keeps_setIntegerArgument param : keeps R (setIntegerArgument E param).
Proof. unfold setIntegerArgument. keep. Qed.

Lemma keeps_getNamedValue token names : keeps R (getNamedValue E token names).
Proof. unfold getNamedValue. keep. Qed.

Lemma keeps_findFreeSocketSlot : keeps R findFreeSocketSlot.
Proof. unfold findFreeSocketSlot. keep. Qed.

Lemma keeps_setFctlFlag flag : keeps R (setFctlFlag E flag).
Proof. unfold setFctlFlag. keep. Qed.

Lemma keeps_clearFctlFlag flag : keeps R (clearFctlFlag E flag).
Proof. unfold clearFctlFlag. keep. Qed.

Lemma keeps_doBlockingSetup : keeps R (doBlockingSetup E).
Proof. unfold doBlockingSetup. keep. Qed.

Lemma keeps_verifyBlocking expected : keeps R (verifyBlocking E expected).
Proof. unfold verifyBlocking. keep. Qed.

Local Hint Resolve keeps_signal_SIGIO keeps_setIntegerArgument
  keeps_getNamedValue keeps_findFreeSocketSlot keeps_setFctlFlag
  keeps_clearFctlFlag keeps_doBlockingSetup keeps_verifyBlocking : keeps.

Lemma keeps_blockingPreAPISetup c : keeps R (blockingPreAPISetup E c).
Proof. unfold blockingPreAPISetup. keep. Qed.

Lemma keeps_blockingPostAPISetup r : keeps R (blockingPostAPISetup E r).
Proof. unfold blockingPostAPISetup. keep. Qed.

Lemma keeps_nonblockingPreAPISetup : keeps R (nonblockingPreAPISetup E).
Proof. unfold nonblockingPreAPISetup. keep. Qed.

Lemma keeps_nonblockingPostAPISetup r : keeps R (nonblockingPostAPISetup E r).
Proof. unfold nonblockingPostAPISetup. keep. Qed.

Lemma keeps_checkSelect c r : keeps R (checkSelect c r).
Proof. unfold checkSelect. keep. Qed.

Local Hint Resolve keeps_checkSelect : keeps.

Lemma keeps_selectOnce c : keeps R (selectOnce E c).
Proof. unfold selectOnce. keep. Qed.

Local Hint Resolve keeps_selectOnce : keeps.

Lemma keeps_selectLoop c n : keeps R (selectLoop E n c).
Proof.
  induction n as [|n IH]; simpl; [apply keeps_spin|keep].
Qed.

Local Hint Resolve keeps_blockingPreAPISetup keeps_blockingPostAPISetup
  keeps_nonblockingPreAPISetup keeps_nonblockingPostAPISetup
  keeps_selectLoop : keeps.

Lemma keeps_selectPreAPISetup c : keeps R (selectPreAPISetup E fuel c).
Proof. unfold selectPreAPISetup. keep. Qed.

Lemma keeps_selectPostAPISetup r : keeps R (selectPostAPISetup E r).
Proof. unfold selectPostAPISetup. keep. Qed.

Lemma keeps_sigioTick : keeps R (sigioTick E).
Proof. unfold sigioTick. keep. Qed.

Local Hint Resolve keeps_sigioTick : keeps.

Lemma keeps_sigioLoop n : keeps R (sigioLoop E n).
Proof. induction n as [|n IH]; simpl; [apply keeps_spin|keep]. Qed.

Lemma keeps_signalPostAPISetup r : keeps R (signalPostAPISetup E r).
Proof. unfold signalPostAPISetup. keep. Qed.

Local Hint Resolve keeps_selectPreAPISetup keeps_selectPostAPISetup
  keeps_sigioLoop keeps_signalPostAPISetup : keeps.

Lemma keeps_postAPISetup r : keeps R (postAPISetup E r).
Proof. unfold postAPISetup. keep. Qed.

(** The signal model lowers sigioReceived before it waits. *)
Hypothesis R_clear : forall s, R s (set_sigioReceived false s).

Lemma keeps_signalPreAPISetup c : keeps R (signalPreAPISetup E fuel c).
Proof. unfold signalPreAPISetup. keep. Qed.

Local Hint Resolve R_clear : steps.
Local Hint Resolve keeps_signalPreAPISetup : keeps.

Lemma keeps_preAPISetup c : keeps R (preAPISetup E fuel c).
Proof. unfold preAPISetup. keep. Qed.

Lemma keeps_reportAPIError r : keeps R (reportAPIError r).
Proof. unfold reportAPIError. keep. Qed.

Lemma keeps_showUsage cmd : keeps R (showUsage cmd).
Proof. unfold showUsage. keep. Qed.

Lemma keeps_showReceived r : keeps R (showReceived r).
Proof. unfold showReceived. keep. Qed.

Lemma keeps_showWritten r : keeps R (showWritten r).
Proof. unfold showWritten. keep. Qed.

Local Hint Resolve keeps_reportAPIError keeps_showUsage keeps_showReceived
  keeps_showWritten : keeps.

(** The handlers resolve addresses before they call the socket API. *)
Hypothesis good_getaddrinfo : forall node, goodc (sys_getaddrinfo node).

Local Hint Resolve good_getaddrinfo : steps.

Lemma keeps_lookupAddress node : keeps R (lookupAddress E node).
Proof. unfold lookupAddress. keep. Qed.

Lemma keeps_recvmsgOptions n gTokens optind flags :
  keeps R (recvmsgOptions E n gTokens optind flags).
Proof.
  revert optind flags.
  induction n as [|n IH]; intros; simpl; [apply keeps_spin|keep].
Qed.

Lemma keeps_sendmsgOptions n gTokens optind flags faddr :
  keeps R (sendmsgOptions E n gTokens optind flags faddr).
Proof.
  revert optind flags faddr.
  induction n as [|n IH]; intros; simpl; [apply keeps_spin|keep].
Qed.

Local Hint Resolve keeps_lookupAddress keeps_recvmsgOptions
  keeps_sendmsgOptions : keeps.

(** From here on the relation survives every call. *)
Hypothesis good_all : forall c, goodc c.

Local Hint Resolve good_all : steps.
Local Hint Resolve keeps_preAPISetup keeps_postAPISetup : keeps.

Lemma keeps_callAPILoop n c api args : keeps R (callAPILoop E fuel n c api args).
Proof. induction n as [|n IH]; simpl; [apply keeps_spin|keep]. Qed.

Lemma keeps_callAPI c api args : keeps R (callAPI E fuel c api args).
Proof. apply keeps_callAPILoop. Qed.

Local Hint Resolve keeps_callAPI : keeps.

Lemma keeps_plainAPI api args : keeps R (plainAPI E api args).
Proof. unfold plainAPI. keep. Qed.

Local Hint Resolve keeps_plainAPI : keeps.

Lemma keeps_doHelp : keeps R doHelp.
Proof. unfold doHelp. simpl. keep. Qed.

Lemma keeps_doBind gTokens : keeps R (doBind E gTokens).
Proof. unfold doBind. keep. Qed.

Lemma keeps_doConnect gTokens : keeps R (doConnect E fuel gTokens).
Proof. unfold doConnect. keep. Qed.

Lemma keeps_doListen gTokens : keeps R (doListen E gTokens).
Proof. unfold doListen. keep. Qed.

Lemma keeps_doRecvmsg gTokens : keeps R (doRecvmsg E fuel gTokens).
Proof. unfold doRecvmsg. keep. Qed.

Lemma keeps_doSendmsg gTokens : keeps R (doSendmsg E fuel gTokens).
Proof. unfold doSendmsg. keep. Qed.

Lemma keeps_doRead : keeps R (doRead E fuel).
Proof. unfold doRead. keep. Qed.

Lemma keeps_doWrite : keeps R (doWrite E fuel).
Proof. unfold doWrite. keep. Qed.

Lemma keeps_doSetsockopt gTokens : keeps R (doSetsockopt E gTokens).
Proof. unfold doSetsockopt. keep. Qed.

Lemma keeps_doGetsockopt gTokens : keeps R (doGetsockopt E gTokens).
Proof. unfold doGetsockopt. keep. Qed.

Lemma keeps_doMembership option gTokens : keeps R (doMembership E option gTokens).
Proof. unfold doMembership. keep. Qed.

Lemma keeps_doShutdown gTokens : keeps R (doShutdown E gTokens).
Proof. unfold doShutdown. keep. Qed.

Lemma keeps_showName api : keeps R (showName E api).
Proof. unfold showName. keep. Qed.

(** The option loop of doSocket stores the values it reads. *)
Hypothesis R_gDomain : forall v s, R s (set_gDomain v s).
Hypothesis R_gType : forall v s, R s (set_gType v s).
Hypothesis R_gProtocol : forall v s, R s (set_gProtocol v s).

Local Hint Resolve R_gDomain R_gType R_gProtocol : steps.

Lemma keeps_socketOptions n gTokens optind :
  keeps R (socketOptions E n gTokens optind).
Proof.
  revert optind.
  induction n as [|n IH]; intros; simpl; [apply keeps_spin|keep].
Qed.

Lemma keeps_doMultijoin gTokens : keeps R (doMultijoin E gTokens).
Proof. apply keeps_doMembership. Qed.

Lemma keeps_doMultileave gTokens : keeps R (doMultileave E gTokens).
Proof. apply keeps_doMembership. Qed.

Lemma keeps_doGetsockname : keeps R (doGetsockname E).
Proof. apply keeps_showName. Qed.

Lemma keeps_doGetpeername : keeps R (doGetpeername E).
Proof. apply keeps_showName. Qed.

(** The model command stores the model. *)
Hypothesis R_model : forall v s, R s (set_model v s).

Local Hint Resolve R_model : steps.

Lemma keeps_doModel gTokens : keeps R (doModel gTokens).
Proof. unfold doModel. keep. Qed.

Local Hint Resolve keeps_doHelp keeps_doModel keeps_doBind keeps_doConnect
  keeps_doListen keeps_doRecvmsg keeps_doSendmsg keeps_doRead keeps_doWrite
  keeps_doSetsockopt keeps_doGetsockopt keeps_doMultijoin keeps_doMultileave
  keeps_doShutdown keeps_doGetsockname keeps_doGetpeername : keeps.

(** The commands that neither create, select nor close a socket. *)
Lemma keeps_dispatch_plain i gTokens :
  i <> CMD_USE -> i <> CMD_SOCKET -> i <> CMD_ACCEPT -> i <> CMD_CLOSE ->
  keeps R (dispatch E fuel i gTokens).
Proof.
  unfold CMD_USE, CMD_SOCKET, CMD_ACCEPT, CMD_CLOSE. intros Hu Hs Ha Hc.
  unfold dispatch.
  do 21 (destruct i as [|i]; [try congruence; keep|]).
  keep.
Qed.

(** The commands that move the selection or write the registry. *)
Hypothesis R_gCurrent : forall v s, R s (set_gCurrent v s).
Hypothesis R_store : forall i v s, R s (store_gSockfd i v s).

Local Hint Resolve R_gCurrent R_store : steps.
Local Hint Resolve keeps_socketOptions : keeps.

Lemma keeps_doUse gTokens : keeps R (doUse E gTokens).
Proof. unfold doUse. keep. Qed.

Lemma keeps_doSocket gTokens : keeps R (doSocket E fuel gTokens).
Proof. unfold doSocket. keep. Qed.

Lemma keeps_doAccept : keeps R (doAccept E fuel).
Proof. unfold doAccept. keep. Qed.

Lemma keeps_doClose : keeps R (doClose E).
Proof. unfold doClose. keep. Qed.

Local Hint Resolve keeps_doUse keeps_doSocket keeps_doAccept keeps_doClose : keeps.

(** Every command but the model command. *)
Lemma keeps_dispatch_but_model i gTokens :
  i <> CMD_MODEL -> keeps R (dispatch E fuel i gTokens).
Proof.
  unfold CMD_MODEL. intros Hm. unfold dispatch.
  do 21 (destruct i as [|i]; [try congruence; keep|]).
  keep.
Qed.

(** Every command. *)
Lemma keeps_dispatch_any i gTokens : keeps R (dispatch E fuel i gTokens).
Proof.
  unfold dispatch.
  do 21 (destruct i as [|i]; [keep|]).
  keep.
Qed.

End Frame.

(** ** Frames at hand *)

(** A reading of the state that the steps of a frame leave alone gives
    a frame. *)
Lemma frame_same (E : env) {A : Type} (f : state -> A)
    (goodc : syscall -> Prop) (allowed : signo -> Prop) :
  (forall s fl fmt a, f (set_trace (Out fl fmt a :: trace s) s) = f s) ->
  (forall s c r, goodc c -> f (set_trace (Sys c r :: trace s) s) = f s) ->
  (forall s e, f (set_errno e s) = f s) ->
  (forall s sg, allowed sg -> f (final (handler_of sg s s)) = f s) ->
  (forall c n, Forall allowed (sigs (respond E c n))) ->
  (forall s v, f (set_callTime v s) = f s) ->
  (forall s v, f (set_shouldBlock v s) = f s) ->
  (forall s v, f (set_sigioDisposition v s) = f s) ->
  frame E (same f) goodc allowed.
Proof.
  intros. constructor; unfold same; auto.
  intros a b c Hab Hbc. congruence.
Qed.

Lemma Forall_any {A : Type} (l : list A) : Forall (fun _ => True) l.
Proof. induction l; constructor; auto. Qed.

Ltac handlers :=
  let s := fresh "s" in let sg := fresh "sg" in
  intros s sg ?; destruct sg; cbn; try reflexivity; try discriminate;
  destruct (sigioDisposition s); cbn; try reflexivity;
  destruct (gVerbose s); reflexivity.

(** The registry and the model are out of reach of the setup functions
    and of every signal. *)
Lemma registry_frame (E : env) :
  frame E (same (fun s => (gCurrent s, gSockfd s, model s)))
    (fun _ => True) (fun _ => True).
Proof.
  apply frame_same; try reflexivity; try handlers.
  intros; apply Forall_any.
Qed.

(** The events of a log that satisfy [p], when no printed line does, are
    out of reach of the calls that do not satisfy it. *)
Lemma filter_frame (E : env) (p : event -> bool) :
  (forall f fmt a, p (Out f fmt a) = false) ->
  frame E (same (fun s => filter p (trace s)))
    (fun c => forall r, p (Sys c r) = false) (fun _ => True).
Proof.
  intros Hp. apply frame_same; try reflexivity.
  - intros s fl fmt a. cbn. rewrite Hp. reflexivity.
  - intros s c r Hc. cbn. rewrite Hc. reflexivity.
  - intros s sg _; destruct sg; cbn; rewrite ?Hp; try reflexivity;
      destruct (sigioDisposition s); cbn; rewrite ?Hp; try reflexivity;
      destruct (gVerbose s); cbn; rewrite ?Hp; reflexivity.
  - intros; apply Forall_any.
Qed.

Lemma ops_frame (E : env) :
  frame E (same (fun s => ops (trace s)))
    (fun c => forall r, is_op (Sys c r) = false) (fun _ => True).
Proof. apply filter_frame. reflexivity. Qed.

Lemma setup_not_op c : setup_call c = true -> forall r, is_op (Sys c r) = false.
Proof. destruct c; simpl; intros; congruence. Qed.

(** A flag that only handlers touch, and only to raise it, stays up. *)
Lemma interrupted_frame (E : env) :
  frame E (still gInterrupted) (fun _ => True) (fun _ => True).
Proof.
  constructor; unfold still; try (intros; assumption); auto.
  - intros s sg _ H. destruct sg; cbn; try reflexivity; try assumption;
      destruct (sigioDisposition s); cbn; try assumption;
      destruct (gVerbose s); assumption.
  - intros; apply Forall_any.
Qed.

Lemma notified_frame (E : env) :
  frame E (still (fun s => sigioReceived s || gInterrupted s))
    (fun _ => True) (fun _ => True).
Proof.
  constructor; unfold still; try (intros; assumption); auto.
  - intros s sg _ H. destruct sg; cbn; rewrite ?orb_true_r; try reflexivity;
      try assumption;
      destruct (sigioDisposition s); cbn; try assumption;
      destruct (gVerbose s); cbn; try assumption; reflexivity.
  - intros; apply Forall_any.
Qed.

(** When no signal of the environment interrupts, the interrupt flag
    joins what the setup functions leave alone. *)
Lemma calm_frame (E : env) :
  (forall c n, no_interrupt (sigs (respond E c n))) ->
  frame E (same (fun s => (gInterrupted s, model s, gCurrent s, gSockfd s)))
    (fun _ => True) (fun sg => sg = SIGIO).
Proof.
  intros Hcalm. apply frame_same; try reflexivity; try handlers.
  exact Hcalm.
Qed.

(** ** Runs that return *)

Lemma final_bind {A B : Type} (m : M A) (k : A -> M B) (s : state) :
  final (bindM m k s)
  = match m s with Returned a s1 => final (k a s1) | Spinning s1 => s1 end.
Proof. unfold bindM. destruct (m s); reflexivity. Qed.

Lemma bind_returned {A B : Type} (m : M A) (k : A -> M B) (s s1 : state) (a : A) :
  m s = Returned a s1 -> bindM m k s = k a s1.
Proof. intros H. unfold bindM. rewrite H. reflexivity. Qed.

Lemma gets_returned {A : Type} (f : state -> A) (s : state) :
  gets f s = Returned (f s) s.
Proof. reflexivity. Qed.

Lemma final_returned {A : Type} (a : A) (s : state) : final (Returned a s) = s.
Proof. reflexivity. Qed.

Lemma final_spinning {A : Type} (s : state) : final (@Spinning A s) = s.
Proof. reflexivity. Qed.

Lemma call_returned (E : env) (c : syscall) (s : state) :
  call E c s = Returned (answer E c s) (final (call E c s)).
Proof. reflexivity. Qed.

Lemma returns_ret {A : Type} (a : A) : returns (retM a).
Proof. intros s. exists a. reflexivity. Qed.

Lemma returns_gets {A : Type} (f : state -> A) : returns (gets f).
Proof. intros s. exists (f s). reflexivity. Qed.

Lemma returns_modify (f : state -> state) : returns (modify f).
Proof. intros s. exists tt. reflexivity. Qed.

Lemma returns_fprintf f fmt a : returns (fprintf f fmt a).
Proof. intros s. exists tt. reflexivity. Qed.

Lemma returns_printf fmt a : returns (printf fmt a).
Proof. intros s. exists tt. reflexivity. Qed.

Lemma returns_call (E : env) c : returns (call E c).
Proof. intros s. exists (answer E c s). reflexivity. Qed.

Lemma returns_bind {A B : Type} (m : M A) (k : A -> M B) :
  returns m -> (forall a, returns (k a)) -> returns (bindM m k).
Proof.
  intros Hm Hk s. destruct (Hm s) as [a Ha].
  rewrite (bind_returned _ _ _ _ _ Ha). apply Hk.
Qed.

Create HintDb returns discriminated.
#[global] Hint Constants Opaque : returns.

Ltac ret1 :=
  lazymatch goal with
  | |- returns (retM _) => apply returns_ret
  | |- returns (gets _) => apply returns_gets
  | |- returns (modify _) => apply returns_modify
  | |- returns (fprintf _ _ _) => apply returns_fprintf
  | |- returns (printf _ _) => apply returns_printf
  | |- returns (call _ _) => apply returns_call
  | |- returns (bindM _ _) => apply returns_bind; [ | intros ? ]
  | |- returns (if ?b then _ else _) => destruct b
  | |- returns (match ?x with _ => _ end) => destruct x
  | |- returns _ => solve [auto with returns nocore]
  end.

Ltac rets := repeat ret1.

Lemma returns_signal_SIGIO E h : returns (signal_SIGIO E h).
Proof. unfold signal_SIGIO. rets. Qed.

Lemma returns_findFreeSocketSlot : returns findFreeSocketSlot.
Proof. unfold findFreeSocketSlot. rets. Qed.

Lemma returns_setFctlFlag E flag : returns (setFctlFlag E flag).
Proof. unfold setFctlFlag. rets. Qed.

Lemma returns_clearFctlFlag E flag : returns (clearFctlFlag E flag).
Proof. unfold clearFctlFlag. rets. Qed.

Lemma returns_doBlockingSetup E : returns (doBlockingSetup E).
Proof. unfold doBlockingSetup. rets. Qed.

Lemma returns_verifyBlocking E expected : returns (verifyBlocking E expected).
Proof. unfold verifyBlocking. rets. Qed.

#[global] Hint Resolve returns_signal_SIGIO returns_findFreeSocketSlot
  returns_setFctlFlag returns_clearFctlFlag returns_doBlockingSetup
  returns_verifyBlocking : returns.

Lemma returns_blockingPreAPISetup E c : returns (blockingPreAPISetup E c).
Proof. unfold blockingPreAPISetup. rets. Qed.

Lemma returns_blockingPostAPISetup E r : returns (blockingPostAPISetup E r).
Proof. unfold blockingPostAPISetup. rets. Qed.

Lemma returns_nonblockingPreAPISetup E : returns (nonblockingPreAPISetup E).
Proof. unfold nonblockingPreAPISetup. rets. Qed.

Lemma returns_nonblockingPostAPISetup E r : returns (nonblockingPostAPISetup E r).
Proof. unfold nonblockingPostAPISetup. rets. Qed.

Lemma returns_selectPostAPISetup E r : returns (selectPostAPISetup E r).
Proof. unfold selectPostAPISetup. rets. Qed.

Lemma returns_signalPostAPISetup E r : returns (signalPostAPISetup E r).
Proof. unfold signalPostAPISetup. rets. Qed.

#[global] Hint Resolve returns_blockingPreAPISetup returns_blockingPostAPISetup
  returns_nonblockingPreAPISetup returns_nonblockingPostAPISetup
  returns_selectPostAPISetup returns_signalPostAPISetup : returns.

Lemma returns_postAPISetup E r : returns (postAPISetup E r).
Proof. unfold postAPISetup. rets. Qed.

(** A run that returns a unit returns tt. *)
Lemma returns_tt (m : M unit) (s : state) :
  returns m -> m s = Returned tt (final (m s)).
Proof. intros H. destruct (H s) as [[] Ha]. exact Ha. Qed.

Lemma bind_tt {B : Type} (m : M unit) (k : unit -> M B) (s : state) :
  returns m -> bindM m k s = k tt (final (m s)).
Proof. intros H. apply bind_returned, returns_tt, H. Qed.

(** ** The model command *)

(** C10: with no argument the model command selects the blocking model;
    with the argument blocking, nonblocking, select or signal it selects
    the model of that name: [model] reads that model afterwards.  With any
    other argument it prints an error and [model] reads what it read
    before.  The command always returns, and the registry, the selection,
    the verbosity and the interrupt flag read as before; the log changes
    only by the error line. *)
Theorem doModel_selects (gTokens : list string) (s : state) :
  let s' := final (doModel gTokens s) in
  doModel gTokens s = Returned tt s'
  /\ (gSockfd s' = gSockfd s /\ gCurrent s' = gCurrent s
      /\ gVerbose s' = gVerbose s /\ gInterrupted s' = gInterrupted s)
  /\ (nth_error gTokens 1 = None ->
     model s' = BLOCKING_MODEL /\ trace s' = trace s
     /\ doModel gTokens s = Returned tt (set_model BLOCKING_MODEL s))
  /\ (nth_error gTokens 1 = Some "blocking" ->
     model s' = BLOCKING_MODEL /\ trace s' = trace s
     /\ doModel gTokens s = Returned tt (set_model BLOCKING_MODEL s))
  /\ (nth_error gTokens 1 = Some "nonblocking" ->
     model s' = NONBLOCKING_MODEL /\ trace s' = trace s
     /\ doModel gTokens s = Returned tt (set_model NONBLOCKING_MODEL s))
  /\ (nth_error gTokens 1 = Some "select" ->
     model s' = SELECT_MODEL /\ trace s' = trace s
     /\ doModel gTokens s = Returned tt (set_model SELECT_MODEL s))
  /\ (nth_error gTokens 1 = Some "signal" ->
     model s' = SIGNAL_MODEL /\ trace s' = trace s
     /\ doModel gTokens s = Returned tt (set_model SIGNAL_MODEL s))
  /\ (forall t, nth_error gTokens 1 = Some t ->
        t <> "blocking" -> t <> "nonblocking" -> t <> "select" -> t <> "signal" ->
        model s' = model s
        /\ trace s' = Out stderr "Unrecognized model %s\n" [AStr t] :: trace s
        /\ doModel gTokens s
           = Returned tt
               (set_trace (Out stderr "Unrecognized model %s\n" [AStr t] :: trace s) s)).
Proof.
  cbv zeta. unfold doModel.
  split; [|split].
  - destruct (nth_error gTokens 1) as [t|]; [|reflexivity].
    destruct (t =? "blocking")%string; [reflexivity|].
    destruct (t =? "nonblocking")%string; [reflexivity|].
    destruct (t =? "signal")%string; [reflexivity|].
    destruct (t =? "select")%string; reflexivity.
  - destruct (nth_error gTokens 1) as [t|]; [|repeat split].
    destruct (t =? "blocking")%string; [repeat split|].
    destruct (t =? "nonblocking")%string; [repeat split|].
    destruct (t =? "signal")%string; [repeat split|].
    destruct (t =? "select")%string; repeat split.
  - do 5 (split; [intros H; rewrite H; repeat split|]).
    intros t H Hb Hn Hs Hg. rewrite H.
    apply String.eqb_neq in Hb, Hn, Hs, Hg. rewrite Hb, Hn, Hs, Hg.
    repeat split.
Qed.


(** ** The registry *)

(** The scan stops at the first unused slot at or after [i], or after
    [left] slots. *)
Lemma scanSlots_first (sockfd : Z -> Z) (left : nat) (i : Z) :
  let j := scanSlots sockfd i left in
  i <= j <= i + Z.of_nat left
  /\ (forall k, i <= k < j -> sockfd k <> UNUSED_FD)
  /\ (j < i + Z.of_nat left -> sockfd j = UNUSED_FD).
Proof.
  revert i. induction left as [|left IH]; intros i; cbn -[Z.of_nat].
  - split; [lia|]. split; intros; lia.
  - destruct (sockfd i =? UNUSED_FD) eqn:Hi.
    + apply Z.eqb_eq in Hi. split; [lia|]. split; [intros; lia|].
      intros _. exact Hi.
    + apply Z.eqb_neq in Hi. specialize (IH (i + 1)). cbn zeta in IH.
      destruct IH as [Hr [Hu Hf]]. split; [lia|]. split.
      * intros k Hk. destruct (Z.eq_dec k i) as [->|Hne]; [exact Hi|].
        apply Hu. lia.
      * intros Hlt. apply Hf. lia.
Qed.

(** With an unused slot in the registry, the search gives the first one
    and says nothing. *)
Lemma findFreeSocketSlot_free (s : state) (k : Z) :
  0 <= k < MAXSOCKETS -> gSockfd s k = UNUSED_FD ->
  exists i, findFreeSocketSlot s = Returned i s
            /\ 0 <= i <= k /\ gSockfd s i = UNUSED_FD
            /\ (forall j, 0 <= j < i -> gSockfd s j <> UNUSED_FD).
Proof.
  intros Hk Hfree.
  pose proof (scanSlots_first (gSockfd s) (Z.to_nat MAXSOCKETS) 0) as H.
  cbn zeta in H. destruct H as [Hr [Hu Hf]].
  set (j := scanSlots (gSockfd s) 0 (Z.to_nat MAXSOCKETS)) in *.
  assert (Hjk : j <= k).
  { destruct (Z_le_gt_dec j k) as [|Hgt]; [assumption|].
    exfalso. apply (Hu k); [lia|exact Hfree]. }
  exists j. unfold findFreeSocketSlot, bindM, gets. fold j.
  unfold MAXSOCKETS in *.
  change (Z.of_nat (Z.to_nat 10)) with 10 in *.
  destruct (j >=? 10) eqn:Hge; [lia|].
  split; [reflexivity|]. split; [lia|]. split; [apply Hf; lia|].
  intros i Hi. apply Hu. lia.
Qed.

(** With every slot taken, the search fails and says so. *)
Lemma findFreeSocketSlot_full (s : state) :
  full s ->
  findFreeSocketSlot s
  = Returned (-1)
      (set_trace (Out stderr "All %d sockets are in use.\n" [AInt MAXSOCKETS] :: trace s) s).
Proof.
  intros Hfull.
  pose proof (scanSlots_first (gSockfd s) (Z.to_nat MAXSOCKETS) 0) as H.
  cbn zeta in H. destruct H as [Hr [Hu Hf]].
  set (j := scanSlots (gSockfd s) 0 (Z.to_nat MAXSOCKETS)) in *.
  unfold findFreeSocketSlot, bindM, gets. fold j.
  change (Z.of_nat (Z.to_nat MAXSOCKETS)) with 10 in *.
  unfold MAXSOCKETS in *.
  destruct (j >=? 10) eqn:Hge; [reflexivity|].
  exfalso. apply (Hfull j); [unfold MAXSOCKETS; lia|]. apply Hf. lia.
Qed.

(** A call leaves the registry and the model alone. *)
Lemma call_registry (E : env) (c : syscall) (s : state) :
  gCurrent (final (call E c s)) = gCurrent s
  /\ gSockfd (final (call E c s)) = gSockfd s
  /\ model (final (call E c s)) = model s.
Proof.
  pose proof (keeps_call E _ _ _ (registry_frame E) c I s) as H.
  unfold same in H. injection H as H1 H2 H3. auto.
Qed.

Lemma socket_frame (E : env) :
  frame E (same (fun s => (gCurrent s, gSockfd s, filter is_socket (trace s))))
    (fun c => forall r, is_socket (Sys c r) = false) (fun _ => True).
Proof.
  apply frame_same; try reflexivity; try handlers.
  - intros s c r Hc. cbn -[is_socket]. rewrite Hc. reflexivity.
  - intros; apply Forall_any.
Qed.

(** With every slot taken, the socket command changes neither the
    selection nor the registry, and does not call socket(). *)
Lemma doSocket_full (E : env) (fuel : nat) (gTokens : list string) (s : state) :
  full s ->
  let s' := final (doSocket E fuel gTokens s) in
  gCurrent s' = gCurrent s /\ gSockfd s' = gSockfd s
  /\ filter is_socket (trace s') = filter is_socket (trace s).
Proof.
  intros Hfull. cbn zeta.
  set (f := fun s => (gCurrent s, gSockfd s, filter is_socket (trace s))).
  enough (H : f (final (doSocket E fuel gTokens s)) = f s).
  { injection H as H1 H2 H3. auto. }
  unfold doSocket.
  set (s3 := set_gProtocol 0 (set_gType (SOCK_STREAM E) (set_gDomain (PF_INET6 E) s))).
  change (f s) with (f s3).
  do 3 (rewrite bind_tt by apply returns_modify). cbn [final modify]. fold s3.
  pose proof (keeps_socketOptions E _ _ _ (socket_frame E)
                ltac:(reflexivity) ltac:(reflexivity) ltac:(reflexivity)
                fuel gTokens 0 s3) as Hk.
  unfold same in Hk. fold f in Hk.
  rewrite final_bind.
  destruct (socketOptions E fuel gTokens 0 s3) as [parsed s4|s4]; cbn [final] in Hk;
    [|exact Hk].
  destruct parsed as [[retval optind]|]; [|exact Hk].
  destruct (optind <? gTokenCount gTokens);
    [etransitivity; [|exact Hk]; reflexivity|].
  destruct (negb (retval =? 0)); [etransitivity; [|exact Hk]; reflexivity|].
  assert (Hfull4 : full s4).
  { intros i Hi. injection Hk as _ Hfd _. rewrite Hfd. apply Hfull, Hi. }
  rewrite (bind_returned _ _ _ _ _ (findFreeSocketSlot_full s4 Hfull4)).
  etransitivity; [|exact Hk]. reflexivity.
Qed.

(** With every slot taken, the accept command changes neither the
    selection nor the registry, and calls nothing. *)
Lemma doAccept_full (E : env) (fuel : nat) (s : state) :
  full s ->
  let s' := final (doAccept E fuel s) in
  gCurrent s' = gCurrent s /\ gSockfd s' = gSockfd s
  /\ ops (trace s') = ops (trace s).
Proof.
  intros Hfull. cbn zeta. unfold doAccept.
  rewrite (bind_returned _ _ _ _ _ (findFreeSocketSlot_full s Hfull)).
  cbn. auto.
Qed.

(** C7: the search for a free slot gives the first unused slot of the
    registry; with all 10 slots taken it fails and reports it, and then the
    socket and accept commands create nothing (no socket() call, no
    operation) and leave the selection and the registry as they were; once
    any one slot is marked unused again, the next search succeeds. *)
Theorem allocate_first_unused (E : env) (fuel : nat) (gTokens : list string)
    (s : state) :
  (forall k, 0 <= k < MAXSOCKETS -> gSockfd s k = UNUSED_FD ->
     exists i, findFreeSocketSlot s = Returned i s
               /\ 0 <= i <= k /\ gSockfd s i = UNUSED_FD
               /\ (forall j, 0 <= j < i -> gSockfd s j <> UNUSED_FD))
  /\ (full s ->
      findFreeSocketSlot s
      = Returned (-1)
          (set_trace
             (Out stderr "All %d sockets are in use.\n" [AInt 10] :: trace s) s))
  /\ (full s ->
      let s' := final (doSocket E fuel gTokens s) in
      gCurrent s' = gCurrent s /\ gSockfd s' = gSockfd s
      /\ filter is_socket (trace s') = filter is_socket (trace s))
  /\ (full s ->
      let s' := final (doAccept E fuel s) in
      gCurrent s' = gCurrent s /\ gSockfd s' = gSockfd s
      /\ ops (trace s') = ops (trace s))
  /\ (forall k, 0 <= k < MAXSOCKETS ->
      let released := store_gSockfd k UNUSED_FD s in
      exists i, findFreeSocketSlot released = Returned i released /\ 0 <= i <= k).
Proof.
  split; [intros k Hk Hfree; apply findFreeSocketSlot_free; assumption|].
  split; [apply findFreeSocketSlot_full|].
  split; [apply doSocket_full|].
  split; [apply doAccept_full|].
  intros k Hk released.
  destruct (findFreeSocketSlot_free released k Hk) as [i [Hi [Hr _]]].
  - unfold released, store_gSockfd. cbn. rewrite Z.eqb_refl. reflexivity.
  - exists i. auto.
Qed.

(** ** The use command *)

(** For an index inside the registry, the use command does what the
    specification says: it refuses an unused slot and selects an open one. *)
Lemma doUse_in_range (E : env) (number : string) (i : Z) (s : state) :
  sscanf_i E number = Some i ->
  doUse E ["use"; number] s
  = if gSockfd s i =? UNUSED_FD
    then Returned tt
           (set_trace (Out stderr "Socket number %d not open.\n" [AInt i] :: trace s) s)
    else Returned tt (set_gCurrent i s).
Proof.
  intros H. unfold doUse, setIntegerArgument. cbn. rewrite H. cbn.
  destruct (gSockfd s i =? UNUSED_FD); reflexivity.
Qed.

(** C6, the failing input: "use 10" names a slot outside the registry.
    No index is checked against the size of the array: the command reads
    the word that follows the array (0 here, not the unused mark), prints
    nothing, and moves the selection to 10. *)
Lemma doUse_out_of_range_accepted :
  let s := with_sockets BLOCKING_MODEL 0 [5] in
  is_slot 10 = false
  /\ doUse all_succeed ["use"; "10"] s = Returned tt (set_gCurrent 10 s)
  /\ gCurrent (final (doUse all_succeed ["use"; "10"] s)) = 10
  /\ printed (trace (final (doUse all_succeed ["use"; "10"] s))) = [].
Proof. repeat split. Qed.

(** ** What signals cannot do *)

Lemma handler_beyond (sg : signo) (s : state) :
  beyond_signals (final (handler_of sg s s)) = beyond_signals s.
Proof.
  destruct sg; cbn; try reflexivity;
    destruct (sigioDisposition s) eqn:Hd; cbn; rewrite ?Hd; try reflexivity;
    destruct (gVerbose s) eqn:Hv; cbn; rewrite ?Hd, ?Hv; reflexivity.
Qed.

Lemma deliver_beyond (sgs : list signo) (s : state) :
  beyond_signals (deliver sgs s) = beyond_signals s.
Proof.
  revert s. induction sgs as [|sg sgs IH]; intros s; [reflexivity|].
  cbn [deliver fold_left]. fold (deliver sgs (final (handler_of sg s s))).
  rewrite IH. apply handler_beyond.
Qed.

(** What a call changes outside the two flags: the log gains the call,
    and errno the error of a failure. *)
Lemma call_beyond (E : env) (c : syscall) (s : state) :
  let r := answer E c s in
  let s' := final (call E c s) in
  gVerbose s' = gVerbose s /\ callTime s' = callTime s
  /\ shouldBlock s' = shouldBlock s /\ sigioDisposition s' = sigioDisposition s
  /\ errno s' = (if sets_errno c && (ret r <? 0) then err r else errno s)
  /\ mismatches (trace s') = mismatches (trace s)
  /\ filter is_sys (trace s') = Sys c r :: filter is_sys (trace s).
Proof.
  cbn zeta. unfold call, answer. cbn [final].
  set (r := respond E c (earlier c (trace s))).
  pose proof (deliver_beyond (sigs r)
    (if sets_errno c && (ret r <? 0)
     then set_errno (err r) (set_trace (Sys c r :: trace s) s)
     else set_trace (Sys c r :: trace s) s)) as H.
  unfold beyond_signals in H.
  destruct (sets_errno c && (ret r <? 0)); cbn in H;
    injection H as H1 H2 H3 H4 H5 H6 H7 H8 H9 H10 H11 H12 H13; auto 10.
Qed.

(** ** The close command *)

(** C5, as the code has it: the close command marks the current slot
    unused when close() succeeded, and only then, printing nothing; when
    close() failed it reports the failure on stderr, with the result and
    the error close() left in errno, and the slot keeps its handle.  The
    selection does not move either way. *)
Theorem doClose_marks_unused_on_success (E : env) (s : state) :
  let r := answer E (sys_close (currentSocket s)) s in
  let s1 := final (call E (sys_close (currentSocket s)) s) in
  let s' := final (doClose E s) in
  doClose E s = Returned tt s'
  /\ gCurrent s' = gCurrent s
  /\ filter is_sys (trace s1)
     = Sys (sys_close (currentSocket s)) r :: filter is_sys (trace s)
  /\ (ret r < 0 ->
      gSockfd s' = gSockfd s
      /\ trace s'
         = Out stderr "API returned %d.  Error %d passed in errno - %s.\n"
             [AInt (ret r); AInt (err r); AStrerror (err r)] :: trace s1)
  /\ (0 <= ret r ->
      gSockfd s' (gCurrent s) = UNUSED_FD
      /\ (forall i, i <> gCurrent s -> gSockfd s' i = gSockfd s i)
      /\ trace s' = trace s1).
Proof.
  cbn zeta. unfold doClose.
  rewrite (bind_returned _ _ _ _ _ (eq_refl : gets currentSocket s = Returned _ s)).
  rewrite (bind_returned _ _ _ _ _ (call_returned E _ s)).
  destruct (call_registry E (sys_close (currentSocket s)) s) as [Hc [Hfd _]].
  pose proof (call_beyond E (sys_close (currentSocket s)) s) as Hb.
  cbv zeta in Hb. destruct Hb as [_ [_ [_ [_ [He [_ Hsys]]]]]].
  change (sets_errno (sys_close (currentSocket s))) with true in He.
  cbn [andb] in He.
  set (r := answer E (sys_close (currentSocket s)) s) in *. clearbody r.
  set (s1 := final (call E (sys_close (currentSocket s)) s)) in *.
  clearbody s1.
  destruct (ret r <? 0) eqn:Hret.
  - apply Z.ltb_lt in Hret. unfold reportAPIError.
    rewrite (bind_returned _ _ _ _ _ (gets_returned errno s1)). rewrite He.
    cbn.
    split; [reflexivity|]. split; [exact Hc|]. split; [exact Hsys|].
    split; [intros _; split; [exact Hfd|reflexivity]|].
    intros Hge. lia.
  - apply Z.ltb_ge in Hret. cbn.
    split; [reflexivity|]. split; [exact Hc|]. split; [exact Hsys|].
    split; [intros Hlt; lia|].
    intros _. rewrite Hc. split; [|split; [|reflexivity]].
    + rewrite Z.eqb_refl. reflexivity.
    + intros i Hi. apply Z.eqb_neq in Hi. rewrite Hi, Hfd. reflexivity.
Qed.

(** C5, as stated, fails: close() fails on the socket in slot 0, and the
    slot still holds descriptor 5 after the close command, which printed
    the failure. *)
Lemma doClose_failure_keeps_slot :
  let s := with_sockets BLOCKING_MODEL 0 [5] in
  let s' := final (doClose close_fails s) in
  ret (answer close_fails (sys_close 5) s) = -1
  /\ gCurrent s' = 0
  /\ gSockfd s' 0 = 5
  /\ (gSockfd s' 0 =? UNUSED_FD) = false
  /\ printed (trace s')
     = [(stderr, "API returned %d.  Error %d passed in errno - %s.\n",
         [AInt (-1); AInt 5; AStrerror 5])].
Proof. repeat split. Qed.

(** A close() that succeeds on the same socket, for comparison. *)
Lemma doClose_success_frees_slot :
  let s := with_sockets BLOCKING_MODEL 0 [5] in
  gSockfd (final (doClose all_succeed s)) 0 = UNUSED_FD
  /\ printed (trace (final (doClose all_succeed s))) = [].
Proof. split; reflexivity. Qed.

(** ** The blocking model *)

(** What verifyBlocking adds to the reports of the oracle: one report when
    the classification differs from what was expected, none otherwise. *)
Lemma verifyBlocking_report (E : env) (expected : bool) (s : state) :
  let blocked := elapsed (callTime s) (now (answer E sys_gettimeofday s))
                 >? BLOCK_THRESHOLD in
  let s' := final (verifyBlocking E expected s) in
  mismatches (trace s')
  = ((if Bool.eqb blocked expected then []
      else [Out stderr "Error - API %s block.\n" [did blocked]])
     ++ mismatches (trace s))%list.
Proof.
  cbn zeta. unfold verifyBlocking.
  rewrite (bind_returned _ _ _ _ _ (call_returned E _ s)).
  destruct (call_beyond E sys_gettimeofday s) as [Hv [Ht [_ [_ [_ [Hm _]]]]]].
  set (s1 := final (call E sys_gettimeofday s)) in *. clearbody s1.
  unfold bindM, gets. rewrite Ht. unfold mismatches in *.
  destruct (Bool.eqb _ expected); cbn [negb].
  - destruct (gVerbose s1); cbn; exact Hm.
  - cbn. rewrite Hm. reflexivity.
Qed.

(** What the setup before the call leaves in the globals. *)
Lemma blockingPreAPISetup_records (E : env) (neededCondition : readyCondition)
    (s : state) :
  let s1 := final (blockingPreAPISetup E neededCondition s) in
  shouldBlock s1 = negb (is_WRITE_READY neededCondition)
  /\ callTime s1 = now (answer E sys_gettimeofday s).
Proof.
  cbn zeta. unfold blockingPreAPISetup, doBlockingSetup.
  rewrite bind_tt by apply returns_modify. cbn [final modify].
  set (s0 := set_shouldBlock (negb (is_WRITE_READY neededCondition)) s).
  rewrite (bind_returned _ _ _ _ _ (call_returned E _ s0)).
  destruct (call_beyond E sys_gettimeofday s0) as [_ [_ [Hs _]]].
  change (answer E sys_gettimeofday s0) with (answer E sys_gettimeofday s).
  set (s1 := final (call E sys_gettimeofday s0)) in *; clearbody s1.
  cbn. split; [exact Hs|reflexivity].
Qed.

Lemma blockingPostAPISetup_verifies (E : env) (apiResult : Z) (s : state) :
  blockingPostAPISetup E apiResult s
  = Returned true (final (blockingPostAPISetup E apiResult s))
  /\ final (blockingPostAPISetup E apiResult s)
     = final (verifyBlocking E (shouldBlock s && (apiResult >=? 0)) s).
Proof.
  unfold blockingPostAPISetup.
  rewrite (bind_returned _ _ _ _ _ (gets_returned shouldBlock s)).
  rewrite bind_tt by apply returns_verifyBlocking.
  unfold retM. rewrite final_returned. split; reflexivity.
Qed.

(** C1, as the code has it: in the blocking model the setup before the
    call records that the call should block exactly when the condition is
    not write-ready, and starts timing; the setup after the call compares
    the classification of the oracle with (that record and result >= 0),
    reports a mismatch exactly when they differ, and always gives done.
    So a read-ready operation (such as connect) that succeeds at once is
    classified as not having blocked, and a mismatch is reported. *)
Theorem blocking_strategy (E : env) (neededCondition : readyCondition)
    (api : sockop) (args : list Z) (s : state) :
  let s1 := final (blockingPreAPISetup E neededCondition s) in
  let r := answer E (sys_op api (currentSocket s1) args) s1 in
  let s2 := final (call E (sys_op api (currentSocket s1) args) s1) in
  let s3 := final (blockingPostAPISetup E (ret r) s2) in
  let blocked := elapsed (callTime s2) (now (answer E sys_gettimeofday s2))
                 >? BLOCK_THRESHOLD in
  let expected := negb (is_WRITE_READY neededCondition) && (ret r >=? 0) in
  blockingPreAPISetup E neededCondition s = Returned tt s1
  /\ shouldBlock s1 = negb (is_WRITE_READY neededCondition)
  /\ callTime s1 = now (answer E sys_gettimeofday s)
  /\ blockingPostAPISetup E (ret r) s2 = Returned true s3
  /\ mismatches (trace s3)
     = ((if Bool.eqb blocked expected then []
         else [Out stderr "Error - API %s block.\n" [did blocked]])
        ++ mismatches (trace s2))%list
  /\ (neededCondition = READ_READY -> 0 <= ret r ->
      elapsed (callTime s2) (now (answer E sys_gettimeofday s2)) <= BLOCK_THRESHOLD ->
      mismatches (trace s3)
      = Out stderr "Error - API %s block.\n" [AStr "did not"]
        :: mismatches (trace s2)).
Proof.
  cbn zeta.
  destruct (blockingPreAPISetup_records E neededCondition s) as [Hsb Hct].
  assert (Hret : blockingPreAPISetup E neededCondition s
                 = Returned tt (final (blockingPreAPISetup E neededCondition s)))
    by (apply returns_tt, returns_blockingPreAPISetup).
  set (s1 := final (blockingPreAPISetup E neededCondition s)) in *; clearbody s1.
  destruct (call_beyond E (sys_op api (currentSocket s1) args) s1)
    as [_ [_ [Hs2 _]]].
  generalize dependent (final (call E (sys_op api (currentSocket s1) args) s1)).
  generalize (answer E (sys_op api (currentSocket s1) args) s1).
  intros r s2 Hs2.
  destruct (blockingPostAPISetup_verifies E (ret r) s2) as [Hdone Hpost].
  rewrite Hpost, Hs2, Hsb.
  pose proof (verifyBlocking_report E
                (negb (is_WRITE_READY neededCondition) && (ret r >=? 0)) s2) as Hrep.
  cbn zeta in Hrep.
  split; [exact Hret|]. split; [reflexivity|]. split; [exact Hct|].
  split; [rewrite <- Hsb, <- Hs2, <- Hpost; exact Hdone|]. split; [exact Hrep|].
  intros Hcond Hok Hfast. rewrite Hrep. subst neededCondition.
  assert (Hg : (ret r >=? 0) = true) by (apply Z.geb_le; lia).
  assert (Hb : (elapsed (callTime s2) (now (answer E sys_gettimeofday s2))
                >? BLOCK_THRESHOLD) = false)
    by (rewrite Z.gtb_ltb; apply Z.ltb_ge; lia).
  rewrite Hg, Hb. reflexivity.
Qed.

(** C1, as stated, fails: in the blocking model a connect that succeeds at
    once (no time passes between the two readings of the clock) is
    classified as not having blocked, and the mismatch is reported. *)
Lemma instant_connect_reports_mismatch :
  let s := with_sockets BLOCKING_MODEL 0 [5] in
  let s' := final (doConnect all_succeed 1 ["connect"; "80"; "localhost"] s) in
  calls (trace s')
  = [sys_getaddrinfo (Some "localhost"); sys_gettimeofday;
     sys_op CONNECT 5 [80]; sys_gettimeofday]
  /\ (elapsed (mkTimeval 0 0) (mkTimeval 0 0) >? BLOCK_THRESHOLD) = false
  /\ mismatches (trace s') = [Out stderr "Error - API %s block.\n" [AStr "did not"]].
Proof. repeat split. Qed.

(** ** The nonblocking model *)

(** What a call adds to the events of the log that satisfy [p]. *)
Lemma call_filter (E : env) (p : event -> bool) (c : syscall) (s : state) :
  (forall f fmt a, p (Out f fmt a) = false) ->
  filter p (trace (final (call E c s)))
  = ((if p (Sys c (answer E c s)) then [Sys c (answer E c s)] else [])
     ++ filter p (trace s))%list.
Proof.
  intros Hp. unfold call, answer. rewrite final_returned.
  set (r := respond E c (earlier c (trace s))).
  pose proof (keeps_deliver E _ _ _ (filter_frame E p Hp) (sigs r)
                (Forall_any _)) as Hd.
  unfold same in Hd. rewrite Hd.
  destruct (sets_errno c && (ret r <? 0)); cbn -[filter];
    cbn [filter]; destruct (p (Sys c r)); reflexivity.
Qed.

(** The number of earlier calls of a function goes up by one with a call
    of it. *)
Lemma call_earlier (E : env) (c : syscall) (s : state) :
  earlier c (trace (final (call E c s))) = S (earlier c (trace s)).
Proof.
  unfold earlier. rewrite call_filter by reflexivity.
  assert (H : same_fn c (Sys c (answer E c s)) = true)
    by (cbn; apply Nat.eqb_refl).
  rewrite H. reflexivity.
Qed.

(** The decision of the nonblocking model, as a formula. *)
Lemma transient_spec (E : env) (e : Z) :
  negb (e =? EWOULDBLOCK E) && negb (e =? EINPROGRESS E) && negb (e =? EALREADY E)
  = negb (transient E e).
Proof.
  unfold transient.
  destruct (e =? EWOULDBLOCK E), (e =? EINPROGRESS E), (e =? EALREADY E); reflexivity.
Qed.

(** The setup after a call in the nonblocking model always returns; it
    gives done exactly when the result is not negative or errno is none of
    the three codes; it sleeps one second exactly when it does not give
    done. *)
Lemma nonblockingPostAPISetup_decides (E : env) (apiResult : Z) (s : state) :
  let done := (apiResult >=? 0) || negb (transient E (errno s)) in
  let s' := final (nonblockingPostAPISetup E apiResult s) in
  nonblockingPostAPISetup E apiResult s = Returned done s'
  /\ (done = true <->
      0 <= apiResult
      \/ (errno s <> EWOULDBLOCK E /\ errno s <> EINPROGRESS E
          /\ errno s <> EALREADY E))
  /\ (if done then filter is_sleep (trace s') = filter is_sleep (trace s)
      else exists r, filter is_sleep (trace s')
                     = Sys (sys_sleep 1) r :: filter is_sleep (trace s)).
Proof.
  cbn zeta.
  assert (Hiff : (apiResult >=? 0) || negb (transient E (errno s)) = true <->
                 0 <= apiResult
                 \/ (errno s <> EWOULDBLOCK E /\ errno s <> EINPROGRESS E
                     /\ errno s <> EALREADY E)).
  { rewrite orb_true_iff, <- transient_spec, !andb_true_iff, !negb_true_iff,
      !Z.eqb_neq, Z.geb_le. tauto. }
  unfold nonblockingPostAPISetup.
  rewrite (bind_returned _ _ _ _ _ (gets_returned errno s)).
  rewrite transient_spec.
  set (done := (apiResult >=? 0) || negb (transient E (errno s))) in *.
  rewrite bind_tt by apply returns_verifyBlocking.
  pose proof (keeps_verifyBlocking E _ _ _ (filter_frame E is_sleep ltac:(reflexivity))
                ltac:(cbv beta; reflexivity) false s) as H1.
  set (s1 := final (verifyBlocking E false s)) in *; clearbody s1.
  rewrite bind_tt by apply returns_clearFctlFlag.
  pose proof (keeps_clearFctlFlag E _ _ _ (filter_frame E is_sleep ltac:(reflexivity))
                ltac:(cbv beta; reflexivity) (O_NONBLOCK E) s1) as H2.
  set (s2 := final (clearFctlFlag E (O_NONBLOCK E) s1)) in *; clearbody s2.
  unfold same in H1, H2. cbv beta in H1, H2. rewrite <- H1, <- H2. clear H1 H2 s1.
  rewrite (bind_returned _ _ _ _ _ (gets_returned gVerbose s2)).
  assert (Hv : exists s3,
             (if gVerbose s2
              then if negb (apiResult =? 0)
                   then printf "API result is %d, errno is '%s'.\n"
                          [AInt apiResult; AStrerror (errno s)]
                   else printf "API result is zero.\n"
                          [AInt apiResult; AStrerror (errno s)]
              else retM tt) s2 = Returned tt s3
             /\ filter is_sleep (trace s3) = filter is_sleep (trace s2)).
  { destruct (gVerbose s2); [destruct (negb (apiResult =? 0))|];
      eexists; split; reflexivity. }
  destruct Hv as [s3 [Hv Hs3]].
  rewrite (bind_returned _ _ _ _ _ Hv). rewrite <- Hs3. clear Hv Hs3 s2.
  rewrite bind_tt by (destruct (negb done); rets).
  unfold retM at 2. rewrite final_returned.
  split; [reflexivity|]. split; [exact Hiff|].
  destruct done; cbn [negb].
  - unfold retM. rewrite final_returned. reflexivity.
  - rewrite (bind_returned _ _ _ _ _ (call_returned E (sys_sleep 1) s3)).
    unfold retM. rewrite final_returned.
    eexists. apply (call_filter E is_sleep (sys_sleep 1) s3). reflexivity.
Qed.

Lemma callAPILoop_S (E : env) (fuel n : nat) (c : readyCondition) (api : sockop)
    (args : list Z) :
  callAPILoop E fuel (S n) c api args
  = (preAPISetup E fuel c ;;
     i <- gets gInterrupted ;;
     if i then retM None
     else
       fd <- gets currentSocket ;;
       r <- call E (sys_op api fd args) ;;
       done <- postAPISetup E (ret r) ;;
       if done then retM (Some (ret r))
       else callAPILoop E fuel n c api args).
Proof. reflexivity. Qed.

Lemma calm_keeps {A : Type} (m : M A) :
  keeps (same (fun s => (gInterrupted s, model s, gCurrent s, gSockfd s))) m ->
  forall s, model (final (m s)) = model s
            /\ gInterrupted (final (m s)) = gInterrupted s
            /\ currentSocket (final (m s)) = currentSocket s.
Proof.
  intros H1 s. specialize (H1 s). unfold same in H1. cbv beta in H1.
  set (s' := final (m s)) in *; clearbody s'.
  injection H1 as Hi Hm Hc Hf.
  unfold currentSocket. rewrite Hm, Hi, Hc, Hf. auto.
Qed.

Lemma steady_keeps (E : env) {A : Type} (m : M A) (api : sockop) (fd : Z)
    (args : list Z) :
  keeps (same (fun s => (gInterrupted s, model s, gCurrent s, gSockfd s))) m ->
  keeps (same (fun s => filter (same_fn (sys_op api fd args)) (trace s))) m ->
  forall s, steady (sys_op api fd args) s (final (m s)).
Proof.
  intros H1 H2 s. destruct (calm_keeps m H1 s) as [Hm [Hi Hc]].
  specialize (H2 s). unfold same in H2. cbv beta in H2.
  set (s' := final (m s)) in *; clearbody s'.
  unfold steady, earlier. rewrite H2. repeat split; try assumption; reflexivity.
Qed.

(** One turn of the retry loop in the nonblocking model, when no signal
    interrupts: the operation is called once; the loop ends with its
    result unless it failed with one of the three codes, and goes round
    again otherwise. *)
Lemma nonblocking_iteration (E : env) (fuel n : nat) (cond : readyCondition)
    (api : sockop) (args : list Z) (s : state) :
  (forall c k, no_interrupt (sigs (respond E c k))) ->
  model s = NONBLOCKING_MODEL -> gInterrupted s = false ->
  let c := sys_op api (currentSocket s) args in
  let r := respond E c (earlier c (trace s)) in
  exists s',
    model s' = NONBLOCKING_MODEL /\ gInterrupted s' = false
    /\ currentSocket s' = currentSocket s
    /\ earlier c (trace s') = S (earlier c (trace s))
    /\ callAPILoop E fuel (S n) cond api args s
       = if (ret r >=? 0) || negb (transient E (err r))
         then Returned (Some (ret r)) s'
         else callAPILoop E fuel n cond api args s'.
Proof.
  intros Hcalm Hm Hi. cbn zeta.
  set (c := sys_op api (currentSocket s) args).
  assert (Hout : forall f fmt a, same_fn c (Out f fmt a) = false) by reflexivity.
  pose proof (calm_frame E Hcalm) as FC.
  pose proof (filter_frame E (same_fn c) Hout) as FE.
  rewrite callAPILoop_S.
  (* the setup before the call *)
  assert (Hpre : preAPISetup E fuel cond s
                 = Returned tt (final (nonblockingPreAPISetup E s))).
  { unfold preAPISetup.
    rewrite (bind_returned _ _ _ _ _ (gets_returned model s)), Hm. cbv beta iota.
    apply returns_tt, returns_nonblockingPreAPISetup. }
  rewrite (bind_returned _ _ _ _ _ Hpre). clear Hpre.
  pose proof (steady_keeps E (nonblockingPreAPISetup E) api (currentSocket s) args
                (keeps_nonblockingPreAPISetup E _ _ _ FC I (fun _ _ _ => I))
                (keeps_nonblockingPreAPISetup E _ _ _ FE
                   ltac:(cbv beta; reflexivity) ltac:(cbv beta; reflexivity)) s)
    as [Hm1 [Hi1 [Hc1 He1]]].
  fold c in He1.
  set (s1 := final (nonblockingPreAPISetup E s)) in *; clearbody s1.
  rewrite (bind_returned _ _ _ _ _ (gets_returned gInterrupted s1)), Hi1, Hi.
  cbv beta iota.
  rewrite (bind_returned _ _ _ _ _ (gets_returned currentSocket s1)), Hc1.
  cbv beta. fold c.
  (* the call *)
  rewrite (bind_returned _ _ _ _ _ (call_returned E c s1)).
  unfold answer. rewrite He1.
  set (r := respond E c (earlier c (trace s))).
  pose proof (calm_keeps (call E c) (keeps_call E _ _ _ FC c I) s1)
    as [Hm2 [Hi2 Hc2]].
  pose proof (call_earlier E c s1) as He2.
  destruct (call_beyond E c s1) as [_ [_ [_ [_ [Herr _]]]]].
  unfold answer in Herr. rewrite He1 in Herr. fold r in Herr.
  change (sets_errno c) with true in Herr. cbn [andb] in Herr.
  set (s2 := final (call E c s1)) in *; clearbody s2.
  (* the setup after the call *)
  assert (Hpost : postAPISetup E (ret r) s2
                  = Returned ((ret r >=? 0) || negb (transient E (errno s2)))
                      (final (nonblockingPostAPISetup E (ret r) s2))).
  { unfold postAPISetup.
    rewrite (bind_returned _ _ _ _ _ (gets_returned model s2)), Hm2, Hm1, Hm.
    cbv beta iota. apply nonblockingPostAPISetup_decides. }
  rewrite (bind_returned _ _ _ _ _ Hpost). clear Hpost.
  pose proof (steady_keeps E (nonblockingPostAPISetup E (ret r)) api
                (currentSocket s) args
                (keeps_nonblockingPostAPISetup E _ _ _ FC I (fun _ _ _ => I)
                   (fun _ => I) (ret r))
                (keeps_nonblockingPostAPISetup E _ _ _ FE
                   ltac:(cbv beta; reflexivity) ltac:(cbv beta; reflexivity)
                   ltac:(cbv beta; reflexivity) (ret r)) s2)
    as [Hm3 [Hi3 [Hc3 He3]]].
  fold c in He3.
  set (s3 := final (nonblockingPostAPISetup E (ret r) s2)) in *; clearbody s3.
  cbv beta.
  exists s3.
  split; [congruence|]. split; [congruence|]. split; [congruence|].
  split; [congruence|].
  assert (Hdone : (ret r >=? 0) || negb (transient E (errno s2))
                  = (ret r >=? 0) || negb (transient E (err r))).
  { rewrite Herr. destruct (ret r <? 0) eqn:Hneg; [reflexivity|].
    apply Z.ltb_ge in Hneg.
    assert (Hg : (ret r >=? 0) = true) by (apply Z.geb_le; lia).
    rewrite Hg. reflexivity. }
  rewrite Hdone.
  destruct ((ret r >=? 0) || negb (transient E (err r))); reflexivity.
Qed.

(** The retry loop of the nonblocking model, when no signal interrupts:
    an operation that fails with "would block" [k] times and then succeeds
    is called exactly [k + 1] times, and the loop returns its last result. *)
Lemma nonblocking_retry (E : env) (fuel n : nat) (cond : readyCondition)
    (api : sockop) (args : list Z) (k : nat) (s : state) :
  (forall c j, no_interrupt (sigs (respond E c j))) ->
  model s = NONBLOCKING_MODEL -> gInterrupted s = false ->
  let c := sys_op api (currentSocket s) args in
  let n0 := earlier c (trace s) in
  (forall j, (j < k)%nat ->
     ret (respond E c (n0 + j)) < 0 /\ err (respond E c (n0 + j)) = EWOULDBLOCK E) ->
  0 <= ret (respond E c (n0 + k)) ->
  exists s',
    callAPILoop E fuel (S k + n) cond api args s
    = Returned (Some (ret (respond E c (n0 + k)))) s'
    /\ earlier c (trace s') = (n0 + S k)%nat.
Proof.
  intros Hcalm. revert s.
  induction k as [|k IH]; intros s Hm Hi c n0 Hwb Hok.
  - destruct (nonblocking_iteration E fuel n cond api args s Hcalm Hm Hi)
      as [s1 [_ [_ [_ [He1 Heq]]]]].
    fold c in He1, Heq. fold n0 in He1, Heq.
    rewrite Nat.add_0_r in *.
    assert (Hg : (ret (respond E c n0) >=? 0) = true) by (apply Z.geb_le; lia).
    rewrite Hg in Heq. cbn [orb] in Heq.
    exists s1. split; [exact Heq|]. rewrite He1. apply eq_sym, Nat.add_1_r.
  - destruct (nonblocking_iteration E fuel (S k + n) cond api args s Hcalm Hm Hi)
      as [s1 [Hm1 [Hi1 [Hc1 [He1 Heq]]]]].
    fold c in He1, Heq. fold n0 in He1, Heq.
    destruct (Hwb 0%nat ltac:(lia)) as [Hneg Herr].
    rewrite Nat.add_0_r in Hneg, Herr.
    assert (Hg : (ret (respond E c n0) >=? 0) = false)
      by (rewrite Z.geb_leb; apply Z.leb_gt; lia).
    assert (Ht : transient E (err (respond E c n0)) = true)
      by (unfold transient; rewrite Herr, Z.eqb_refl; reflexivity).
    rewrite Hg, Ht in Heq. cbn [orb negb] in Heq.
    specialize (IH s1 Hm1 Hi1). cbn zeta in IH. rewrite Hc1 in IH. fold c in IH.
    rewrite He1 in IH.
    destruct IH as [s' [Hrun Hcount]].
    + intros j Hj. replace (S n0 + j)%nat with (n0 + S j)%nat by lia.
      apply Hwb. lia.
    + replace (S n0 + k)%nat with (n0 + S k)%nat by lia. exact Hok.
    + exists s'. replace (S n0 + k)%nat with (n0 + S k)%nat in Hrun by lia.
      replace (S n0 + S k)%nat with (n0 + S (S k))%nat in Hcount by lia.
      split; [|exact Hcount].
      change (S (S k) + n)%nat with (S (S k + n)). rewrite Heq. exact Hrun.
Qed.

(** C2: in the nonblocking model the setup after the call gives done if
    and only if the result is >= 0 or errno is none of "would block", "in
    progress", "already in progress", and otherwise sleeps (one second)
    and asks for another turn; so, with no interrupt from the user, an
    operation that answers "would block" three times and then succeeds is
    called by the retry loop exactly four times, and the loop returns the
    result of the fourth call. *)
Theorem nonblocking_retries (E : env) (n : nat) (cond : readyCondition)
    (api : sockop) (args : list Z) (s : state) :
  (forall apiResult s0,
     let done := (apiResult >=? 0) || negb (transient E (errno s0)) in
     let s' := final (nonblockingPostAPISetup E apiResult s0) in
     nonblockingPostAPISetup E apiResult s0 = Returned done s'
     /\ (done = true <->
         0 <= apiResult
         \/ (errno s0 <> EWOULDBLOCK E /\ errno s0 <> EINPROGRESS E
             /\ errno s0 <> EALREADY E))
     /\ (if done then filter is_sleep (trace s') = filter is_sleep (trace s0)
         else exists r, filter is_sleep (trace s')
                        = Sys (sys_sleep 1) r :: filter is_sleep (trace s0)))
  /\ ((forall c j, no_interrupt (sigs (respond E c j))) ->
      model s = NONBLOCKING_MODEL -> gInterrupted s = false ->
      let c := sys_op api (currentSocket s) args in
      let n0 := earlier c (trace s) in
      (forall j, (j < 3)%nat ->
         ret (respond E c (n0 + j)) < 0
         /\ err (respond E c (n0 + j)) = EWOULDBLOCK E) ->
      0 <= ret (respond E c (n0 + 3)) ->
      exists s',
        callAPI E (4 + n) cond api args s
        = Returned (Some (ret (respond E c (n0 + 3)))) s'
        /\ earlier c (trace s') = (n0 + 4)%nat).
Proof.
  split; [intros; apply nonblockingPostAPISetup_decides|].
  intros Hcalm Hm Hi c n0 Hwb Hok.
  apply (nonblocking_retry E (4 + n) n cond api args 3 s Hcalm Hm Hi Hwb Hok).
Qed.

(** The scenario of C2 on a concrete run: a receive that answers "would
    block" (errno 11) three times and then gives 7 bytes. *)
Lemma nonblocking_retries_witness :
  exists s',
    callAPI would_block_thrice 4 READ_READY RECVMSG [0]
      (with_sockets NONBLOCKING_MODEL 0 [5])
    = Returned (Some 7) s'
    /\ earlier (sys_op RECVMSG 5 [0]) (trace s') = 4%nat.
Proof.
  destruct (nonblocking_retries would_block_thrice 0 READ_READY RECVMSG [0]
              (with_sockets NONBLOCKING_MODEL 0 [5])) as [_ H].
  apply H.
  - intros c j. destruct c; try constructor.
    destruct f; try constructor.
    simpl. destruct (j <? 3)%nat; constructor.
  - reflexivity.
  - reflexivity.
  - intros j Hj. destruct j as [|[|[|j]]]; [split; reflexivity..|lia].
  - simpl. lia.
Defined.

(** ** Abandoning a command *)

Lemma returns_always {A : Type} (P : state -> Prop) (m : M A) :
  returns m -> returns_when P m.
Proof. intros H s _. apply H. Qed.

Lemma returns_when_bind {A B : Type} (P : state -> Prop) (m : M A) (k : A -> M B) :
  returns_when P m -> keeps_when P (fun _ s' => P s') m ->
  (forall a, returns_when P (k a)) -> returns_when P (bindM m k).
Proof.
  intros Hm Hp Hk s Hs. destruct (Hm s Hs) as [a Ha].
  specialize (Hp s Hs). cbv beta in Hp.
  rewrite (bind_returned _ _ _ _ _ Ha).
  set (s1 := final (m s)) in *; clearbody s1. apply Hk, Hp.
Qed.

Lemma keeps_when_bind {A B : Type} (P : state -> Prop) (R : state -> state -> Prop)
    (m : M A) (k : A -> M B) :
  (forall a b c, R a b -> R b c -> R a c) ->
  keeps R m -> keeps_when P (fun _ s' => P s') m ->
  (forall a, keeps_when P R (k a)) -> keeps_when P R (bindM m k).
Proof.
  intros Ht Hm Hp Hk s Hs. rewrite final_bind.
  specialize (Hm s). specialize (Hp s Hs). cbv beta in Hp.
  destruct (m s) as [a s1|s1]; rewrite final_returned in * || cbn [final] in *.
  - eapply Ht; [exact Hm|]. apply Hk, Hp.
  - exact Hm.
Qed.

(** A raised interrupt flag stays up through a run that keeps the frame
    of the flag. *)
Lemma stays_interrupted {A : Type} (m : M A) :
  keeps (still gInterrupted) m -> keeps_when interrupted (fun _ s' => interrupted s') m.
Proof. intros H s Hs. apply (H s), Hs. Qed.

Ltac trivial_goods :=
  try exact I; try (intros; exact I); try (intros ? H; exact H).

Lemma interrupted_call E c : keeps (still gInterrupted) (call E c).
Proof. apply (keeps_call E _ _ _ (interrupted_frame E)); trivial_goods. Qed.

Lemma interrupted_signal_SIGIO E h : keeps (still gInterrupted) (signal_SIGIO E h).
Proof. apply (keeps_signal_SIGIO E _ _ _ (interrupted_frame E)); trivial_goods. Qed.

Lemma interrupted_setFctlFlag E flag : keeps (still gInterrupted) (setFctlFlag E flag).
Proof. apply (keeps_setFctlFlag E _ _ _ (interrupted_frame E)); trivial_goods. Qed.

Lemma interrupted_selectOnce E c : keeps (still gInterrupted) (selectOnce E c).
Proof. apply (keeps_selectOnce E _ _ _ (interrupted_frame E)); trivial_goods. Qed.

Lemma interrupted_selectLoop E c n : keeps (still gInterrupted) (selectLoop E n c).
Proof. apply (keeps_selectLoop E _ _ _ (interrupted_frame E)); trivial_goods. Qed.

Lemma interrupted_sigioLoop E n : keeps (still gInterrupted) (sigioLoop E n).
Proof. apply (keeps_sigioLoop E _ _ _ (interrupted_frame E)); trivial_goods. Qed.

Lemma interrupted_preAPISetup E fuel c : keeps (still gInterrupted) (preAPISetup E fuel c).
Proof. apply (keeps_preAPISetup E fuel _ _ _ (interrupted_frame E)); trivial_goods. Qed.

Lemma returns_checkSelect c r : returns (checkSelect c r).
Proof. unfold checkSelect. rets. Qed.

Lemma returns_selectOnce E c : returns (selectOnce E c).
Proof. unfold selectOnce. pose proof returns_checkSelect. rets; auto. Qed.

(** With the interrupt flag up, the loop doing the select goes round
    once. *)
Lemma selectLoop_interrupted E c n : returns_when interrupted (selectLoop E (S n) c).
Proof.
  cbn [selectLoop].
  apply returns_when_bind.
  - apply returns_always, returns_selectOnce.
  - apply stays_interrupted, interrupted_selectOnce.
  - intros done s Hs.
    rewrite (bind_returned _ _ _ _ _ (gets_returned gInterrupted s)).
    rewrite Hs, andb_false_r. unfold retM. rewrite final_returned. eauto.
Qed.

(** With the interrupt flag up, the loop waiting for SIGIO does not wait. *)
Lemma sigioLoop_interrupted E n : returns_when interrupted (sigioLoop E (S n)).
Proof.
  intros s Hs. cbn [sigioLoop].
  rewrite (bind_returned _ _ _ _ _ (gets_returned sigioReceived s)).
  rewrite (bind_returned _ _ _ _ _ (gets_returned gInterrupted s)).
  rewrite Hs, andb_false_r. unfold retM. rewrite final_returned. eauto.
Qed.

Lemma selectPreAPISetup_interrupted E fuel c :
  returns_when interrupted (selectPreAPISetup E (S fuel) c).
Proof.
  unfold selectPreAPISetup. apply returns_when_bind.
  - apply selectLoop_interrupted.
  - apply stays_interrupted, interrupted_selectLoop.
  - intros _. apply returns_always, returns_doBlockingSetup.
Qed.

Lemma signalPreAPISetup_interrupted E fuel c :
  returns_when interrupted (signalPreAPISetup E (S fuel) c).
Proof.
  unfold signalPreAPISetup.
  destruct (is_WRITE_READY c); [apply returns_always, returns_doBlockingSetup|].
  apply returns_when_bind;
    [apply returns_always, returns_signal_SIGIO
    |apply stays_interrupted, interrupted_signal_SIGIO|].
  intros sigResult. destruct (sigResult <? 0); [apply returns_always; rets|].
  apply returns_when_bind;
    [apply returns_always, returns_call|apply stays_interrupted, interrupted_call|].
  intros pid.
  apply returns_when_bind;
    [apply returns_always, returns_gets|intros s Hs; exact Hs|].
  intros fd.
  apply returns_when_bind;
    [apply returns_always, returns_call|apply stays_interrupted, interrupted_call|].
  intros r. destruct (ret r <? 0); [apply returns_always; rets|].
  apply returns_when_bind;
    [apply returns_always, returns_modify|intros s Hs; exact Hs|].
  intros _.
  apply returns_when_bind;
    [apply returns_always, returns_setFctlFlag
    |apply stays_interrupted, interrupted_setFctlFlag|].
  intros _.
  apply returns_when_bind;
    [apply sigioLoop_interrupted|apply stays_interrupted, interrupted_sigioLoop|].
  intros _. apply returns_always, returns_doBlockingSetup.
Qed.

Lemma preAPISetup_interrupted E fuel c :
  returns_when interrupted (preAPISetup E (S fuel) c).
Proof.
  intros s Hs. unfold preAPISetup.
  rewrite (bind_returned _ _ _ _ _ (gets_returned model s)). cbv beta.
  destruct (model s).
  - apply returns_blockingPreAPISetup.
  - apply returns_nonblockingPreAPISetup.
  - apply selectPreAPISetup_interrupted, Hs.
  - apply signalPreAPISetup_interrupted, Hs.
Qed.

(** The setup before the call calls no socket operation. *)
Lemma preAPISetup_ops E fuel c s :
  ops (trace (final (preAPISetup E fuel c s))) = ops (trace s).
Proof.
  apply (keeps_preAPISetup E fuel _ _ _ (ops_frame E)); cbv beta; reflexivity.
Qed.

(** With the interrupt flag up when the retry loop is entered, the loop
    returns after the setup, and the operation is not called. *)
Lemma callAPILoop_interrupted E fuel n cond api args s :
  gInterrupted s = true ->
  exists s', callAPILoop E (S fuel) (S n) cond api args s = Returned None s'
             /\ gInterrupted s' = true
             /\ ops (trace s') = ops (trace s).
Proof.
  intros Hs. rewrite callAPILoop_S.
  destruct (preAPISetup_interrupted E fuel cond s Hs) as [[] Hpre].
  pose proof (interrupted_preAPISetup E (S fuel) cond s Hs) as Hi.
  pose proof (preAPISetup_ops E (S fuel) cond s) as Ho.
  rewrite (bind_returned _ _ _ _ _ Hpre).
  set (s1 := final (preAPISetup E (S fuel) cond s)) in *; clearbody s1.
  rewrite (bind_returned _ _ _ _ _ (gets_returned gInterrupted s1)), Hi.
  exists s1. auto.
Qed.

Lemma unattempted_always {A : Type} (m : M A) :
  keeps (same (fun s => ops (trace s))) m -> unattempted m.
Proof. intros H s _. apply H. Qed.

Lemma unattempted_bind {A B : Type} (m : M A) (k : A -> M B) :
  quiet_step m -> (forall a, unattempted (k a)) -> unattempted (bindM m k).
Proof.
  intros [Ho Hi] Hk. apply keeps_when_bind.
  - unfold same. intros a b c Hab Hbc. congruence.
  - exact Ho.
  - apply stays_interrupted, Hi.
  - exact Hk.
Qed.

Ltac quiet_with L :=
  split;
  [ apply (L _ _ _ (ops_frame _)); cbv beta; reflexivity
  | apply (L _ _ _ (interrupted_frame _)); trivial_goods ].

Lemma quiet_findFreeSocketSlot : quiet_step findFreeSocketSlot.
Proof.
  split;
    [apply (keeps_findFreeSocketSlot all_succeed _ _ _ (ops_frame _))
    |apply (keeps_findFreeSocketSlot all_succeed _ _ _ (interrupted_frame _))].
Qed.

Lemma quiet_setIntegerArgument E param : quiet_step (setIntegerArgument E param).
Proof. quiet_with (keeps_setIntegerArgument E). Qed.

Lemma quiet_lookupAddress E node : quiet_step (lookupAddress E node).
Proof. quiet_with (keeps_lookupAddress E). Qed.

Lemma quiet_recvmsgOptions E n gTokens optind flags :
  quiet_step (recvmsgOptions E n gTokens optind flags).
Proof.
  split;
    [apply (keeps_recvmsgOptions E _ _ _ (ops_frame _))
    |apply (keeps_recvmsgOptions E _ _ _ (interrupted_frame _))].
Qed.

Lemma quiet_sendmsgOptions E n gTokens optind flags faddr :
  quiet_step (sendmsgOptions E n gTokens optind flags faddr).
Proof. quiet_with (keeps_sendmsgOptions E). Qed.

Lemma unattempted_fprintf f fmt a : unattempted (fprintf f fmt a).
Proof.
  apply unattempted_always, (keeps_fprintf all_succeed _ _ _ (ops_frame _)).
Qed.

Lemma unattempted_ret {A : Type} (a : A) : unattempted (retM a).
Proof. intros s _. reflexivity. Qed.

Lemma unattempted_showUsage cmd : unattempted (showUsage cmd).
Proof. apply unattempted_fprintf. Qed.

(** Entered with the interrupt flag up, the retry loop hands None to what
    follows it, and every handler then returns. *)
Lemma unattempted_callAPI E fuel cond api args (k : option Z -> M unit) :
  k None = retM tt ->
  unattempted (bindM (callAPI E (S fuel) cond api args) k).
Proof.
  intros Hk s Hs.
  destruct (callAPILoop_interrupted E fuel fuel cond api args s Hs)
    as [s' [Hrun [_ Ho]]].
  unfold callAPI. rewrite (bind_returned _ _ _ _ _ Hrun), Hk.
  unfold retM. rewrite final_returned. exact Ho.
Qed.

Lemma doRead_unattempted E fuel : unattempted (doRead E (S fuel)).
Proof. apply unattempted_callAPI. reflexivity. Qed.

Lemma doWrite_unattempted E fuel : unattempted (doWrite E (S fuel)).
Proof. apply unattempted_callAPI. reflexivity. Qed.

Lemma doAccept_unattempted E fuel : unattempted (doAccept E (S fuel)).
Proof.
  unfold doAccept. apply unattempted_bind; [apply quiet_findFreeSocketSlot|].
  intros i. destruct (i <? 0); [apply unattempted_ret|].
  apply unattempted_callAPI. reflexivity.
Qed.

Lemma doConnect_unattempted E fuel gTokens : unattempted (doConnect E (S fuel) gTokens).
Proof.
  unfold doConnect. destruct (_ || _); [apply unattempted_showUsage|].
  apply unattempted_bind; [apply quiet_setIntegerArgument|].
  intros [port|]; [|apply unattempted_fprintf].
  apply unattempted_bind; [apply quiet_lookupAddress|].
  intros result. destruct (negb (result =? 0)); [apply unattempted_ret|].
  apply unattempted_callAPI. reflexivity.
Qed.

Lemma doRecvmsg_unattempted E fuel gTokens : unattempted (doRecvmsg E (S fuel) gTokens).
Proof.
  unfold doRecvmsg. apply unattempted_bind; [apply quiet_recvmsgOptions|].
  intros [[[retval optind] flags]|]; [|apply unattempted_ret].
  destruct (optind <? gTokenCount gTokens).
  { apply unattempted_always.
    apply (keeps_bind all_succeed _ _ _ (ops_frame _));
      [|intros _]; apply (keeps_fprintf all_succeed _ _ _ (ops_frame _)). }
  destruct (negb (retval =? 0)); [apply unattempted_showUsage|].
  apply unattempted_callAPI. reflexivity.
Qed.

Lemma doSendmsg_unattempted E fuel gTokens : unattempted (doSendmsg E (S fuel) gTokens).
Proof.
  unfold doSendmsg. apply unattempted_bind; [apply quiet_sendmsgOptions|].
  intros [[[[retval optind] flags] faddr]|]; [|apply unattempted_ret].
  destruct (optind <? gTokenCount gTokens).
  { apply unattempted_always.
    apply (keeps_bind all_succeed _ _ _ (ops_frame _));
      [|intros _]; apply (keeps_fprintf all_succeed _ _ _ (ops_frame _)). }
  destruct (negb (retval =? 0)); [apply unattempted_showUsage|].
  apply unattempted_callAPI. reflexivity.
Qed.

(** ** The select model *)

Lemma grows_frame (E : env) (P : event -> Prop) :
  (forall f fmt a, P (Out f fmt a)) ->
  frame E (grows P) (fun c => forall r, P (Sys c r)) (fun _ => True).
Proof.
  intros HP.
  assert (Hnil : forall s s', trace s' = trace s -> grows P s s').
  { intros s s' H. exists []. split; [exact H|constructor]. }
  assert (Hone : forall s s' e, P e -> trace s' = e :: trace s -> grows P s s').
  { intros s s' e He H. exists [e]. split; [exact H|repeat constructor; exact He]. }
  constructor; try (intros; apply Hnil; reflexivity).
  - intros a b c [n1 [H1 F1]] [n2 [H2 F2]]. exists (n2 ++ n1)%list.
    rewrite H2, H1, app_assoc. split; [reflexivity|].
    apply Forall_app. split; assumption.
  - intros s f fmt a. eapply Hone; [apply HP|reflexivity].
  - intros s c r Hc. eapply Hone; [apply Hc|reflexivity].
  - intros s sg _. destruct sg; cbn;
      try (eapply Hone; [apply HP|reflexivity]);
      destruct (sigioDisposition s); cbn;
      try (apply Hnil; reflexivity);
      try (eapply Hone; [apply HP|reflexivity]);
      destruct (gVerbose s); cbn;
      try (apply Hnil; reflexivity);
      eapply Hone; [apply HP|reflexivity].
  - intros; apply Forall_any.
Qed.

Lemma scan_app ok st (l1 l2 : list event) :
  scan ok st (l1 ++ l2) = scan ok (scan ok st l2) l1.
Proof.
  induction l1 as [|e l1 IH]; [reflexivity|].
  cbn [app scan]. rewrite IH. reflexivity.
Qed.

Lemma scan_idle ok st (new : list event) : Forall idle new -> scan ok st new = st.
Proof.
  induction 1 as [|e new [Hs Ho] _ IH]; [reflexivity|].
  cbn [scan]. rewrite IH. destruct st as [ready fine].
  destruct e as [c r|]; [|reflexivity].
  destruct c; try reflexivity; discriminate.
Qed.

Lemma scan_no_ops ok st (new : list event) :
  Forall (fun e => is_op e = false) new -> snd (scan ok st new) = snd st.
Proof.
  induction 1 as [|e new Ho _ IH]; [reflexivity|].
  cbn [scan]. destruct (scan ok st new) as [ready fine]. cbn [snd] in IH.
  destruct e as [c r|]; [|exact IH].
  destruct c; try exact IH. discriminate.
Qed.

Lemma idle_no_op e : idle e -> is_op e = false.
Proof. intros [_ H]. exact H. Qed.

Lemma idle_watches c fd e : idle e -> watches_one c fd e.
Proof.
  intros [Hs _]. destruct e as [call r|]; [|exact I].
  destruct call; try exact I. discriminate.
Qed.

(** What a call adds to the log: itself, then what the handlers of the
    signals it let in printed. *)
Lemma call_grows (E : env) (c : syscall) (s : state) :
  exists outs,
    trace (final (call E c s)) = (outs ++ Sys c (answer E c s) :: trace s)%list
    /\ Forall idle outs.
Proof.
  unfold call, answer. rewrite final_returned.
  set (r := respond E c (earlier c (trace s))).
  assert (Hout : forall f fmt a, idle (Out f fmt a)) by (split; reflexivity).
  destruct (keeps_deliver E _ _ _ (grows_frame E idle Hout) (sigs r) (Forall_any _)
              (if sets_errno c && (ret r <? 0)
               then set_errno (err r) (set_trace (Sys c r :: trace s) s)
               else set_trace (Sys c r :: trace s) s)) as [outs [Ht Hf]].
  exists outs. split; [|exact Hf]. rewrite Ht.
  destruct (sets_errno c && (ret r <? 0)); reflexivity.
Qed.

(** The value of a run that returns. *)
Lemma returned_value {A : Type} (m : M A) (s : state) (b : A) :
  returns m -> value (m s) = Some b -> m s = Returned b (final (m s)).
Proof.
  intros H Hv. destruct (H s) as [a Ha]. rewrite Ha in Hv. cbn in Hv.
  injection Hv as ->. exact Ha.
Qed.

Lemma value_bind {A B : Type} (m : M A) (k : A -> M B) (s : state) :
  returns m -> exists a, value (bindM m k s) = value (k a (final (m s))).
Proof.
  intros H. destruct (H s) as [a Ha]. exists a.
  rewrite (bind_returned _ _ _ _ _ Ha). reflexivity.
Qed.

(** The check after select gives done exactly when select returned 1. *)
Lemma checkSelect_value c r s :
  checkSelect c r s = Returned (ret r =? 1) (final (checkSelect c r s)).
Proof.
  apply returned_value; [apply returns_checkSelect|].
  unfold checkSelect.
  rewrite (bind_returned _ _ _ _ _ (gets_returned gVerbose s)).
  destruct (ret r =? 0) eqn:H0.
  - apply Z.eqb_eq in H0. rewrite H0.
    rewrite bind_tt by (destruct (gVerbose s); rets). reflexivity.
  - destruct (ret r =? 1) eqn:H1.
    + rewrite (bind_returned _ _ _ _ _ (gets_returned currentSocket s)).
      rewrite bind_tt by (destruct (negb _); [|destruct (gVerbose s)]; rets).
      reflexivity.
    + rewrite bind_tt by rets. reflexivity.
Qed.

(** One turn of the loop doing the select: it calls select once, on the
    one descriptor of the current socket, for the condition asked, with a
    timeout of one second, and gives done exactly when select returned 1. *)
Lemma selectOnce_spec (E : env) (c : readyCondition) (s : state) :
  exists nfds rb wb xb t r outs,
    selectOnce E c s = Returned (ret r =? 1) (final (selectOnce E c s))
    /\ trace (final (selectOnce E c s))
       = (outs ++ Sys (sys_select nfds rb wb xb t) r :: trace s)%list
    /\ Forall idle outs
    /\ watches_one c (currentSocket s) (Sys (sys_select nfds rb wb xb t) r)
    /\ answered E (Sys (sys_select nfds rb wb xb t) r).
Proof.
  destruct (watching c (currentSocket s)) as [[rb wb] xb] eqn:W.
  set (sel := sys_select (currentSocket s + 1) rb wb xb (mkTimeval 1 0)).
  assert (Heq : selectOnce E c s
                = checkSelect c (answer E sel s) (final (call E sel s))).
  { unfold selectOnce.
    rewrite (bind_returned _ _ _ _ _ (gets_returned currentSocket s)).
    cbv beta. rewrite W. cbv beta iota zeta.
    rewrite (bind_returned _ _ _ _ _
               (gets_returned (fun s => currentSocket s + 1) s)).
    cbv beta. fold sel.
    rewrite (bind_returned _ _ _ _ _ (call_returned E sel s)). reflexivity. }
  rewrite Heq.
  destruct (call_grows E sel s) as [outs1 [Ht1 Hf1]].
  assert (Hout : forall f fmt a, idle (Out f fmt a)) by (split; reflexivity).
  pose proof (eq_refl : answer E sel s = respond E sel (earlier sel (trace s))) as Hr.
  set (r := answer E sel s) in *. clearbody r.
  set (s1 := final (call E sel s)) in *. clearbody s1.
  destruct (keeps_checkSelect E _ _ _ (grows_frame E idle Hout) c r s1)
    as [outs2 [Ht2 Hf2]].
  exists (currentSocket s + 1), rb, wb, xb, (mkTimeval 1 0), r, (outs2 ++ outs1)%list.
  fold sel.
  split; [apply checkSelect_value|].
  split; [rewrite Ht2, Ht1, app_assoc; reflexivity|].
  split; [apply Forall_app; split; assumption|].
  split; [|exists (earlier sel (trace s)); exact Hr].
  unfold sel. cbn [watches_one].
  split; [reflexivity|]. split; [symmetry; exact W|].
  split; [|reflexivity].
  destruct c; cbn in W; injection W as <- <- <-; reflexivity.
Qed.

Lemma currentSocket_kept (E : env) {A : Type} (m : M A) (s : state) :
  keeps (same (fun s => (gCurrent s, gSockfd s, model s))) m ->
  currentSocket (final (m s)) = currentSocket s /\ model (final (m s)) = model s.
Proof.
  intros H. specialize (H s). unfold same in H. cbv beta in H.
  set (s' := final (m s)) in *; clearbody s'.
  injection H as Hc Hf Hm. unfold currentSocket. rewrite Hc, Hf. auto.
Qed.

Lemma idle_answered (E : env) (e : event) : idle e -> answered E e.
Proof.
  intros [Hs _]. destruct e as [call r|]; [|exact I].
  destruct call; try exact I. discriminate.
Qed.

Lemma idle_all_answered (E : env) (l : list event) :
  Forall idle l -> Forall (answered E) l.
Proof. apply Forall_impl. intros e. apply idle_answered. Qed.

(** The loop doing the select calls nothing but select, each time on the
    one descriptor of the current socket, and logs what the environment
    answered; when it ends, either the interrupt flag is up or the last
    select returned 1. *)
Lemma selectLoop_spec (E : env) (c : readyCondition) (n : nat) (s : state)
    (st : bool * bool) :
  exists new,
    trace (final (selectLoop E n c s)) = (new ++ trace s)%list
    /\ Forall (fun e => is_op e = false) new
    /\ Forall (watches_one c (currentSocket s)) new
    /\ Forall (answered E) new
    /\ (forall a, selectLoop E n c s = Returned a (final (selectLoop E n c s)) ->
        gInterrupted (final (selectLoop E n c s)) = true
        \/ fst (scan one_ready st new) = true).
Proof.
  revert s st. induction n as [|n IH]; intros s st.
  - exists []. cbn [selectLoop]. unfold spin. cbn [final].
    split; [reflexivity|]. split; [constructor|]. split; [constructor|].
    split; [constructor|].
    intros a H. discriminate.
  - destruct (selectOnce_spec E c s)
      as [nfds [rb [wb [xb [t [r [outs [Hrun [Ht [Hf [Hw Ha]]]]]]]]]]].
    destruct (currentSocket_kept E (selectOnce E c) s
                (keeps_selectOnce E _ _ _ (registry_frame E) (fun _ _ _ _ _ => I) c))
      as [Hc _].
    set (e := Sys (sys_select nfds rb wb xb t) r) in *.
    set (s1 := final (selectOnce E c s)) in *. clearbody s1.
    assert (Ht' : trace s1 = ((outs ++ [e]) ++ trace s)%list)
      by (rewrite Ht, <- app_assoc; reflexivity).
    assert (Hno : Forall (fun e => is_op e = false) (outs ++ [e])).
    { apply Forall_app. split.
      - eapply Forall_impl; [|exact Hf]. intros x. apply idle_no_op.
      - repeat constructor. }
    assert (Hwa : Forall (watches_one c (currentSocket s)) (outs ++ [e])).
    { apply Forall_app. split.
      - eapply Forall_impl; [|exact Hf]. intros x. apply idle_watches.
      - constructor; [exact Hw|constructor]. }
    assert (Han : Forall (answered E) (outs ++ [e])).
    { apply Forall_app. split.
      - apply idle_all_answered, Hf.
      - constructor; [exact Ha|constructor]. }
    assert (Hsc : scan one_ready st (outs ++ [e]) = (ret r =? 1, snd st)).
    { rewrite scan_app, (scan_idle _ _ outs Hf). destruct st. reflexivity. }
    assert (Heq : selectLoop E (S n) c s
                  = if negb (ret r =? 1) && negb (gInterrupted s1)
                    then selectLoop E n c s1 else Returned tt s1).
    { cbn [selectLoop]. rewrite (bind_returned _ _ _ _ _ Hrun).
      rewrite (bind_returned _ _ _ _ _ (gets_returned gInterrupted s1)).
      destruct (negb (ret r =? 1) && negb (gInterrupted s1)); reflexivity. }
    rewrite Heq. clear Heq.
    destruct (negb (ret r =? 1) && negb (gInterrupted s1)) eqn:Hgo.
    + destruct (IH s1 (scan one_ready st (outs ++ [e])))
        as [new [Htn [Hnn [Hwn [Hen Hrn]]]]].
      exists (new ++ (outs ++ [e]))%list.
      split; [rewrite Htn, Ht', app_assoc; reflexivity|].
      split; [apply Forall_app; split; assumption|].
      split; [apply Forall_app; split; [rewrite <- Hc|]; assumption|].
      split; [apply Forall_app; split; assumption|].
      intros a Hret. rewrite scan_app. apply (Hrn a Hret).
    + exists (outs ++ [e])%list. rewrite final_returned.
      split; [exact Ht'|]. split; [exact Hno|]. split; [exact Hwa|].
      split; [exact Han|].
      intros _ _. rewrite Hsc. cbn [fst].
      apply andb_false_iff in Hgo. destruct Hgo as [Hd|Hi].
      * right. apply negb_false_iff, Hd.
      * left. apply negb_false_iff, Hi.
Qed.

Lemma bind_spinning {A B : Type} (m : M A) (k : A -> M B) (s s1 : state) :
  m s = Spinning s1 -> bindM m k s = Spinning s1.
Proof. intros H. unfold bindM. rewrite H. reflexivity. Qed.

Lemma ops_none (l : list event) : Forall (fun e => is_op e = false) l -> ops l = [].
Proof.
  induction 1 as [|e l He _ IH]; [reflexivity|].
  unfold ops in *. cbn [filter]. rewrite He. exact IH.
Qed.

Lemma idle_no_ops (l : list event) : Forall idle l -> Forall (fun e => is_op e = false) l.
Proof. apply Forall_impl. intros e. apply idle_no_op. Qed.

Lemma idle_all_watch c fd (l : list event) : Forall idle l -> Forall (watches_one c fd) l.
Proof. apply Forall_impl. intros e. apply idle_watches. Qed.

Lemma idle_Out f fmt a : idle (Out f fmt a).
Proof. split; reflexivity. Qed.

(** In the select model, the setup before the call is the loop doing the
    select followed by the start of timing, and the setup after the call
    always gives done. *)
Lemma select_model_setup (E : env) (fuel : nat) (cond : readyCondition) (s : state) :
  model s = SELECT_MODEL ->
  preAPISetup E fuel cond s = (selectLoop E fuel cond ;; doBlockingSetup E) s
  /\ forall r, postAPISetup E r s = Returned true (final (verifyBlocking E false s)).
Proof.
  intros Hm. split.
  - unfold preAPISetup.
    rewrite (bind_returned _ _ _ _ _ (gets_returned model s)), Hm. reflexivity.
  - intros r. unfold postAPISetup.
    rewrite (bind_returned _ _ _ _ _ (gets_returned model s)), Hm.
    cbv beta iota. unfold selectPostAPISetup.
    rewrite bind_tt by apply returns_verifyBlocking. reflexivity.
Qed.

(** The run of the retry loop in the select model, whatever select
    answers: the socket operation is called only after a select that
    returned 1, with no other select in between, and only with the
    interrupt flag down when the setup ends; when the flag is up the loop
    gives up and the operation is not called at all.  Every select of the
    run watches exactly one descriptor, the current socket, in the set of
    the condition asked, with a timeout of one second, and the log holds
    what the environment answered to it. *)
Lemma select_run (E : env) (fuel n : nat) (cond : readyCondition)
    (api : sockop) (args : list Z) (s : state) :
  model s = SELECT_MODEL ->
  let run := callAPILoop E fuel n cond api args s in
  exists new,
    trace (final run) = (new ++ trace s)%list
    /\ guarded one_ready new = true
    /\ Forall (watches_one cond (currentSocket s)) new
    /\ Forall (answered E) new
    /\ (run = Returned None (final run) ->
        gInterrupted (final run) = true /\ ops new = [])
    /\ (forall result, run = Returned (Some result) (final run) ->
        exists r, ops new = [Sys (sys_op api (currentSocket s) args) r]
                  /\ result = ret r).
Proof.
  intros Hm. cbv zeta. unfold guarded.
  destruct n as [|n].
  { exists []. cbn [callAPILoop]. unfold spin. cbn [final].
    split; [reflexivity|]. split; [reflexivity|]. split; [constructor|].
    split; [constructor|].
    split; [intros H|intros result H]; discriminate. }
  destruct (select_model_setup E fuel cond s Hm) as [Hpre _].
  destruct (selectLoop_spec E cond fuel s (false, true))
    as [new1 [Ht1 [Hn1 [Hw1 [He1 Hr1]]]]].
  destruct (currentSocket_kept E (selectLoop E fuel cond) s
              (keeps_selectLoop E _ _ _ (registry_frame E) (fun _ _ _ _ _ => I) cond fuel))
    as [Hc1 Hm1].
  pose proof (scan_no_ops one_ready (false, true) new1 Hn1) as Hfine1.
  cbn [snd] in Hfine1.
  destruct (selectLoop E fuel cond s) as [[] s1|s1] eqn:Hsl; cbn [final] in *.
  2:{ (* the loop doing the select is still going round *)
    assert (Hrun : callAPILoop E fuel (S n) cond api args s = Spinning s1).
    { rewrite callAPILoop_S. apply bind_spinning. rewrite Hpre.
      apply bind_spinning. exact Hsl. }
    rewrite Hrun, ?final_returned, ?final_spinning. exists new1.
    split; [exact Ht1|]. split; [exact Hfine1|]. split; [exact Hw1|].
    split; [exact He1|].
    split; [intros H|intros result H]; discriminate. }
  specialize (Hr1 tt eq_refl).
  (* the start of timing *)
  destruct (keeps_doBlockingSetup E _ _ _ (grows_frame E idle idle_Out)
              ltac:(intros r; split; reflexivity) s1) as [new2 [Ht2 Hf2]].
  destruct (currentSocket_kept E (doBlockingSetup E) s1
              (keeps_doBlockingSetup E _ _ _ (registry_frame E) I)) as [Hc2 Hm2].
  pose proof (keeps_doBlockingSetup E _ _ _ (interrupted_frame E) I s1) as Hi12.
  unfold still in Hi12.
  assert (Hpre2 : preAPISetup E fuel cond s
                  = Returned tt (final (doBlockingSetup E s1))).
  { rewrite Hpre, (bind_returned _ _ _ _ _ Hsl).
    apply returns_tt, returns_doBlockingSetup. }
  set (s2 := final (doBlockingSetup E s1)) in *. clearbody s2.
  destruct (gInterrupted s2) eqn:Hi2.
  { (* interrupted: the handler returns *)
    assert (Hrun : callAPILoop E fuel (S n) cond api args s = Returned None s2).
    { rewrite callAPILoop_S, (bind_returned _ _ _ _ _ Hpre2).
      rewrite (bind_returned _ _ _ _ _ (gets_returned gInterrupted s2)), Hi2.
      reflexivity. }
    rewrite Hrun, ?final_returned, ?final_spinning. exists (new2 ++ new1)%list.
    split; [rewrite Ht2, Ht1, app_assoc; reflexivity|].
    split; [rewrite scan_app, (scan_idle _ _ new2 Hf2); exact Hfine1|].
    split; [apply Forall_app; split; [apply idle_all_watch|]; assumption|].
    split; [apply Forall_app; split; [apply idle_all_answered|]; assumption|].
    split; [|intros result H; discriminate].
    intros _. split; [exact Hi2|].
    apply ops_none, Forall_app. split; [apply idle_no_ops|]; assumption. }
  (* not interrupted: the last select returned 1 *)
  assert (Hready : fst (scan one_ready (false, true) new1) = true).
  { destruct Hr1 as [Hi1|Hr]; [|exact Hr]. specialize (Hi12 Hi1). discriminate. }
  set (op := sys_op api (currentSocket s) args) in *.
  destruct (call_grows E op s2) as [outs3 [Ht3 Hf3]].
  destruct (currentSocket_kept E (call E op) s2
              (keeps_call E _ _ _ (registry_frame E) op I)) as [_ Hm3].
  pose proof (call_returned E op s2) as Hcall.
  set (r3 := answer E op s2) in *. clearbody r3.
  set (s3 := final (call E op s2)) in *. clearbody s3.
  assert (Hm3' : model s3 = SELECT_MODEL) by congruence.
  destruct (select_model_setup E fuel cond s3 Hm3') as [_ Hpost].
  specialize (Hpost (ret r3)).
  destruct (keeps_verifyBlocking E _ _ _ (grows_frame E idle idle_Out)
              ltac:(intros r; split; reflexivity) false s3) as [new4 [Ht4 Hf4]].
  set (s4 := final (verifyBlocking E false s3)) in *. clearbody s4.
  assert (Hrun : callAPILoop E fuel (S n) cond api args s
                 = Returned (Some (ret r3)) s4).
  { rewrite callAPILoop_S, (bind_returned _ _ _ _ _ Hpre2).
    rewrite (bind_returned _ _ _ _ _ (gets_returned gInterrupted s2)), Hi2.
    cbv beta iota.
    rewrite (bind_returned _ _ _ _ _ (gets_returned currentSocket s2)).
    cbv beta. rewrite Hc2, Hc1. fold op.
    rewrite (bind_returned _ _ _ _ _ Hcall). cbv beta.
    rewrite (bind_returned _ _ _ _ _ Hpost). reflexivity. }
  rewrite Hrun, ?final_returned, ?final_spinning.
  exists (new4 ++ (outs3 ++ (Sys op r3 :: (new2 ++ new1))))%list.
  split.
  { rewrite Ht4, Ht3, Ht2, Ht1.
    repeat (rewrite <- app_assoc || rewrite <- app_comm_cons). reflexivity. }
  split.
  { rewrite !scan_app, (scan_idle _ _ new4 Hf4), (scan_idle _ _ outs3 Hf3).
    unfold op. cbn [scan]. rewrite scan_app, (scan_idle _ _ new2 Hf2).
    destruct (scan one_ready (false, true) new1) as [ready fine].
    cbn [fst snd] in *. subst. reflexivity. }
  split.
  { apply Forall_app. split; [apply idle_all_watch, Hf4|].
    apply Forall_app. split; [apply idle_all_watch, Hf3|].
    constructor; [exact I|].
    apply Forall_app. split; [apply idle_all_watch, Hf2|exact Hw1]. }
  split.
  { apply Forall_app. split; [apply idle_all_answered, Hf4|].
    apply Forall_app. split; [apply idle_all_answered, Hf3|].
    constructor; [exact I|].
    apply Forall_app. split; [apply idle_all_answered, Hf2|exact He1]. }
  split; [intros H; discriminate|].
  intros result H. injection H as <-. exists r3. split; [|reflexivity].
  unfold ops. rewrite !filter_app. cbn [filter].
  change (is_op (Sys op r3)) with true. cbv iota. rewrite filter_app.
  fold (ops new4) (ops outs3) (ops new2) (ops new1).
  rewrite (ops_none new4 (idle_no_ops _ Hf4)), (ops_none outs3 (idle_no_ops _ Hf3)),
    (ops_none new2 (idle_no_ops _ Hf2)), (ops_none new1 Hn1).
  reflexivity.
Qed.

(** Reading a log with a weaker test on the selects it holds. *)
Lemma scan_weaken (ok1 ok2 : response -> bool) (st : bool * bool) (l : list event) :
  Forall (fun e => match e with
                   | Sys (sys_select _ _ _ _ _) r => ok1 r = true -> ok2 r = true
                   | _ => True
                   end) l ->
  (fst (scan ok1 st l) = true -> fst (scan ok2 st l) = true)
  /\ (snd (scan ok1 st l) = true -> snd (scan ok2 st l) = true).
Proof.
  induction 1 as [|e l He _ IH]; [split; auto|].
  cbn [scan].
  destruct (scan ok1 st l) as [r1 f1], (scan ok2 st l) as [r2 f2].
  cbn [fst snd] in IH. destruct IH as [IHr IHf].
  destruct e as [c r|]; [|split; assumption].
  destruct c; cbn [fst snd]; try (split; assumption);
    try (split; [exact He|exact IHf]).
  split; [discriminate|]. intros H. apply andb_true_iff in H. destruct H.
  apply andb_true_iff. auto.
Qed.

(** C3: in the select model, with a select that keeps its contract, the
    socket operation is called only after a select that returned 1 and
    reported the bit of the current socket set in the set of the condition
    asked, with no other select in between.  When the loop gives up, the
    interrupt flag is up and the operation was not called at all; when it
    gives a result, the operation was called once, on the current socket.
    Every select of the run watches exactly one descriptor, the current
    socket, in the set of the condition asked, with a timeout of one
    second. *)
Theorem select_before_operation (E : env) (fuel n : nat) (cond : readyCondition)
    (api : sockop) (args : list Z) (s : state) :
  select_contract E ->
  model s = SELECT_MODEL ->
  let run := callAPILoop E fuel n cond api args s in
  exists new,
    trace (final run) = (new ++ trace s)%list
    /\ guarded (bit_reported cond (currentSocket s)) new = true
    /\ guarded (fun r => one_ready r && bit_reported cond (currentSocket s) r) new
       = true
    /\ Forall (watches_one cond (currentSocket s)) new
    /\ (run = Returned None (final run) ->
        gInterrupted (final run) = true /\ ops new = [])
    /\ (forall result, run = Returned (Some result) (final run) ->
        exists r, ops new = [Sys (sys_op api (currentSocket s) args) r]
                  /\ result = ret r).
Proof.
  intros HE Hm. cbv zeta.
  pose proof (select_run E fuel n cond api args s Hm) as H. cbv zeta in H.
  destruct H as [new [Ht [Hg [Hw [Ha [Hn Hs]]]]]].
  exists new. split; [exact Ht|].
  assert (Hev : Forall (fun e => match e with
                   | Sys (sys_select _ _ _ _ _) r =>
                       one_ready r = true ->
                       one_ready r && bit_reported cond (currentSocket s) r = true
                   | _ => True
                   end) new).
  { rewrite Forall_forall in *. intros e Hin.
    specialize (Hw e Hin). specialize (Ha e Hin).
    destruct e as [c r|]; [|exact I]. destruct c; try exact I.
    cbn [watches_one answered] in Hw, Ha.
    destruct Hw as [_ [HW _]]. destruct Ha as [k Hk].
    intros H1. rewrite H1. cbn [andb]. unfold bit_reported. rewrite Hk.
    apply (HE cond _ _ _ _ _ _ k HW). rewrite <- Hk. apply Z.eqb_eq, H1. }
  assert (Hboth : guarded (fun r => one_ready r && bit_reported cond (currentSocket s) r)
                    new = true).
  { unfold guarded in *.
    apply (proj2 (scan_weaken one_ready _ (false, true) new Hev)), Hg. }
  split; [|split; [exact Hboth|split; [exact Hw|split; assumption]]].
  unfold guarded in *.
  refine (proj2 (scan_weaken _ (bit_reported cond (currentSocket s))
                   (false, true) new _) Hboth).
  apply Forall_forall. intros e _. destruct e as [c r|]; [|exact I].
  destruct c; try exact I. intros H. apply andb_true_iff in H. apply H.
Qed.

(** C3 on a concrete run: select times out once, then returns 1 with the
    bit set; read() is called after that, once. *)
Lemma select_before_operation_witness :
  let E := watched_ready_at_second_select in
  let s := with_sockets SELECT_MODEL 0 [5] in
  let run := callAPILoop E 3 1 READ_READY READ [100] s in
  select_contract E
  /\ (exists new,
     trace (final run) = (new ++ trace s)%list
     /\ guarded (bit_reported READ_READY (currentSocket s)) new = true
     /\ guarded (fun r => one_ready r && bit_reported READ_READY (currentSocket s) r)
          new = true
     /\ Forall (watches_one READ_READY (currentSocket s)) new
     /\ (run = Returned None (final run) ->
         gInterrupted (final run) = true /\ ops new = [])
     /\ (forall result, run = Returned (Some result) (final run) ->
         exists r, ops new = [Sys (sys_op READ (currentSocket s) [100]) r]
                   /\ result = ret r))
  /\ calls (trace (final run))
     = [sys_select 6 [5] [] [] (mkTimeval 1 0);
        sys_select 6 [5] [] [] (mkTimeval 1 0);
        sys_gettimeofday; sys_op READ 5 [100]; sys_gettimeofday]
  /\ value run = Some (Some 7).
Proof.
  assert (HE : select_contract watched_ready_at_second_select).
  { intros c fd nfds r w x t n W. destruct n as [|n]; cbn; [discriminate|].
    intros _. destruct c; cbn in W; injection W as -> -> ->; cbn;
      rewrite Z.eqb_refl; reflexivity. }
  split; [exact HE|]. split.
  - exact (select_before_operation watched_ready_at_second_select 3 1 READ_READY READ
             [100] (with_sockets SELECT_MODEL 0 [5]) HE eq_refl).
  - split; reflexivity.
Defined.

(** The contract of select is what the guard rests on.  An environment
    whose select returns 1 without the bit of the socket in the read set
    breaks it; there the handler prints that the bit is not set and goes
    on to call read() all the same, with the interrupt flag down. *)
Lemma operation_without_reported_bit :
  let s := with_sockets SELECT_MODEL 0 [5] in
  let s' := final (doRead bit_never_reported 1 s) in
  ~ select_contract bit_never_reported
  /\ calls (trace s')
  = [sys_select 6 [5] [] [] (mkTimeval 1 0); sys_gettimeofday;
     sys_op READ 5 [100]; sys_gettimeofday]
  /\ gInterrupted s' = false
  /\ guarded (bit_reported READ_READY 5) (trace s') = false
  /\ guarded one_ready (trace s') = true
  /\ printed (trace s')
     = [(stderr, "Error - Expected fd bit not set after select() returned 1.\n", [])].
Proof.
  split; [|repeat split].
  intros H.
  specialize (H READ_READY 5 6 [5] [] [] (mkTimeval 1 0) 0%nat eq_refl eq_refl).
  discriminate.
Qed.


(** ** The signal model *)

Lemma returns_sigioTick E : returns (sigioTick E).
Proof. unfold sigioTick. rets. Qed.

Lemma sigioLoop_S (E : env) (n : nat) (s : state) :
  sigioLoop E (S n) s
  = if negb (sigioReceived s) && negb (gInterrupted s)
    then sigioLoop E n (final (sigioTick E s))
    else Returned tt s.
Proof.
  cbn [sigioLoop].
  rewrite (bind_returned _ _ _ _ _ (gets_returned sigioReceived s)).
  rewrite (bind_returned _ _ _ _ _ (gets_returned gInterrupted s)).
  destruct (negb (sigioReceived s) && negb (gInterrupted s)); [|reflexivity].
  rewrite bind_tt by apply returns_sigioTick. reflexivity.
Qed.

(** The loop waiting for SIGIO ends only with one of the two flags up. *)
Lemma sigioLoop_safe (E : env) (n : nat) (s s' : state) :
  sigioLoop E n s = Returned tt s' ->
  sigioReceived s' || gInterrupted s' = true.
Proof.
  revert s. induction n as [|n IH]; intros s H; [discriminate|].
  rewrite sigioLoop_S in H.
  destruct (negb (sigioReceived s) && negb (gInterrupted s)) eqn:Hgo.
  - apply (IH _ H).
  - injection H as <-.
    destruct (sigioReceived s), (gInterrupted s); try reflexivity; discriminate.
Qed.

(** With no signal at all, nothing moves the two flags. *)
Lemma silent_frame (E : env) :
  (forall c n, sigs (respond E c n) = []) ->
  frame E (same (fun s => (sigioReceived s, gInterrupted s)))
    (fun _ => True) (fun _ => False).
Proof.
  intros Hq. apply frame_same; try reflexivity.
  - intros s sg [].
  - intros c n. rewrite Hq. constructor.
Qed.

(** With no signal at all and both flags down, the loop waiting for SIGIO
    goes round for ever. *)
Lemma sigioLoop_silent (E : env) (n : nat) (s : state) :
  (forall c n, sigs (respond E c n) = []) ->
  sigioReceived s = false -> gInterrupted s = false ->
  exists s', sigioLoop E n s = Spinning s'.
Proof.
  intros Hq. revert s. induction n as [|n IH]; intros s Hg Hi.
  - exists s. reflexivity.
  - rewrite sigioLoop_S, Hg, Hi. cbn [negb andb].
    pose proof (keeps_sigioTick E _ _ _ (silent_frame E Hq) (fun _ => I) s) as Hk.
    unfold same in Hk. cbv beta in Hk. rewrite Hg, Hi in Hk.
    injection Hk as Hg1 Hi1. apply IH; assumption.
Qed.

(** signal() gives its result to the caller. *)
Lemma signal_SIGIO_value (E : env) (h : sighandler) (s : state) :
  signal_SIGIO E h s
  = Returned (ret (answer E (sys_signal h) s)) (final (signal_SIGIO E h s)).
Proof.
  apply returned_value; [apply returns_signal_SIGIO|].
  unfold signal_SIGIO.
  rewrite (bind_returned _ _ _ _ _ (call_returned E _ s)).
  rewrite bind_tt by (destruct (ret _ <? 0); rets). reflexivity.
Qed.

(** A write-ready request only starts timing. *)
Lemma signalPreAPISetup_write (E : env) (fuel : nat) (s : state) :
  signalPreAPISetup E fuel WRITE_READY s = Returned tt (final (doBlockingSetup E s))
  /\ filter is_sys (trace (final (doBlockingSetup E s)))
     = Sys sys_gettimeofday (answer E sys_gettimeofday s) :: filter is_sys (trace s)
  /\ sigioDisposition (final (doBlockingSetup E s)) = sigioDisposition s.
Proof.
  split.
  { change (signalPreAPISetup E fuel WRITE_READY) with (doBlockingSetup E).
    apply returns_tt, returns_doBlockingSetup. }
  unfold doBlockingSetup.
  rewrite (bind_returned _ _ _ _ _ (call_returned E sys_gettimeofday s)).
  destruct (call_beyond E sys_gettimeofday s) as [_ [_ [_ [Hd [_ [_ Hl]]]]]].
  set (r := answer E sys_gettimeofday s) in *. clearbody r.
  set (s1 := final (call E sys_gettimeofday s)) in *. clearbody s1.
  unfold modify. rewrite final_returned. split; assumption.
Qed.

(** The steps of a read-ready or exceptional request in the signal model,
    up to the wait. *)
Lemma signalPreAPISetup_steps (E : env) (fuel : nat) (cond : readyCondition)
    (s : state) :
  is_WRITE_READY cond = false ->
  let rs := answer E (sys_signal activeSIGIOHandler_) s in
  let s1 := final (signal_SIGIO E activeSIGIOHandler_ s) in
  let pid := ret (answer E sys_getpid s1) in
  let s2 := final (call E sys_getpid s1) in
  let claim := sys_fcntl (currentSocket s2) F_SETOWN pid in
  let ro := answer E claim s2 in
  let s3 := final (call E claim s2) in
  let s4 := final (setFctlFlag E (O_ASYNC E) (set_sigioReceived false s3)) in
  signalPreAPISetup E fuel cond s
  = if ret rs <? 0 then
      Returned tt
        (set_trace (Out stderr "Error - signal() returned SIG_ERR.\n" [] :: trace s1) s1)
    else if ret ro <? 0 then
      Returned tt
        (set_trace
           (Out stderr "Error on F_SETOWN - %s.\n" [AStrerror (errno s3)] :: trace s3) s3)
    else (sigioLoop E fuel ;; doBlockingSetup E) s4.
Proof.
  intros Hc. cbv zeta. unfold signalPreAPISetup. rewrite Hc.
  rewrite (bind_returned _ _ _ _ _ (signal_SIGIO_value E activeSIGIOHandler_ s)).
  cbv beta.
  set (rs := answer E (sys_signal activeSIGIOHandler_) s). clearbody rs.
  set (s1 := final (signal_SIGIO E activeSIGIOHandler_ s)). clearbody s1.
  destruct (ret rs <? 0); [reflexivity|].
  rewrite (bind_returned _ _ _ _ _ (call_returned E sys_getpid s1)). cbv beta.
  set (rp := answer E sys_getpid s1). clearbody rp.
  set (s2 := final (call E sys_getpid s1)). clearbody s2.
  rewrite (bind_returned _ _ _ _ _ (gets_returned currentSocket s2)). cbv beta.
  rewrite (bind_returned _ _ _ _ _ (call_returned E _ s2)). cbv beta.
  set (ro := answer E (sys_fcntl (currentSocket s2) F_SETOWN (ret rp)) s2).
  clearbody ro.
  set (s3 := final (call E (sys_fcntl (currentSocket s2) F_SETOWN (ret rp)) s2)).
  clearbody s3.
  destruct (ret ro <? 0).
  { rewrite (bind_returned _ _ _ _ _ (gets_returned errno s3)). reflexivity. }
  rewrite bind_tt by apply returns_modify.
  unfold modify at 1. rewrite final_returned.
  rewrite bind_tt by apply returns_setFctlFlag.
  reflexivity.
Qed.




(** ** The current selection *)

(** The selection and the registry are out of reach of the setup
    functions, of every signal, and of the model command. *)
Lemma selection_frame (E : env) :
  frame E (same (fun s => (gCurrent s, gSockfd s)))
    (fun _ => True) (fun _ => True).
Proof.
  apply frame_same; try reflexivity; try handlers.
  intros; apply Forall_any.
Qed.

(** The same, with the failed socket() calls of the log, for the steps
    that do not call socket(). *)
Lemma created_frame (E : env) :
  frame E (same (fun s => (gCurrent s, gSockfd s,
                           filter is_failed_socket (trace s))))
    (fun c => forall r, is_failed_socket (Sys c r) = false) (fun _ => True).
Proof.
  apply frame_same; try reflexivity; try handlers.
  - intros s c r Hc. cbn -[is_failed_socket]. rewrite Hc. reflexivity.
  - intros; apply Forall_any.
Qed.

Lemma selected_in_use_same (s s' : state) :
  gCurrent s' = gCurrent s -> gSockfd s' = gSockfd s ->
  selected_in_use s -> selected_in_use s'.
Proof.
  unfold selected_in_use, currentSocket. intros Hc Hfd. rewrite Hc, Hfd. auto.
Qed.

Lemma final_then {A B : Type} (m : M A) (b : B) (s : state) :
  final (bindM m (fun _ => retM b) s) = final (m s).
Proof. unfold bindM. destruct (m s); reflexivity. Qed.

(** The search for a free slot gives a slot of the registry and changes
    nothing, or gives -1 and only prints. *)
Lemma findFreeSocketSlot_cases (s : state) :
  (exists i, findFreeSocketSlot s = Returned i s /\ is_slot i = true)
  \/ (exists s1, findFreeSocketSlot s = Returned (-1) s1
                 /\ gCurrent s1 = gCurrent s /\ gSockfd s1 = gSockfd s
                 /\ filter is_failed_socket (trace s1)
                    = filter is_failed_socket (trace s)).
Proof.
  pose proof (scanSlots_first (gSockfd s) (Z.to_nat MAXSOCKETS) 0) as H.
  cbn zeta in H. destruct H as [Hr _].
  unfold findFreeSocketSlot, bindM, gets.
  set (j := scanSlots (gSockfd s) 0 (Z.to_nat MAXSOCKETS)) in *.
  destruct (j >=? MAXSOCKETS) eqn:Hge.
  - right. eexists. split; [reflexivity|]. repeat split.
  - left. exists j. split; [reflexivity|].
    unfold is_slot, MAXSOCKETS in *. lia.
Qed.

Lemma callAPI_selection (E : env) (fuel : nat) c api args :
  keeps (same (fun s => (gCurrent s, gSockfd s))) (callAPI E fuel c api args).
Proof.
  apply (keeps_callAPI E fuel _ _ _ (selection_frame E));
    try (intros; exact I); intros; reflexivity.
Qed.

Lemma dispatch_plain_selection (E : env) (fuel : nat) i gTokens :
  i <> CMD_USE -> i <> CMD_SOCKET -> i <> CMD_ACCEPT -> i <> CMD_CLOSE ->
  keeps (same (fun s => (gCurrent s, gSockfd s))) (dispatch E fuel i gTokens).
Proof.
  apply (keeps_dispatch_plain E fuel _ _ _ (selection_frame E));
    try (intros; exact I); intros; reflexivity.
Qed.

(** A command that leaves the selection and the registry as they were, or
    ends with the selection on an in-use slot, keeps the invariant. *)
Lemma selection_invariant_step (s s' : state) :
  untouched s s' \/ selected_in_use s' ->
  selection_invariant s -> selection_invariant s'.
Proof.
  intros [[Hc Hfd]|Hin] Hinv; [|intros _; exact Hin].
  intros [i [Hi Hopen]]. apply (selected_in_use_same s); [exact Hc|exact Hfd|].
  apply Hinv. exists i. rewrite <- Hfd. auto.
Qed.

Lemma selected_in_use_step (s s' : state) :
  untouched s s' \/ selected_in_use s' ->
  selected_in_use s -> selected_in_use s'.
Proof.
  intros [[Hc Hfd]|Hin] Hs; [|exact Hin].
  apply (selected_in_use_same s); assumption.
Qed.

(** The use command leaves the registry alone; it leaves the selection
    alone too, or moves it to an index whose word is not UNUSED_FD: an
    in-use slot when the index is one of the registry. *)
Lemma doUse_selection (E : env) (gTokens : list string) (s : state) :
  gSockfd (final (doUse E gTokens s)) = gSockfd s
  /\ (is_slot (gCurrent (final (doUse E gTokens s))) = true ->
      untouched s (final (doUse E gTokens s))
      \/ selected_in_use (final (doUse E gTokens s))).
Proof.
  unfold doUse.
  destruct (negb (gTokenCount gTokens =? 2)).
  - cbn. split; [reflexivity|]. intros _. left. split; reflexivity.
  - unfold setIntegerArgument.
    destruct (sscanf_i E (token gTokens 1)) as [i|]; cbn.
    + destruct (gSockfd s i =? UNUSED_FD) eqn:Hi; cbn.
      * split; [reflexivity|]. intros _. left. split; reflexivity.
      * split; [reflexivity|]. intros Hs. right. split; [exact Hs|].
        apply Z.eqb_neq, Hi.
    + split; [reflexivity|]. intros _. left. split; reflexivity.
Qed.

(** The accept command moves the selection to the slot it fills, and only
    once accept() has given a descriptor. *)
Lemma doAccept_selection (E : env) (fuel : nat) (s : state) :
  untouched s (final (doAccept E fuel s))
  \/ selected_in_use (final (doAccept E fuel s)).
Proof.
  unfold doAccept.
  destruct (findFreeSocketSlot_cases s) as [[i [Hi Hslot]]|[s1 [Hi [Hc [Hfd _]]]]];
    rewrite (bind_returned _ _ _ _ _ Hi).
  - assert (Hneg : (i <? 0) = false) by (unfold is_slot in Hslot; lia).
    rewrite Hneg.
    pose proof (callAPI_selection E fuel READ_READY ACCEPT [] s) as Hk.
    unfold same in Hk. cbv beta in Hk. rewrite final_bind.
    destruct (callAPI E fuel READ_READY ACCEPT [] s) as [r s2|s2];
      rewrite ?final_returned, ?final_spinning in Hk;
      injection Hk as Hc Hfd;
      [|left; split; assumption].
    destruct r as [result|]; [|left; split; assumption].
    destruct (result <? 0) eqn:Hres.
    + left. split; [exact Hc|exact Hfd].
    + right. cbn. unfold selected_in_use, currentSocket. cbn.
      rewrite Z.eqb_refl. split; [exact Hslot|]. unfold UNUSED_FD. lia.
  - change (-1 <? 0) with true. cbv iota. unfold retM. rewrite final_returned.
    left. split; assumption.
Qed.

(** The close command does not move the selection; when close() succeeded
    the slot selected is unused after it. *)
Lemma doClose_selection (E : env) (s : state) :
  gCurrent (final (doClose E s)) = gCurrent s
  /\ (0 <= ret (answer E (sys_close (currentSocket s)) s) ->
      currentSocket (final (doClose E s)) = UNUSED_FD).
Proof.
  unfold doClose.
  rewrite (bind_returned _ _ _ _ _ (gets_returned currentSocket s)).
  rewrite (bind_returned _ _ _ _ _ (call_returned E _ s)).
  destruct (call_registry E (sys_close (currentSocket s)) s) as [Hc _].
  set (r := answer E (sys_close (currentSocket s)) s) in *.
  set (s1 := final (call E (sys_close (currentSocket s)) s)) in *.
  clearbody s1 r.
  destruct (ret r <? 0) eqn:Hret.
  - apply Z.ltb_lt in Hret. cbn. split; [exact Hc|]. intros Hge. lia.
  - cbn. split; [exact Hc|]. intros _. unfold currentSocket. cbn.
    rewrite Z.eqb_refl. reflexivity.
Qed.

Lemma cons_not_self {A : Type} (x : A) (l : list A) : (x :: l)%list <> l.
Proof.
  intros H. apply (f_equal (@List.length A)) in H. cbn in H. lia.
Qed.

(** The socket command moves the selection to the slot it found before it
    calls socket(), and stores what socket() returned there: when no
    socket() call of the command failed, it has changed nothing or the
    selection is in use after it. *)
Lemma doSocket_selection (E : env) (fuel : nat) (gTokens : list string) (s : state) :
  filter is_failed_socket (trace (final (doSocket E fuel gTokens s)))
  = filter is_failed_socket (trace s) ->
  untouched s (final (doSocket E fuel gTokens s))
  \/ selected_in_use (final (doSocket E fuel gTokens s)).
Proof.
  unfold doSocket.
  set (s3 := set_gProtocol 0 (set_gType (SOCK_STREAM E) (set_gDomain (PF_INET6 E) s))).
  do 3 (rewrite bind_tt by apply returns_modify). cbn [final modify]. fold s3.
  change (trace s) with (trace s3). change (untouched s) with (untouched s3).
  clearbody s3. clear s.
  pose proof (keeps_socketOptions E _ _ _ (created_frame E)
                ltac:(reflexivity) ltac:(reflexivity) ltac:(reflexivity)
                fuel gTokens 0 s3) as Hk.
  unfold same in Hk. cbv beta in Hk. rewrite final_bind.
  destruct (socketOptions E fuel gTokens 0 s3) as [parsed s4|s4];
    rewrite ?final_returned, ?final_spinning in Hk; injection Hk as Hc Hfd Ht;
    [|intros _; left; split; assumption].
  destruct parsed as [[retval optind]|]; [|intros _; left; split; assumption].
  destruct (optind <? gTokenCount gTokens); [intros _; left; split; assumption|].
  destruct (negb (retval =? 0)); [intros _; left; split; assumption|].
  destruct (findFreeSocketSlot_cases s4)
    as [[i [Hi Hslot]]|[s5 [Hi [Hc5 [Hfd5 _]]]]];
    rewrite (bind_returned _ _ _ _ _ Hi).
  - assert (Hneg : (i <? 0) = false) by (unfold is_slot in Hslot; lia).
    rewrite Hneg.
    rewrite bind_tt by apply returns_modify. cbn [final modify].
    set (s5 := set_gCurrent i s4).
    do 3 (rewrite (bind_returned _ _ _ _ _ (gets_returned _ s5))).
    rewrite (bind_returned _ _ _ _ _ (call_returned E _ s5)).
    set (c := sys_socket (gDomain s5) (gType s5) (gProtocol s5)).
    destruct (call_registry E c s5) as [Hc6 [Hfd6 _]].
    pose proof (call_filter E is_failed_socket c s5 ltac:(reflexivity)) as Ht6.
    set (r := answer E c s5) in *. set (s6 := final (call E c s5)) in *.
    change (gCurrent s5) with i in Hc6.
    change (trace s5) with (trace s4) in Ht6.
    change (is_failed_socket (Sys c r)) with (ret r <? 0) in Ht6.
    clearbody r s6.
    rewrite (bind_returned _ _ _ _ _ (gets_returned gCurrent s6)). rewrite Hc6.
    rewrite bind_tt by apply returns_modify. cbn [final modify].
    set (s7 := store_gSockfd i (ret r) s6).
    rewrite (bind_returned _ _ _ _ _ (gets_returned currentSocket s7)).
    assert (Hcur7 : currentSocket s7 = ret r).
    { unfold currentSocket, s7. cbn. rewrite Hc6, Z.eqb_refl. reflexivity. }
    assert (Hg7 : gCurrent s7 = i) by exact Hc6.
    assert (Ht7 : filter is_failed_socket (trace s7)
                  = filter is_failed_socket (trace s6)) by reflexivity.
    rewrite Hcur7. clearbody s7.
    destruct (ret r <? 0) eqn:Hret.
    + assert (Ht8 : filter is_failed_socket
                      (trace (final (reportAPIError (ret r) s7)))
                    = filter is_failed_socket (trace s7)) by reflexivity.
      intros Hsame. exfalso.
      rewrite Ht8, Ht7, Ht6, Ht in Hsame.
      exact (cons_not_self _ _ Hsame).
    + unfold retM. rewrite final_returned. intros _. right.
      apply Z.ltb_ge in Hret. unfold selected_in_use. rewrite Hcur7, Hg7.
      split; [exact Hslot|]. unfold UNUSED_FD. lia.
  - change (-1 <? 0) with true. cbv iota. unfold retM. rewrite final_returned.
    intros _. left. split; congruence.
Qed.

(** A turn of the loop of main with fewer than MAXTOKENS tokens lowers
    the interrupt flag and goes to the command found. *)
Lemma command_dispatch (E : env) (fuel : nat) (gTokens : list string) (s : state) :
  (gTokenCount gTokens >=? MAXTOKENS) = false ->
  command E fuel gTokens s
  = dispatch E fuel (findCommand (token gTokens 0) gCommands 0) gTokens
      (set_gInterrupted false s).
Proof.
  intros H. unfold command. rewrite H.
  rewrite bind_tt by apply returns_modify. reflexivity.
Qed.

(** What each command processor does to the selection and the registry. *)
Lemma dispatch_selection (E : env) (fuel i : nat) (gTokens : list string)
    (s : state) :
  (i <> CMD_USE /\ i <> CMD_SOCKET /\ i <> CMD_ACCEPT ->
   gCurrent (final (dispatch E fuel i gTokens s)) = gCurrent s)
  /\ (i <> CMD_SOCKET /\ i <> CMD_ACCEPT /\ i <> CMD_CLOSE ->
      gSockfd (final (dispatch E fuel i gTokens s)) = gSockfd s)
  /\ (i <> CMD_CLOSE ->
      (i = CMD_USE -> is_slot (gCurrent (final (dispatch E fuel i gTokens s))) = true) ->
      (i = CMD_SOCKET ->
       filter is_failed_socket (trace (final (dispatch E fuel i gTokens s)))
       = filter is_failed_socket (trace s)) ->
      untouched s (final (dispatch E fuel i gTokens s))
      \/ selected_in_use (final (dispatch E fuel i gTokens s)))
  /\ (i = CMD_CLOSE ->
      gCurrent (final (dispatch E fuel i gTokens s)) = gCurrent s
      /\ (0 <= ret (answer E (sys_close (currentSocket s)) s) ->
          currentSocket (final (dispatch E fuel i gTokens s)) = UNUSED_FD)).
Proof.
  destruct (Nat.eq_dec i CMD_USE) as [->|Hu].
  { change (dispatch E fuel CMD_USE gTokens)
      with (bindM (doUse E gTokens) (fun _ => retM false)).
    rewrite final_then. destruct (doUse_selection E gTokens s) as [Hfd Hin].
    split; [intros [H _]; congruence|]. split; [intros _; exact Hfd|].
    split; [intros _ Hslot _; apply Hin, Hslot; reflexivity|].
    intros H. discriminate H. }
  destruct (Nat.eq_dec i CMD_SOCKET) as [->|Hso].
  { change (dispatch E fuel CMD_SOCKET gTokens)
      with (bindM (doSocket E fuel gTokens) (fun _ => retM false)).
    rewrite final_then.
    split; [intros [_ [H _]]; congruence|]. split; [intros [H _]; congruence|].
    split; [intros _ _ Hf; apply doSocket_selection, Hf; reflexivity|].
    intros H. discriminate H. }
  destruct (Nat.eq_dec i CMD_ACCEPT) as [->|Ha].
  { change (dispatch E fuel CMD_ACCEPT gTokens)
      with (bindM (doAccept E fuel) (fun _ => retM false)).
    rewrite final_then.
    split; [intros [_ [_ H]]; congruence|].
    split; [intros [_ [H _]]; congruence|].
    split; [intros _ _ _; apply doAccept_selection|].
    intros H. discriminate H. }
  destruct (Nat.eq_dec i CMD_CLOSE) as [->|Hcl].
  { change (dispatch E fuel CMD_CLOSE gTokens)
      with (bindM (doClose E) (fun _ => retM false)).
    rewrite final_then. destruct (doClose_selection E s) as [Hc Hun].
    split; [intros _; exact Hc|]. split; [intros [_ [_ H]]; congruence|].
    split; [intros H; congruence|]. intros _. split; [exact Hc|exact Hun]. }
  pose proof (dispatch_plain_selection E fuel i gTokens Hu Hso Ha Hcl s) as Hk.
  unfold same in Hk. cbv beta in Hk.
  set (s' := final (dispatch E fuel i gTokens s)) in *. clearbody s'.
  injection Hk as Hc Hfd.
  split; [intros _; exact Hc|]. split; [intros _; exact Hfd|].
  split; [intros _ _ _; left; split; assumption|].
  intros H. congruence.
Qed.

(** C9, as the code has it.  The selection is moved only by the use,
    socket and accept commands, and the registry is written only by the
    socket, accept and close commands.  A command other than close leaves
    both as they were or ends with the selection on an in-use slot, and so
    keeps the invariant that the selection refers to an in-use slot once
    any socket exists -- for use when the index selected is one of the
    registry, for socket when no socket() call of the command failed.  The
    close command does not move the selection: after a close() that
    succeeded the selection refers to an unused slot, whatever other
    sockets are open.  At the start of the program no socket exists. *)
Theorem selection_after_command (E : env) (fuel : nat) (gTokens : list string)
    (s : state) :
  let i := findCommand (token gTokens 0) gCommands 0 in
  let s' := final (command E fuel gTokens s) in
  (i <> CMD_USE /\ i <> CMD_SOCKET /\ i <> CMD_ACCEPT -> gCurrent s' = gCurrent s)
  /\ (i <> CMD_SOCKET /\ i <> CMD_ACCEPT /\ i <> CMD_CLOSE -> gSockfd s' = gSockfd s)
  /\ (i <> CMD_CLOSE ->
      (i = CMD_USE -> is_slot (gCurrent s') = true) ->
      (i = CMD_SOCKET ->
       filter is_failed_socket (trace s') = filter is_failed_socket (trace s)) ->
      (untouched s s' \/ selected_in_use s')
      /\ (selection_invariant s -> selection_invariant s')
      /\ (selected_in_use s -> selected_in_use s'))
  /\ (i = CMD_CLOSE -> gTokenCount gTokens < MAXTOKENS ->
      gCurrent s' = gCurrent s
      /\ (0 <= ret (answer E (sys_close (currentSocket s)) s) ->
          currentSocket s' = UNUSED_FD /\ (selected_in_use s' -> False)))
  /\ (forall verbose, socket_exists (initial E verbose) -> False).
Proof.
  cbv zeta.
  assert (Hstart : forall verbose, socket_exists (initial E verbose) -> False).
  { intros verbose [k [Hk Hopen]]. apply Hopen. cbn. rewrite Hk. reflexivity. }
  destruct (gTokenCount gTokens >=? MAXTOKENS) eqn:Hmany.
  - assert (Hrun : final (command E fuel gTokens s)
                   = set_trace (Out stderr "Too many tokens in input line.\n" []
                                  :: trace s) s).
    { unfold command. rewrite Hmany. reflexivity. }
    rewrite Hrun.
    split; [intros _; reflexivity|]. split; [intros _; reflexivity|].
    split.
    { intros _ _ _. split; [left; split; reflexivity|].
      split; intros H; exact H. }
    split; [|exact Hstart]. intros _ Hlt. unfold MAXTOKENS in *. lia.
  - rewrite (command_dispatch E fuel gTokens s Hmany).
    set (i := findCommand (token gTokens 0) gCommands 0). clearbody i.
    destruct (dispatch_selection E fuel i gTokens (set_gInterrupted false s))
      as [Hmove [Hwrite [Hkeep Hclose]]].
    set (s' := final (dispatch E fuel i gTokens (set_gInterrupted false s))) in *.
    clearbody s'.
    split; [exact Hmove|]. split; [exact Hwrite|]. split.
    { intros Hcl Huse Hsock.
      assert (Hstep : untouched s s' \/ selected_in_use s')
        by (apply Hkeep; assumption).
      split; [exact Hstep|].
      split; [apply selection_invariant_step|apply selected_in_use_step];
        exact Hstep. }
    split; [|exact Hstart]. intros Hcl _.
    destruct (Hclose Hcl) as [Hc Hun]. split; [exact Hc|].
    intros Hge. split; [apply Hun, Hge|].
    intros [_ Hopen]. apply Hopen, Hun, Hge.
Qed.

(** C9 on a concrete run: with descriptor 5 in slot 0 selected, a socket
    command whose socket() call gives descriptor 7 moves the selection to
    slot 1, which is in use. *)
Lemma selection_after_command_witness :
  let s := with_sockets BLOCKING_MODEL 0 [5] in
  let s' := final (command socket_opens 1 ["socket"] s) in
  selected_in_use s /\ selected_in_use s' /\ gCurrent s' = 1 /\ gSockfd s' 1 = 7.
Proof.
  cbv zeta.
  destruct (selection_after_command socket_opens 1 ["socket"]
              (with_sockets BLOCKING_MODEL 0 [5])) as [_ [_ [H _]]].
  destruct (H ltac:(vm_compute; discriminate) ltac:(vm_compute; discriminate)
              ltac:(intros _; vm_compute; reflexivity)) as [_ [_ Hin]].
  assert (Hs : selected_in_use (with_sockets BLOCKING_MODEL 0 [5]))
    by (split; [reflexivity|vm_compute; discriminate]).
  split; [exact Hs|]. split; [apply Hin, Hs|].
  split; vm_compute; reflexivity.
Defined.

(** C9, as stated, fails: sockets are open in slots 0 and 1 and slot 1 is
    selected; after the close command the selection is still 1, slot 1 is
    unused, and the socket of slot 0 still exists. *)
Lemma close_leaves_selection_on_unused_slot :
  let s := with_sockets BLOCKING_MODEL 1 [5; 6] in
  let s' := final (command all_succeed 0 ["close"] s) in
  selected_in_use s
  /\ command all_succeed 0 ["close"] s = Returned false s'
  /\ gCurrent s' = 1
  /\ gSockfd s' 0 = 5
  /\ gSockfd s' 1 = UNUSED_FD
  /\ socket_exists s'
  /\ (selected_in_use s' -> False).
Proof.
  cbv zeta.
  split; [split; [reflexivity|vm_compute; discriminate]|].
  split; [vm_compute; reflexivity|].
  split; [vm_compute; reflexivity|].
  split; [vm_compute; reflexivity|].
  split; [vm_compute; reflexivity|].
  split.
  - exists 0. split; [reflexivity|vm_compute; discriminate].
  - intros [_ H]. apply H. vm_compute. reflexivity.
Qed.

(** The socket command whose socket() call fails: the selection has moved
    to slot 1 before the call, slot 1 holds the -1 that socket() returned,
    and the socket of slot 0, selected before, still exists.  The accept
    command, in contrast, touches the selection only after accept() has
    given a descriptor (doAccept_selection). *)
Lemma failed_socket_moves_selection :
  let s := with_sockets BLOCKING_MODEL 0 [5] in
  let s' := final (command socket_fails 1 ["socket"] s) in
  selected_in_use s
  /\ command socket_fails 1 ["socket"] s = Returned false s'
  /\ calls (trace s') = [sys_socket 10 1 0]
  /\ printed (trace s')
     = [(stderr, "API returned %d.  Error %d passed in errno - %s.\n",
         [AInt (-1); AInt 24; AStrerror 24])]
  /\ gCurrent s' = 1
  /\ gSockfd s' 0 = 5
  /\ gSockfd s' 1 = UNUSED_FD
  /\ (selected_in_use s' -> False).
Proof.
  cbv zeta.
  split; [split; [reflexivity|vm_compute; discriminate]|].
  split; [vm_compute; reflexivity|].
  split; [vm_compute; reflexivity|].
  split; [vm_compute; reflexivity|].
  split; [vm_compute; reflexivity|].
  split; [vm_compute; reflexivity|].
  split; [vm_compute; reflexivity|].
  intros [_ H]. apply H. vm_compute. reflexivity.
Qed.

(** * Further properties of the program *)

(** ** The line of main: lower case and tokens *)

Lemma tolower_idempotent (c : ascii) : tolower (tolower c) = tolower c.
Proof.
  destruct c as [b0 b1 b2 b3 b4 b5 b6 b7];
    destruct b0, b1, b2, b3, b4, b5, b6, b7; reflexivity.
Qed.

Lemma tolower_delimiter (c : ascii) :
  strchr CMDDELIMS (tolower c) = strchr CMDDELIMS c.
Proof.
  destruct c as [b0 b1 b2 b3 b4 b5 b6 b7];
    destruct b0, b1, b2, b3, b4, b5, b6, b7; reflexivity.
Qed.

Lemma lowercase_idempotent (line : string) :
  lowercase (lowercase line) = lowercase line.
Proof.
  induction line as [|c rest IH]; [reflexivity|].
  cbn [lowercase]. rewrite tolower_idempotent, IH. reflexivity.
Qed.

Lemma lowercase_delimiters (line : string) :
  List.length (delimiters (lowercase line)) = List.length (delimiters line).
Proof.
  induction line as [|c rest IH]; [reflexivity|].
  cbn [lowercase delimiters]. rewrite tolower_delimiter.
  destruct (strchr CMDDELIMS c); cbn [List.length]; rewrite IH; reflexivity.
Qed.

(** strsep cuts at the first delimiter. *)
Lemma strsep_spec (s : string) :
  delimiters (fst (strsep s CMDDELIMS)) = []
  /\ match snd (strsep s CMDDELIMS) with
     | None => s = fst (strsep s CMDDELIMS) /\ delimiters s = []
     | Some rest =>
         exists d, strchr CMDDELIMS d = true
                   /\ s = (fst (strsep s CMDDELIMS) ++ String d rest)%string
                   /\ delimiters s = d :: delimiters rest
     end.
Proof.
  induction s as [|c rest IH]; [cbn; auto|].
  cbn [strsep delimiters]. destruct (strchr CMDDELIMS c) eqn:Hc.
  - cbn. split; [reflexivity|]. exists c. auto.
  - destruct (strsep rest CMDDELIMS) as [tok after]. cbn [fst snd] in *.
    destruct IH as [Htok Hafter]. cbn [delimiters]. rewrite Hc.
    split; [exact Htok|]. destruct after as [rest'|].
    + destruct Hafter as [d [Hd [Hs Hds]]]. exists d.
      split; [exact Hd|]. split; [cbn; rewrite <- Hs; reflexivity|exact Hds].
    + destruct Hafter as [Hs Hds]. split; [rewrite <- Hs; reflexivity|exact Hds].
Qed.

(** strsep commutes with the lowering of case. *)
Lemma strsep_lowercase (s : string) :
  strsep (lowercase s) CMDDELIMS
  = (lowercase (fst (strsep s CMDDELIMS)),
     option_map lowercase (snd (strsep s CMDDELIMS))).
Proof.
  induction s as [|c rest IH]; [reflexivity|].
  cbn [lowercase strsep]. rewrite tolower_delimiter.
  destruct (strchr CMDDELIMS c); [reflexivity|].
  rewrite IH. destruct (strsep rest CMDDELIMS) as [tok after]. reflexivity.
Qed.

Lemma tokenLoop_lowercase (left : nat) (tokenPtr : option string) :
  tokenLoop left (option_map lowercase tokenPtr)
  = (map lowercase (fst (tokenLoop left tokenPtr)), snd (tokenLoop left tokenPtr)).
Proof.
  revert tokenPtr. induction left as [|left IH]; intros tokenPtr; [reflexivity|].
  destruct tokenPtr as [s|]; [|reflexivity].
  cbn [option_map tokenLoop]. rewrite strsep_lowercase.
  destruct (strsep s CMDDELIMS) as [tok after]. cbn [fst snd]. rewrite IH.
  destruct (tokenLoop left after) as [toks ended]. reflexivity.
Qed.

(** The loop that fills gTokens: with room for the tokens and for the
    NULL after them it stores them all; otherwise it stops when the array
    is full. *)
Lemma tokenLoop_spec (left : nat) (s : string) :
  ((List.length (delimiters s) + 2 <= left)%nat ->
   snd (tokenLoop left (Some s)) = true
   /\ List.length (fst (tokenLoop left (Some s))) = S (List.length (delimiters s))
   /\ Forall (fun tok => delimiters tok = []) (fst (tokenLoop left (Some s)))
   /\ rejoin (fst (tokenLoop left (Some s))) (delimiters s) = s)
  /\ ((left < List.length (delimiters s) + 2)%nat ->
      snd (tokenLoop left (Some s)) = false
      /\ List.length (fst (tokenLoop left (Some s))) = left).
Proof.
  revert s. induction left as [|left IH]; intros s.
  { split; [intros H; lia|]. intros _. split; reflexivity. }
  cbn [tokenLoop].
  destruct (strsep_spec s) as [Htok Hafter].
  destruct (strsep s CMDDELIMS) as [tok after]. cbn [fst snd] in *.
  destruct after as [rest|].
  - destruct Hafter as [d [Hd [Hs Hds]]]. rewrite Hds. cbn [List.length].
    destruct (IH rest) as [IH1 IH2].
    destruct (tokenLoop left (Some rest)) as [toks ended]. cbn [fst snd] in *.
    split.
    + intros Hlen. destruct IH1 as [He [Hl [Hf Hr]]]; [lia|].
      split; [exact He|]. split; [cbn; rewrite Hl; reflexivity|].
      split; [constructor; assumption|].
      cbn [rejoin]. rewrite Hr. symmetry. exact Hs.
    + intros Hlen. destruct IH2 as [He Hl]; [lia|].
      split; [exact He|]. cbn. rewrite Hl. reflexivity.
  - destruct Hafter as [Hs Hds]. rewrite Hds. cbn [List.length].
    destruct left as [|left]; cbn [tokenLoop fst snd].
    + split; [intros H; lia|]. intros _. split; reflexivity.
    + split; [|intros H; lia]. intros _.
      split; [reflexivity|]. split; [reflexivity|].
      split; [constructor; [exact Htok|constructor]|].
      cbn. symmetry. exact Hs.
Qed.

(** X1: the loop of main cuts the line at every delimiter (blank, comma,
    equals sign).  For a line with fewer than 99 delimiters it ends at the
    NULL of strsep with one token more than there are delimiters; no
    token holds a delimiter (two delimiters in a row give an empty
    token), and the tokens put back around the delimiters give the line. *)
Theorem tokenize_cuts_at_delimiters (line : string) :
  (List.length (delimiters line) < 99)%nat ->
  let gTokens := fst (tokenize line) in
  snd (tokenize line) = true
  /\ gTokenCount gTokens = Z.of_nat (List.length (delimiters line)) + 1
  /\ Forall (fun tok => delimiters tok = []) gTokens
  /\ rejoin gTokens (delimiters line) = line.
Proof.
  intros Hk. cbv zeta. unfold tokenize, gTokenCount.
  change (Z.to_nat MAXTOKENS) with 100%nat.
  destruct (tokenLoop_spec 100 line) as [H _].
  destruct H as [He [Hl [Hf Hr]]]; [lia|].
  split; [exact He|]. split; [rewrite Hl; lia|]. split; assumption.
Qed.

Lemma tokenize_cuts_at_delimiters_witness :
  tokenize "bind 80,,host=x"
  = (["bind"; "80"; ""; "host"; "x"], true)
  /\ rejoin ["bind"; "80"; ""; "host"; "x"] [" "; ","; ","; "="]%char
     = "bind 80,,host=x".
Proof.
  destruct (tokenize_cuts_at_delimiters "bind 80,,host=x"
              ltac:(vm_compute; lia)) as [_ [_ [_ Hr]]].
  split; [reflexivity|exact Hr].
Defined.

(** The line as main hands it to the switch. *)
Lemma runLine_command (E : env) (fuel : nat) (line : string) (s : state) :
  runLine E fuel line s = command E fuel (fst (tokenize (lowercase line))) s.
Proof.
  unfold runLine. destruct (tokenize (lowercase line)) as [toks ended].
  reflexivity.
Qed.

(** X2: gTokens has room for 99 tokens and the NULL after them.  A line
    with 99 delimiters or more (100 tokens or more) is refused with the
    message and nothing else happens: no command runs and the interrupt
    flag is not lowered.  A line with fewer goes to the switch with all
    its tokens, in lower case. *)
Theorem token_limit (E : env) (fuel : nat) (line : string) (s : state) :
  ((99 <= List.length (delimiters line))%nat ->
   runLine E fuel line s
   = Returned false
       (set_trace (Out stderr "Too many tokens in input line.\n" [] :: trace s) s))
  /\ ((List.length (delimiters line) < 99)%nat ->
      let gTokens := map lowercase (fst (tokenize line)) in
      gTokenCount gTokens = Z.of_nat (List.length (delimiters line)) + 1
      /\ runLine E fuel line s
         = dispatch E fuel (findCommand (token gTokens 0) gCommands 0) gTokens
             (set_gInterrupted false s)).
Proof.
  rewrite runLine_command. unfold tokenize.
  change (Z.to_nat MAXTOKENS) with 100%nat.
  change (Some (lowercase line)) with (option_map lowercase (Some line)).
  rewrite tokenLoop_lowercase. cbn [fst].
  destruct (tokenLoop_spec 100 line) as [Hfew Hmany].
  set (toks := fst (tokenLoop 100 (Some line))) in *. clearbody toks.
  split.
  - intros Hk. destruct Hmany as [_ Hl]; [lia|].
    unfold command, gTokenCount. rewrite length_map, Hl. reflexivity.
  - intros Hk. cbv zeta. destruct Hfew as [_ [Hl _]]; [lia|].
    assert (Hc : gTokenCount (map lowercase toks)
                 = Z.of_nat (List.length (delimiters line)) + 1)
      by (unfold gTokenCount; rewrite length_map, Hl; lia).
    split; [exact Hc|]. unfold command.
    assert (Hlt : (gTokenCount (map lowercase toks) >=? MAXTOKENS) = false)
      by (rewrite Hc; unfold MAXTOKENS; lia).
    rewrite Hlt. rewrite bind_tt by apply returns_modify. reflexivity.
Qed.

(** A line of 99 commas holds 100 (empty) tokens: it is refused. *)
Lemma token_limit_witness :
  runLine all_succeed 0 (string_of_list_ascii (repeat ","%char 99))
    (initial all_succeed false)
  = Returned false
      (set_trace [Out stderr "Too many tokens in input line.\n" []]
         (initial all_succeed false)).
Proof.
  destruct (token_limit all_succeed 0 (string_of_list_ascii (repeat ","%char 99))
              (initial all_succeed false)) as [H _].
  exact (H ltac:(vm_compute; lia)).
Defined.

Lemma getNamedValue_lowercase (E : env) (tok : string) (names : list (string * Z)) :
  getNamedValue E (lowercase tok) names = getNamedValue E tok names.
Proof. unfold getNamedValue. rewrite lowercase_idempotent. reflexivity. Qed.

(** X3: main lowers the case of the whole line before it cuts it, so a
    line and the same line in lower case run alike; lowering the case and
    cutting commute (no delimiter is a letter); and the second lowering in
    getNamedValue changes nothing for a token of main. *)
Theorem runLine_ignores_case (E : env) (fuel : nat) (line : string) (s : state) :
  runLine E fuel (lowercase line) s = runLine E fuel line s
  /\ tokenize (lowercase line)
     = (map lowercase (fst (tokenize line)), snd (tokenize line))
  /\ (forall tok names,
        getNamedValue E (lowercase tok) names = getNamedValue E tok names).
Proof.
  split; [rewrite !runLine_command, lowercase_idempotent; reflexivity|].
  split.
  - unfold tokenize.
    change (Some (lowercase line)) with (option_map lowercase (Some line)).
    apply tokenLoop_lowercase.
  - intros tok names. apply getNamedValue_lowercase.
Qed.

(** ** The command table *)

(** The search of main in a table of names: the first place of the name,
    or the place after the last when the name is absent. *)
Lemma findCommand_spec (name : string) (commands : list string) (i : nat) :
  (In name commands ->
   (i <= findCommand name commands i < i + List.length commands)%nat
   /\ nth (findCommand name commands i - i) commands "" = name)
  /\ ((In name commands -> False) ->
      findCommand name commands i = (i + List.length commands)%nat).
Proof.
  revert i. induction commands as [|c rest IH]; intros i.
  { split; [intros []|]. intros _. cbn. lia. }
  cbn [findCommand List.length]. destruct (String.eqb name c) eqn:Hc.
  - apply String.eqb_eq in Hc. subst c. split.
    + intros _. split; [lia|]. rewrite Nat.sub_diag. reflexivity.
    + intros H. exfalso. apply H. left. reflexivity.
  - apply String.eqb_neq in Hc. destruct (IH (S i)) as [IH1 IH2]. split.
    + intros [Heq|Hin]; [congruence|]. destruct (IH1 Hin) as [Hr Hn].
      split; [lia|].
      replace (findCommand name rest (S i) - i)%nat
        with (S (findCommand name rest (S i) - S i)) by lia.
      exact Hn.
    + intros Hnot. rewrite IH2; [lia|]. intros Hin. apply Hnot. right. exact Hin.
Qed.

(** X5: the search of main gives a name of gCommands its place in the
    table, below NUM_COMMANDS, and any other name NUM_COMMANDS; the
    table of names, the table of usage lines and the enumeration are in
    step: each has 21 entries, the name at a place is found at that place,
    and the usage line of a place begins with the name at that place. *)
Theorem findCommand_table (name : string) :
  let i := findCommand name gCommands 0 in
  (In name gCommands -> (i < NUM_COMMANDS)%nat /\ nth i gCommands "" = name)
  /\ ((In name gCommands -> False) -> i = NUM_COMMANDS)
  /\ (forall j, (j < NUM_COMMANDS)%nat ->
        findCommand (nth j gCommands "") gCommands 0 = j
        /\ String.prefix (nth j gCommands "") (nth j gUsage "") = true)
  /\ List.length gCommands = NUM_COMMANDS
  /\ List.length gUsage = NUM_COMMANDS.
Proof.
  cbv zeta. destruct (findCommand_spec name gCommands 0) as [Hin Hout].
  split.
  { intros H. destruct (Hin H) as [Hr Hn]. rewrite Nat.sub_0_r in Hn.
    split; [exact (proj2 Hr)|exact Hn]. }
  split; [exact Hout|].
  split; [|split; reflexivity].
  intros j Hj. unfold NUM_COMMANDS in Hj.
  do 21 (destruct j as [|j]; [split; reflexivity|]). lia.
Qed.

Lemma tokenLoop_S (left : nat) (s : string) :
  tokenLoop (S left) (Some s)
  = (fst (strsep s CMDDELIMS) :: fst (tokenLoop left (snd (strsep s CMDDELIMS))),
     snd (tokenLoop left (snd (strsep s CMDDELIMS)))).
Proof.
  cbn [tokenLoop]. destruct (strsep s CMDDELIMS) as [tok after].
  cbn [fst snd]. destruct (tokenLoop left after) as [toks ended]. reflexivity.
Qed.

(** X4: a first token that is no name of gCommands -- the empty token
    that a line beginning with a delimiter gives among them -- gets the
    message and nothing else: no call is made and no global changes but
    the interrupt flag, lowered as for every command. *)
Theorem unrecognized_command (E : env) (fuel : nat) (gTokens : list string)
    (s : state) :
  (gTokenCount gTokens < MAXTOKENS ->
   (In (token gTokens 0) gCommands -> False) ->
   command E fuel gTokens s
   = Returned false
       (set_trace (Out stderr "Unrecognized command.\n" [] :: trace s)
          (set_gInterrupted false s)))
  /\ (forall c rest, strchr CMDDELIMS c = true ->
        token (fst (tokenize (lowercase (String c rest)))) 0 = "")
  /\ (In "" gCommands -> False).
Proof.
  split; [|split].
  - intros Hlt Hnot. rewrite command_dispatch by (unfold MAXTOKENS in *; lia).
    destruct (findCommand_spec (token gTokens 0) gCommands 0) as [_ Hout].
    rewrite (Hout Hnot). reflexivity.
  - intros c rest Hc. unfold tokenize.
    change (Z.to_nat MAXTOKENS) with (S 99). rewrite tokenLoop_S.
    cbn [lowercase strsep]. rewrite tolower_delimiter, Hc. reflexivity.
  - cbn. intuition discriminate.
Qed.

Lemma unrecognized_command_witness :
  runLine all_succeed 0 " help" (initial all_succeed false)
  = Returned false
      (set_trace [Out stderr "Unrecognized command.\n" []]
         (set_gInterrupted false (initial all_succeed false))).
Proof.
  destruct (unrecognized_command all_succeed 0 [""; "help"]
              (initial all_succeed false)) as [H _].
  exact (H ltac:(vm_compute; reflexivity)
           ltac:(cbn; intuition discriminate)).
Defined.

(** ** The quit command *)

Lemma command_quit (E : env) (fuel : nat) (args : list string) (s : state) :
  gTokenCount ("quit" :: args) < MAXTOKENS ->
  command E fuel ("quit" :: args) s = Returned true (set_gInterrupted false s).
Proof.
  intros Hlt. rewrite command_dispatch by (unfold MAXTOKENS in *; lia).
  reflexivity.
Qed.

(** X6: the quit command, whatever follows it on its line, ends the loop
    of main: it calls nothing and prints nothing, and no line after it is
    run. *)
Theorem quit_ends_session (E : env) (fuel : nat) (before after : list (list string))
    (args : list string) (s : state) :
  gTokenCount ("quit" :: args) < MAXTOKENS ->
  command E fuel ("quit" :: args) s = Returned true (set_gInterrupted false s)
  /\ session E fuel (before ++ ("quit" :: args) :: after) s
     = session E fuel (before ++ [("quit" :: args)]) s.
Proof.
  intros Hlt. split; [apply command_quit, Hlt|].
  revert s. induction before as [|l before IH]; intros s.
  - cbn [app session]. rewrite !(bind_returned _ _ _ _ _ (command_quit E fuel args s Hlt)).
    reflexivity.
  - cbn [app session]. unfold bindM.
    destruct (command E fuel l s) as [[|] s1|s1]; [reflexivity|apply IH|reflexivity].
Qed.

Lemma quit_ends_session_witness :
  session all_succeed 1 [["model"; "select"]; ["quit"; "now"]; ["socket"]]
    (initial all_succeed false)
  = Returned tt
      (set_gInterrupted false (set_model SELECT_MODEL (initial all_succeed false))).
Proof.
  destruct (quit_ends_session all_succeed 1 [["model"; "select"]] [["socket"]]
              ["now"] (initial all_succeed false)
              ltac:(vm_compute; reflexivity)) as [_ H].
  cbn [app] in H. rewrite H. reflexivity.
Defined.

(** ** The display of the bytes received *)

(** The three characters copied from temp are the two digits of the low
    eight bits of the byte, whatever the sign of char, and the blank. *)
Lemma temp_triple (b : Z) : substring 6 3 (temp b) = twoDigits b.
Proof.
  unfold temp, twoDigits. cbn [hexdigits substring].
  change (2 ^ 32) with 4294967296.
  assert (H1 : (b mod 4294967296) mod 16 = b mod 16)
    by (Z.div_mod_to_equations; lia).
  assert (H2 : (b mod 4294967296 / 16) mod 16 = b mod 256 / 16)
    by (Z.div_mod_to_equations; lia).
  rewrite H1, H2. reflexivity.
Qed.

Lemma hexLoop_spec (buffer : list Z) (n : nat) :
  (n <= List.length buffer)%nat ->
  hexLoop buffer n = hexText (firstn n buffer)
  /\ String.length (hexLoop buffer n) = (3 * n)%nat.
Proof.
  revert buffer. induction n as [|n IH]; intros buffer Hn.
  { destruct buffer; split; reflexivity. }
  destruct buffer as [|b rest]; [cbn in Hn; lia|].
  cbn [hexLoop firstn hexText]. rewrite temp_triple.
  destruct (IH rest) as [Ht Hl]; [cbn in Hn; lia|].
  rewrite Ht. split; [reflexivity|].
  rewrite <- Ht. unfold twoDigits. cbn [append String.length]. rewrite Hl. lia.
Qed.

(** X7: what doRead and doRecvmsg show of the bytes received.  For a
    result between 0 and BUFFER_SIZE the loop writes three characters for
    each of the first MIN(result, 64) bytes of the buffer -- the two
    hexadecimal digits of the low eight bits of the byte, whether char is
    signed or not, and a blank -- so the text and the terminator after
    it stay inside the 193 bytes of hexBuffer. *)
Theorem hexBuffer_fits (buffer : list Z) (result : Z) :
  List.length buffer = Z.to_nat BUFFER_SIZE ->
  0 <= result <= BUFFER_SIZE ->
  hexBuffer buffer result
  = hexText (firstn (Z.to_nat (Z.min result MAX_DATA_DISPLAY)) buffer)
  /\ Z.of_nat (String.length (hexBuffer buffer result))
     = 3 * Z.min result MAX_DATA_DISPLAY
  /\ Z.of_nat (String.length (hexBuffer buffer result)) + 1
     <= MAX_DATA_DISPLAY * 3 + 1.
Proof.
  intros Hlen Hres. unfold hexBuffer, BUFFER_SIZE, MAX_DATA_DISPLAY in *.
  assert (Hmin : (if result <? 64 then result else 64) = Z.min result 64)
    by (destruct (Z.ltb_spec result 64); lia).
  rewrite Hmin.
  destruct (hexLoop_spec buffer (Z.to_nat (Z.min result 64))) as [Ht Hl]; [lia|].
  split; [exact Ht|]. rewrite Hl. lia.
Qed.

Lemma hexBuffer_fits_witness :
  hexBuffer ([-1; 65; 10] ++ repeat 0 97) 3 = "ff 41 0a "
  /\ hexBuffer (repeat 42 100) 100
     = hexText (repeat 42 64).
Proof.
  destruct (hexBuffer_fits (repeat 42 100) 100
              ltac:(reflexivity) ltac:(unfold BUFFER_SIZE; lia)) as [H _].
  split; [reflexivity|exact H].
Defined.

(** ** The blocking oracle *)

Lemma wrap_long_small (z : Z) : - 2 ^ 63 <= z < 2 ^ 63 -> wrap_long z = z.
Proof.
  unfold wrap_long. change (2 ^ 63) with 9223372036854775808.
  change (2 ^ 64) with 18446744073709551616.
  intros H. rewrite Z.mod_small by lia. lia.
Qed.

Lemma elapsed_exact (t0 t1 : timeval) :
  clock_time t0 -> clock_time t1 ->
  elapsed t0 t1 = microseconds t1 - microseconds t0.
Proof.
  unfold clock_time, elapsed, microseconds.
  change (2 ^ 40) with 1099511627776. intros [Hs0 Hu0] [Hs1 Hu1].
  rewrite (wrap_long_small (tv_sec t1 - tv_sec t0))
    by (change (2 ^ 63) with 9223372036854775808; lia).
  rewrite (wrap_long_small ((tv_sec t1 - tv_sec t0) * 1000000))
    by (change (2 ^ 63) with 9223372036854775808; lia).
  rewrite (wrap_long_small ((tv_sec t1 - tv_sec t0) * 1000000 + tv_usec t1))
    by (change (2 ^ 63) with 9223372036854775808; lia).
  rewrite wrap_long_small
    by (change (2 ^ 63) with 9223372036854775808; lia).
  lia.
Qed.

(** X8: with the clock in its everyday range the arithmetic of
    verifyBlocking does not wrap: delta is the time between the two
    gettimeofday calls in microseconds, the call counts as having blocked
    exactly when that is more than 1000000 -- one second sharp is not a
    block, nor is a clock that went backwards -- and one line is printed
    to stderr exactly when that differs from what was expected. *)
Theorem verifyBlocking_threshold (E : env) (expected : bool) (s : state) :
  clock_time (callTime s) ->
  clock_time (now (answer E sys_gettimeofday s)) ->
  let delta := microseconds (now (answer E sys_gettimeofday s))
               - microseconds (callTime s) in
  let blocked := 1000000 <? delta in
  elapsed (callTime s) (now (answer E sys_gettimeofday s)) = delta
  /\ mismatches (trace (final (verifyBlocking E expected s)))
     = ((if Bool.eqb blocked expected then []
         else [Out stderr "Error - API %s block.\n" [did blocked]])
        ++ mismatches (trace s))%list.
Proof.
  intros H0 H1. cbv zeta.
  pose proof (elapsed_exact _ _ H0 H1) as He.
  split; [exact He|].
  pose proof (verifyBlocking_report E expected s) as Hr. cbv zeta in Hr.
  rewrite He in Hr. unfold BLOCK_THRESHOLD in Hr.
  rewrite Z.gtb_ltb in Hr. exact Hr.
Qed.

Lemma verifyBlocking_threshold_witness :
  let s := with_sockets BLOCKING_MODEL 0 [5] in
  elapsed (callTime s) (mkTimeval 1 0) = 1000000
  /\ printed (trace (final (verifyBlocking one_second_later true s)))
     = [(stderr, "Error - API %s block.\n", [AStr "did not"])].
Proof.
  cbv zeta.
  destruct (verifyBlocking_threshold one_second_later true
              (with_sockets BLOCKING_MODEL 0 [5])
              ltac:(vm_compute; intuition discriminate)
              ltac:(vm_compute; intuition discriminate)) as [He _].
  split; [exact He|reflexivity].
Defined.

(** ** The flags of the descriptor *)

(** A call leaves the current socket and the handler of SIGIO where they
    are and adds itself to the calls of the log. *)
Lemma call_step (E : env) (c : syscall) (s : state) :
  currentSocket (final (call E c s)) = currentSocket s
  /\ filter is_sys (trace (final (call E c s)))
     = Sys c (answer E c s) :: filter is_sys (trace s)
  /\ sigioDisposition (final (call E c s)) = sigioDisposition s.
Proof.
  destruct (call_registry E c s) as [Hc [Hfd _]].
  destruct (call_beyond E c s) as [_ [_ [_ [Hd [_ [_ Ht]]]]]].
  split; [unfold currentSocket; rewrite Hc, Hfd; reflexivity|].
  split; [exact Ht|exact Hd].
Qed.

Ltac flag_update :=
  match goal with
  | |- context [bindM (gets currentSocket) _ ?s] =>
      rewrite (bind_returned _ _ _ _ _ (gets_returned currentSocket s))
  end;
  match goal with
  | |- context [bindM (call ?E ?c) _ ?s] =>
      rewrite (bind_returned _ _ _ _ _ (call_returned E c s));
      let Hfd := fresh "Hfd" in
      let Ht := fresh "Ht" in
      let Hd := fresh "Hd" in
      destruct (call_step E c s) as [Hfd [Ht Hd]];
      let s1 := fresh "s" in
      set (s1 := final (call E c s)) in *;
      clearbody s1; cbv beta zeta
  end.

Ltac flag_run :=
  flag_update;
  match goal with
  | |- context [if ?b then _ else _] => destruct b
  end; cbv iota;
  [ cbn -[filter currentSocket]; cbn [filter is_sys];
    split; [assumption|split; [assumption|assumption]]
  | flag_update;
    match goal with
    | H : currentSocket _ = currentSocket _ |- _ => rewrite H in *
    end;
    match goal with
    | |- context [if ?b then _ else _] => destruct b
    end; cbn -[filter currentSocket]; cbn [filter is_sys];
    (split; [assumption|split; [congruence|congruence]]) ].

(** The calls setFctlFlag makes: F_GETFL, and F_SETFL with the flag set
    when F_GETFL did not fail. *)
Lemma setFctlFlag_run (E : env) (flag : Z) (s : state) :
  let get := sys_fcntl (currentSocket s) F_GETFL 0 in
  let flags := ret (answer E get s) in
  let set := sys_fcntl (currentSocket s) F_SETFL (Z.lor flags flag) in
  currentSocket (final (setFctlFlag E flag s)) = currentSocket s
  /\ filter is_sys (trace (final (setFctlFlag E flag s)))
     = ((if flags <? 0 then [] else [Sys set (answer E set (final (call E get s)))])
        ++ Sys get (answer E get s) :: filter is_sys (trace s))%list
  /\ sigioDisposition (final (setFctlFlag E flag s)) = sigioDisposition s.
Proof. cbv zeta. unfold setFctlFlag. flag_run. Qed.

(** The calls clearFctlFlag makes: F_GETFL, and F_SETFL with the flag
    cleared when F_GETFL did not fail. *)
Lemma clearFctlFlag_run (E : env) (flag : Z) (s : state) :
  let get := sys_fcntl (currentSocket s) F_GETFL 0 in
  let flags := ret (answer E get s) in
  let set := sys_fcntl (currentSocket s) F_SETFL (Z.land flags (Z.lnot flag)) in
  currentSocket (final (clearFctlFlag E flag s)) = currentSocket s
  /\ filter is_sys (trace (final (clearFctlFlag E flag s)))
     = ((if flags <? 0 then [] else [Sys set (answer E set (final (call E get s)))])
        ++ Sys get (answer E get s) :: filter is_sys (trace s))%list
  /\ sigioDisposition (final (clearFctlFlag E flag s)) = sigioDisposition s.
Proof. cbv zeta. unfold clearFctlFlag. flag_run. Qed.

Ltac flag_log :=
  match goal with
  | |- context [bindM (gets currentSocket) _ ?s] =>
      rewrite (bind_returned _ _ _ _ _ (gets_returned currentSocket s))
  end;
  match goal with
  | |- context [bindM (call ?E ?c) _ ?s] =>
      rewrite (bind_returned _ _ _ _ _ (call_returned E c s));
      let He := fresh "He" in
      let Hfd := fresh "Hfd" in
      destruct (call_beyond E c s) as [_ [_ [_ [_ [He _]]]]];
      destruct (call_step E c s) as [Hfd _];
      change (sets_errno c) with true in He; cbn [andb] in He;
      cbv beta zeta
  end.

Lemma setFctlFlag_log (E : env) (flag : Z) (s : state) :
  trace (final (setFctlFlag E flag s)) = flagLog E (fun flags => Z.lor flags flag) s.
Proof.
  unfold setFctlFlag, flagLog. flag_log.
  set (get := sys_fcntl (currentSocket s) F_GETFL 0) in *.
  set (r := answer E get s) in *. clearbody r.
  set (s1 := final (call E get s)) in *. clearbody s1.
  destruct (ret r <? 0).
  - rewrite (bind_returned _ _ _ _ _ (gets_returned errno s1)), He. reflexivity.
  - flag_log. rewrite Hfd in *.
    set (set_ := sys_fcntl (currentSocket s) F_SETFL (Z.lor (ret r) flag)) in *.
    set (r2 := answer E set_ s1) in *. clearbody r2.
    set (s2 := final (call E set_ s1)) in *. clearbody s2.
    destruct (ret r2 <? 0); [|reflexivity].
    rewrite (bind_returned _ _ _ _ _ (gets_returned errno s2)), He0. reflexivity.
Qed.

Lemma clearFctlFlag_log (E : env) (flag : Z) (s : state) :
  trace (final (clearFctlFlag E flag s))
  = flagLog E (fun flags => Z.land flags (Z.lnot flag)) s.
Proof.
  unfold clearFctlFlag, flagLog. flag_log.
  set (get := sys_fcntl (currentSocket s) F_GETFL 0) in *.
  set (r := answer E get s) in *. clearbody r.
  set (s1 := final (call E get s)) in *. clearbody s1.
  destruct (ret r <? 0).
  - rewrite (bind_returned _ _ _ _ _ (gets_returned errno s1)), He. reflexivity.
  - flag_log. rewrite Hfd in *.
    set (set_ := sys_fcntl (currentSocket s) F_SETFL (Z.land (ret r) (Z.lnot flag))) in *.
    set (r2 := answer E set_ s1) in *. clearbody r2.
    set (s2 := final (call E set_ s1)) in *. clearbody s2.
    destruct (ret r2 <? 0); [|reflexivity].
    rewrite (bind_returned _ _ _ _ _ (gets_returned errno s2)), He0. reflexivity.
Qed.

(** X9: setFctlFlag and clearFctlFlag read the flags of the current
    socket with F_GETFL and write them back with F_SETFL, the bits of
    [flag] set (flags | flag) or cleared (flags & ~flag) and every other
    bit as it was read; when F_GETFL fails they print the error, with the
    text of the errno the call left, and do not call F_SETFL; when F_SETFL
    fails they print its error; otherwise they print nothing.  They make
    no other call.  So when F_GETFL answers what setFctlFlag wrote,
    clearFctlFlag writes the flags back as they were before, if the bits
    of [flag] were clear then. *)
Theorem fcntl_flag_update (E : env) (flag : Z) (s : state) :
  let fd := currentSocket s in
  let get := sys_fcntl fd F_GETFL 0 in
  let flags := ret (answer E get s) in
  let s1 := final (call E get s) in
  let written (v : Z) := Sys (sys_fcntl fd F_SETFL v) (answer E (sys_fcntl fd F_SETFL v) s1) in
  let after (v : Z) :=
    let r2 := answer E (sys_fcntl fd F_SETFL v) s1 in
    let s2 := final (call E (sys_fcntl fd F_SETFL v) s1) in
    if ret r2 <? 0
    then Out stderr "Error on F_SETFL - %s.\n" [AStrerror (err r2)] :: trace s2
    else trace s2 in
  (flags < 0 ->
   filter is_sys (trace (final (setFctlFlag E flag s)))
   = Sys get (answer E get s) :: filter is_sys (trace s)
   /\ filter is_sys (trace (final (clearFctlFlag E flag s)))
      = Sys get (answer E get s) :: filter is_sys (trace s)
   /\ trace (final (setFctlFlag E flag s))
      = Out stderr "Error on F_GETFL - %s.\n" [AStrerror (err (answer E get s))]
        :: trace s1
   /\ trace (final (clearFctlFlag E flag s))
      = Out stderr "Error on F_GETFL - %s.\n" [AStrerror (err (answer E get s))]
        :: trace s1)
  /\ (0 <= flags ->
      filter is_sys (trace (final (setFctlFlag E flag s)))
      = written (Z.lor flags flag) :: Sys get (answer E get s)
        :: filter is_sys (trace s)
      /\ filter is_sys (trace (final (clearFctlFlag E flag s)))
         = written (Z.land flags (Z.lnot flag)) :: Sys get (answer E get s)
           :: filter is_sys (trace s)
      /\ trace (final (setFctlFlag E flag s)) = after (Z.lor flags flag)
      /\ trace (final (clearFctlFlag E flag s))
         = after (Z.land flags (Z.lnot flag)))
  /\ (forall before, Z.land before flag = 0 -> flags = Z.lor before flag ->
      Z.land flags (Z.lnot flag) = before).
Proof.
  cbv zeta.
  destruct (setFctlFlag_run E flag s) as [_ [Hs _]].
  destruct (clearFctlFlag_run E flag s) as [_ [Hc _]].
  pose proof (setFctlFlag_log E flag s) as Ls.
  pose proof (clearFctlFlag_log E flag s) as Lc.
  unfold flagLog, fcntlError in Ls, Lc.
  cbv zeta in Hs, Hc. split; [|split].
  - intros Hneg. apply Z.ltb_lt in Hneg. rewrite Hneg in Hs, Hc, Ls, Lc.
    repeat split; assumption.
  - intros Hpos. apply Z.ltb_ge in Hpos. rewrite Hpos in Hs, Hc, Ls, Lc.
    repeat split; assumption.
  - intros before Hclear ->. rewrite Z.land_lor_distr_l.
    rewrite Z.land_lnot_diag, Z.lor_0_r.
    apply Z.bits_inj'. intros n Hn.
    rewrite Z.land_spec, Z.lnot_spec by exact Hn.
    assert (Hb : Z.testbit (Z.land before flag) n = false)
      by (rewrite Hclear; apply Z.bits_0).
    rewrite Z.land_spec in Hb.
    destruct (Z.testbit before n), (Z.testbit flag n); cbn in *; congruence.
Qed.

(** With O_NONBLOCK = 2048 and the flags read as 2, setFctlFlag writes
    2050. *)
Lemma fcntl_flag_update_witness :
  filter is_sys
    (trace (final (setFctlFlag (linux (fun _ _ => plain 2)) 2048
                     (with_sockets BLOCKING_MODEL 0 [5]))))
  = [Sys (sys_fcntl 5 F_SETFL 2050) (plain 2); Sys (sys_fcntl 5 F_GETFL 0) (plain 2)].
Proof.
  destruct (fcntl_flag_update (linux (fun _ _ => plain 2)) 2048
              (with_sockets BLOCKING_MODEL 0 [5])) as [_ [H _]].
  destruct (H ltac:(vm_compute; discriminate)) as [Hs _].
  exact Hs.
Defined.

(** ** The retry loop, whatever the model *)

Lemma postAPISetup_ops E r s :
  ops (trace (final (postAPISetup E r s))) = ops (trace s).
Proof.
  apply (keeps_postAPISetup E _ _ _ (ops_frame E)); cbv beta; reflexivity.
Qed.

Lemma preAPISetup_registry E fuel c s :
  gCurrent (final (preAPISetup E fuel c s)) = gCurrent s
  /\ gSockfd (final (preAPISetup E fuel c s)) = gSockfd s
  /\ model (final (preAPISetup E fuel c s)) = model s.
Proof.
  assert (H : keeps (same (fun s => (gCurrent s, gSockfd s, model s)))
                (preAPISetup E fuel c))
    by (apply (keeps_preAPISetup E fuel _ _ _ (registry_frame E));
        try (intros; exact I); intros; reflexivity).
  specialize (H s). unfold same in H. cbv beta in H.
  set (s' := final (preAPISetup E fuel c s)) in *. clearbody s'.
  injection H as H1 H2 H3. auto.
Qed.

Lemma postAPISetup_registry E r s :
  gCurrent (final (postAPISetup E r s)) = gCurrent s
  /\ gSockfd (final (postAPISetup E r s)) = gSockfd s
  /\ model (final (postAPISetup E r s)) = model s.
Proof.
  assert (H : keeps (same (fun s => (gCurrent s, gSockfd s, model s)))
                (postAPISetup E r))
    by (apply (keeps_postAPISetup E _ _ _ (registry_frame E));
        try (intros; exact I); intros; reflexivity).
  specialize (H s). unfold same in H. cbv beta in H.
  set (s' := final (postAPISetup E r s)) in *. clearbody s'.
  injection H as H1 H2 H3. auto.
Qed.

(** The call of the operation in the retry loop: one more operation in
    the log, the registry and the model as they were. *)
Lemma op_call (E : env) (c : syscall) (s : state) :
  is_op (Sys c (answer E c s)) = true ->
  ops (trace (final (call E c s))) = Sys c (answer E c s) :: ops (trace s)
  /\ gCurrent (final (call E c s)) = gCurrent s
  /\ gSockfd (final (call E c s)) = gSockfd s
  /\ model (final (call E c s)) = model s.
Proof.
  intros Hop. split; [|apply call_registry].
  unfold ops. rewrite call_filter by reflexivity. rewrite Hop. reflexivity.
Qed.


(** X10: in the blocking model the retry loop never goes round twice:
    it starts timing, calls the operation once on the current socket and
    ends with its result, whatever that is -- a failure is not retried --
    unless a signal raised the interrupt flag while timing started, and
    then it ends without the call. *)
Theorem blocking_calls_once (E : env) (fuel n : nat) (cond : readyCondition)
    (api : sockop) (args : list Z) (s : state) :
  model s = BLOCKING_MODEL ->
  let run := callAPILoop E fuel (S n) cond api args s in
  let s1 := final (blockingPreAPISetup E cond s) in
  (gInterrupted s1 = true ->
   run = Returned None s1 /\ ops (trace s1) = ops (trace s))
  /\ (gInterrupted s1 = false ->
      exists r, run = Returned (Some (ret r)) (final run)
                /\ ops (trace (final run))
                   = Sys (sys_op api (currentSocket s) args) r :: ops (trace s)).
Proof.
  intros Hm. cbv zeta. rewrite callAPILoop_S.
  assert (Hpre : preAPISetup E fuel cond s
                 = Returned tt (final (blockingPreAPISetup E cond s))).
  { unfold preAPISetup.
    rewrite (bind_returned _ _ _ _ _ (gets_returned model s)), Hm. cbv beta iota.
    apply returns_tt, returns_blockingPreAPISetup. }
  pose proof (preAPISetup_ops E fuel cond s) as Ho1.
  destruct (preAPISetup_registry E fuel cond s) as [Hc1 [Hf1 Hm1]].
  rewrite Hpre, final_returned in Ho1, Hc1, Hf1, Hm1.
  rewrite (bind_returned _ _ _ _ _ Hpre).
  set (s1 := final (blockingPreAPISetup E cond s)) in *. clearbody s1.
  rewrite (bind_returned _ _ _ _ _ (gets_returned gInterrupted s1)).
  split; intros Hi; rewrite Hi.
  { split; [reflexivity|exact Ho1]. }
  rewrite (bind_returned _ _ _ _ _ (gets_returned currentSocket s1)).
  assert (Hfd : currentSocket s1 = currentSocket s)
    by (unfold currentSocket; rewrite Hc1, Hf1; reflexivity).
  rewrite Hfd. set (c := sys_op api (currentSocket s) args).
  rewrite (bind_returned _ _ _ _ _ (call_returned E c s1)).
  destruct (op_call E c s1 eq_refl) as [Ho2 [_ [_ Hm2]]].
  set (r := answer E c s1) in *. set (s2 := final (call E c s1)) in *.
  clearbody r s2.
  assert (Hpost : postAPISetup E (ret r) s2
                  = Returned true (final (postAPISetup E (ret r) s2))).
  { unfold postAPISetup.
    rewrite (bind_returned _ _ _ _ _ (gets_returned model s2)).
    rewrite Hm2, Hm1, Hm. cbv beta iota.
    apply (proj1 (blockingPostAPISetup_verifies E (ret r) s2)). }
  pose proof (postAPISetup_ops E (ret r) s2) as Ho3.
  rewrite (bind_returned _ _ _ _ _ Hpost).
  set (s3 := final (postAPISetup E (ret r) s2)) in *. clearbody s3.
  exists r. unfold retM. rewrite final_returned.
  split; [reflexivity|]. congruence.
Qed.

Lemma blocking_calls_once_witness :
  let s := with_sockets BLOCKING_MODEL 0 [5] in
  exists s',
    callAPILoop all_succeed 0 1 READ_READY READ [100] s = Returned (Some 0) s'
    /\ ops (trace s') = [Sys (sys_op READ 5 [100]) (plain 0)].
Proof.
  cbv zeta.
  destruct (blocking_calls_once all_succeed 0 0 READ_READY READ [100]
              (with_sockets BLOCKING_MODEL 0 [5]) eq_refl) as [_ H].
  destruct (H ltac:(vm_compute; reflexivity)) as [r [Hrun Hops]].
  exists (final (callAPILoop all_succeed 0 1 READ_READY READ [100]
                   (with_sockets BLOCKING_MODEL 0 [5]))).
  split; vm_compute; reflexivity.
Defined.

(** ** The signal handlers *)

Lemma handler_flags (sg : signo) (s : state) :
  gInterrupted (final (handler_of sg s s)) = gInterrupted s || interrupts sg
  /\ sigioReceived (final (handler_of sg s s))
     = sigioReceived s || (expects_SIGIO s && is_SIGIO sg)
  /\ expects_SIGIO (final (handler_of sg s s)) = expects_SIGIO s.
Proof.
  unfold expects_SIGIO.
  destruct sg; destruct (sigioDisposition s) eqn:Hd;
    destruct (gVerbose s) eqn:Hv; do 3 (cbn; rewrite ?Hd, ?Hv);
    rewrite ?orb_true_r, ?orb_false_r, ?andb_false_r, ?orb_false_r;
    (split; [|split]); reflexivity.
Qed.

(** X12: what the handlers do with the signals that arrive during a
    call.  SIGINT, SIGTSTP and SIGPIPE raise the interrupt flag; SIGIO
    raises sigioReceived when the handler of the signal model is
    installed, and does neither when it is not (the handler for an
    unexpected SIGIO only prints); no handler lowers a flag, and none
    touches the selection, the registry, the model, errno or the calls of
    the log. *)
Theorem signals_raise_flags (E : env) (c : syscall) (sgs : list signo) (s : state) :
  (gInterrupted (deliver sgs s) = gInterrupted s || existsb interrupts sgs
   /\ sigioReceived (deliver sgs s)
      = sigioReceived s || (expects_SIGIO s && existsb is_SIGIO sgs)
   /\ beyond_signals (deliver sgs s) = beyond_signals s)
  /\ (existsb interrupts (sigs (answer E c s)) = true ->
      gInterrupted (final (call E c s)) = true).
Proof.
  assert (Hd : forall sgs s,
             gInterrupted (deliver sgs s) = gInterrupted s || existsb interrupts sgs
             /\ sigioReceived (deliver sgs s)
                = sigioReceived s || (expects_SIGIO s && existsb is_SIGIO sgs)).
  { clear. intros sgs. induction sgs as [|sg sgs IH]; intros s.
    - cbn. rewrite !orb_false_r, andb_false_r, orb_false_r. split; reflexivity.
    - cbn [deliver fold_left existsb].
      fold (deliver sgs (final (handler_of sg s s))).
      destruct (IH (final (handler_of sg s s))) as [Hi Hr].
      destruct (handler_flags sg s) as [Hi1 [Hr1 He1]].
      rewrite Hi, Hr, Hi1, Hr1, He1. split.
      + rewrite orb_assoc. reflexivity.
      + destruct (sigioReceived s), (expects_SIGIO s), (is_SIGIO sg),
          (existsb is_SIGIO sgs); reflexivity. }
  split.
  - destruct (Hd sgs s) as [Hi Hr].
    split; [exact Hi|]. split; [exact Hr|apply deliver_beyond].
  - intros Hint. unfold call, answer in *. rewrite final_returned.
    destruct (Hd (sigs (respond E c (earlier c (trace s))))
                (if sets_errno c && (ret (respond E c (earlier c (trace s))) <? 0)
                 then set_errno (err (respond E c (earlier c (trace s))))
                        (set_trace (Sys c (respond E c (earlier c (trace s))) :: trace s) s)
                 else set_trace (Sys c (respond E c (earlier c (trace s))) :: trace s) s))
      as [Hi _].
    rewrite Hi, Hint. apply orb_true_r.
Qed.

(** ** After the call, in the signal model *)

Lemma verifyBlocking_run (E : env) (expected : bool) (s : state) :
  currentSocket (final (verifyBlocking E expected s)) = currentSocket s
  /\ filter is_sys (trace (final (verifyBlocking E expected s)))
     = Sys sys_gettimeofday (answer E sys_gettimeofday s) :: filter is_sys (trace s)
  /\ sigioDisposition (final (verifyBlocking E expected s)) = sigioDisposition s.
Proof.
  unfold verifyBlocking.
  rewrite (bind_returned _ _ _ _ _ (call_returned E _ s)).
  destruct (call_step E sys_gettimeofday s) as [Hfd [Ht Hd]].
  set (s1 := final (call E sys_gettimeofday s)) in *. clearbody s1.
  unfold bindM, gets.
  destruct (Bool.eqb _ expected); cbn [negb];
    [destruct (gVerbose s1)|]; cbn -[filter currentSocket]; cbn [filter is_sys];
    (split; [assumption|split; assumption]).
Qed.

Lemma signal_SIGIO_run (E : env) (h : sighandler) (s : state) :
  currentSocket (final (signal_SIGIO E h s)) = currentSocket s
  /\ filter is_sys (trace (final (signal_SIGIO E h s)))
     = Sys (sys_signal h) (answer E (sys_signal h) s) :: filter is_sys (trace s)
  /\ sigioDisposition (final (signal_SIGIO E h s))
     = if ret (answer E (sys_signal h) s) <? 0 then sigioDisposition s else h.
Proof.
  unfold signal_SIGIO.
  rewrite (bind_returned _ _ _ _ _ (call_returned E _ s)).
  destruct (call_step E (sys_signal h) s) as [Hfd [Ht Hd]].
  set (s1 := final (call E (sys_signal h) s)) in *. clearbody s1.
  destruct (ret _ <? 0); cbn -[filter currentSocket];
    (split; [assumption|split; [assumption|try assumption; reflexivity]]).
Qed.

(** X13: after the call, in the signal model.  signalPostAPISetup times
    the call, counting any block as a mismatch, and puts the handler for
    an unexpected SIGIO back with signal(); when that succeeds it clears
    O_ASYNC on the current socket and gives done, so the operation is
    called once, and nothing is printed but what clearFctlFlag prints.
    When signal() fails it prints the line "Error - signal() returned
    SIG_ERR." on stderr and returns with a bare return: the handler stays
    as it was, O_ASYNC stays set (no fcntl call is made), and whether the
    loop goes round again is left to what the caller finds as the
    result. *)
Theorem signal_finish (E : env) (apiResult : Z) (s : state) :
  let s1 := final (verifyBlocking E false s) in
  let restore := sys_signal defaultSIGIOHandler_ in
  let s2 := final (signal_SIGIO E defaultSIGIOHandler_ s1) in
  let get := sys_fcntl (currentSocket s) F_GETFL 0 in
  let flags := ret (answer E get s2) in
  let set := sys_fcntl (currentSocket s) F_SETFL (Z.land flags (Z.lnot (O_ASYNC E))) in
  let sf := final (signalPostAPISetup E apiResult s) in
  let timed := [Sys restore (answer E restore s1);
                Sys sys_gettimeofday (answer E sys_gettimeofday s)] in
  (ret (answer E restore s1) < 0 ->
   signalPostAPISetup E apiResult s = Returned (negb (indeterminate E =? 0)) sf
   /\ sigioDisposition sf = sigioDisposition s
   /\ filter is_sys (trace sf) = (timed ++ filter is_sys (trace s))%list
   /\ trace sf = Out stderr "Error - signal() returned SIG_ERR.\n" [] :: trace s2)
  /\ (0 <= ret (answer E restore s1) ->
      signalPostAPISetup E apiResult s = Returned true sf
      /\ sigioDisposition sf = defaultSIGIOHandler_
      /\ filter is_sys (trace sf)
         = ((if flags <? 0 then []
             else [Sys set (answer E set (final (call E get s2)))])
            ++ Sys get (answer E get s2) :: timed ++ filter is_sys (trace s))%list
      /\ trace sf = trace (final (clearFctlFlag E (O_ASYNC E) s2))).
Proof.
  cbv zeta. unfold signalPostAPISetup.
  rewrite bind_tt by apply returns_verifyBlocking.
  destruct (verifyBlocking_run E false s) as [Hfd1 [Ht1 Hd1]].
  set (s1 := final (verifyBlocking E false s)) in *. clearbody s1.
  rewrite (bind_returned _ _ _ _ _ (signal_SIGIO_value E defaultSIGIOHandler_ s1)).
  destruct (signal_SIGIO_run E defaultSIGIOHandler_ s1) as [Hfd2 [Ht2 Hd2]].
  set (rs := answer E (sys_signal defaultSIGIOHandler_) s1) in *.
  set (s2 := final (signal_SIGIO E defaultSIGIOHandler_ s1)) in *.
  clearbody rs s2.
  split; intros Hret.
  - apply Z.ltb_lt in Hret. rewrite Hret in *.
    rewrite bind_tt by apply returns_fprintf.
    unfold retM, fprintf, modify. rewrite !final_returned.
    split; [reflexivity|]. cbn -[filter]. cbn [filter is_sys].
    split; [congruence|]. split; [rewrite Ht2, Ht1; reflexivity|reflexivity].
  - apply Z.ltb_ge in Hret. rewrite Hret in *.
    rewrite bind_tt by apply returns_clearFctlFlag.
    destruct (clearFctlFlag_run E (O_ASYNC E) s2) as [_ [Ht3 Hd3]].
    cbv zeta in Ht3. rewrite Hfd2, Hfd1 in Ht3.
    set (s3 := final (clearFctlFlag E (O_ASYNC E) s2)) in *. clearbody s3.
    unfold retM. rewrite final_returned.
    split; [reflexivity|]. split; [congruence|].
    split; [rewrite Ht3, Ht2, Ht1; reflexivity|reflexivity].
Qed.

(** ** The arguments of the commands *)

(** X14: the number of tokens each command insists on.  With another
    number the handler prints a usage line and does nothing else: no
    argument is parsed and no call is made.  use and shutdown take one
    argument, bind and connect one or two, listen at most one,
    setsockopt four, getsockopt three, multijoin and multileave two --
    and multileave prints the usage line of multijoin. *)
Theorem wrong_argument_count (E : env) (fuel : nat) (gTokens : list string)
    (s : state) :
  let n := gTokenCount gTokens in
  (n <> 2 ->
   doUse E gTokens s = usage_only CMD_USE s
   /\ doShutdown E gTokens s = usage_only CMD_SHUTDOWN s)
  /\ (n < 2 \/ 3 < n ->
      doBind E gTokens s = usage_only CMD_BIND s
      /\ doConnect E fuel gTokens s = usage_only CMD_CONNECT s)
  /\ (2 < n -> doListen E gTokens s = usage_only CMD_LISTEN s)
  /\ (n <> 5 -> doSetsockopt E gTokens s = usage_only CMD_SETSOCKOPT s)
  /\ (n <> 4 -> doGetsockopt E gTokens s = usage_only CMD_GETSOCKOPT s)
  /\ (n <> 3 ->
      doMultijoin E gTokens s = usage_only CMD_MULTIJOIN s
      /\ doMultileave E gTokens s = usage_only CMD_MULTIJOIN s).
Proof.
  cbv zeta. set (n := gTokenCount gTokens).
  split; [|split; [|split; [|split; [|split]]]].
  - intros H. apply Z.eqb_neq in H.
    unfold doUse, doShutdown. fold n. rewrite H. split; reflexivity.
  - intros H.
    assert (Ht : (n <? 2) || (n >? 3) = true)
      by (destruct (Z.ltb_spec n 2), (Z.gtb_spec n 3); cbn; lia).
    unfold doBind, doConnect. fold n. rewrite Ht. split; reflexivity.
  - intros H. assert (Ht : (n >? 2) = true) by lia.
    unfold doListen. fold n. rewrite Ht. reflexivity.
  - intros H. apply Z.eqb_neq in H.
    unfold doSetsockopt. fold n. rewrite H. reflexivity.
  - intros H. apply Z.eqb_neq in H.
    unfold doGetsockopt. fold n. rewrite H. reflexivity.
  - intros H. apply Z.eqb_neq in H.
    unfold doMultijoin, doMultileave, doMembership. fold n. rewrite H.
    split; reflexivity.
Qed.

(** One call on the current socket, with the report of a failure. *)
Lemma plainAPI_run (E : env) (api : sockop) (args : list Z) (s : state) :
  let c := sys_op api (currentSocket s) args in
  plainAPI E api args s = Returned (answer E c s) (final (plainAPI E api args s))
  /\ filter is_sys (trace (final (plainAPI E api args s)))
     = Sys c (answer E c s) :: filter is_sys (trace s).
Proof.
  cbv zeta. unfold plainAPI.
  rewrite (bind_returned _ _ _ _ _ (gets_returned currentSocket s)).
  rewrite (bind_returned _ _ _ _ _ (call_returned E _ s)).
  destruct (call_step E (sys_op api (currentSocket s) args) s) as [_ [Ht _]].
  set (r := answer E (sys_op api (currentSocket s) args) s) in *.
  set (s1 := final (call E (sys_op api (currentSocket s) args) s)) in *.
  clearbody r s1.
  destruct (ret r <? 0); cbn -[filter]; cbn [filter is_sys];
    (split; [reflexivity|exact Ht]).
Qed.

Lemma then_tt_final {A : Type} (m : M A) (s : state) :
  final ((r <- m ;; retM tt) s) = final (m s).
Proof. unfold bindM. destruct (m s); reflexivity. Qed.

(** X17: setsockopt and getsockopt with the right number of tokens.  The
    level, the option and (for setsockopt) the value are read as integers
    and passed on as they are, in one call on the current socket; the
    token between the option and the value, where the usage line shows
    -i, is never looked at. *)
Theorem sockopt_arguments (E : env) (cmd level opt flagTok value : string)
    (l o v : Z) (s : state) :
  sscanf_i E level = Some l -> sscanf_i E opt = Some o ->
  sscanf_i E value = Some v ->
  filter is_sys (trace (final (doSetsockopt E [cmd; level; opt; flagTok; value] s)))
  = Sys (sys_op SETSOCKOPT (currentSocket s) [l; o; v])
      (answer E (sys_op SETSOCKOPT (currentSocket s) [l; o; v]) s)
    :: filter is_sys (trace s)
  /\ filter is_sys (trace (final (doGetsockopt E [cmd; level; opt; flagTok] s)))
     = Sys (sys_op GETSOCKOPT (currentSocket s) [l; o])
         (answer E (sys_op GETSOCKOPT (currentSocket s) [l; o]) s)
       :: filter is_sys (trace s).
Proof.
  intros Hl Ho Hv. split.
  - unfold doSetsockopt, setIntegerArgument.
    cbn [gTokenCount List.length Z.of_nat token nth].
    change (negb (Z.pos (Pos.of_succ_nat 4) =? 5)) with false. cbv iota.
    rewrite Hl. unfold retM at 1. rewrite (bind_returned _ _ _ _ _ eq_refl).
    rewrite Ho. unfold retM at 1. rewrite (bind_returned _ _ _ _ _ eq_refl).
    rewrite Hv. unfold retM at 1. rewrite (bind_returned _ _ _ _ _ eq_refl).
    rewrite then_tt_final. apply plainAPI_run.
  - unfold doGetsockopt, setIntegerArgument.
    cbn [gTokenCount List.length Z.of_nat token nth].
    change (negb (Z.pos (Pos.of_succ_nat 3) =? 4)) with false. cbv iota.
    rewrite Hl. unfold retM at 1. rewrite (bind_returned _ _ _ _ _ eq_refl).
    rewrite Ho. unfold retM at 1. rewrite (bind_returned _ _ _ _ _ eq_refl).
    destruct (plainAPI_run E GETSOCKOPT [l; o] s) as [Hrun Ht].
    rewrite (bind_returned _ _ _ _ _ Hrun).
    set (s1 := final (plainAPI E GETSOCKOPT [l; o] s)) in *. clearbody s1.
    destruct (ret _ <? 0); cbn -[filter]; cbn [filter is_sys]; exact Ht.
Qed.

Lemma sockopt_arguments_witness :
  filter is_sys
    (trace (final (doSetsockopt all_succeed
                     ["setsockopt"; "1"; "2"; "anything"; "7"]
                     (with_sockets BLOCKING_MODEL 0 [5]))))
  = [Sys (sys_op SETSOCKOPT 5 [1; 2; 7]) (plain 0)].
Proof.
  destruct (sockopt_arguments all_succeed "setsockopt" "1" "2" "anything" "7"
              1 2 7 (with_sockets BLOCKING_MODEL 0 [5])
              eq_refl eq_refl eq_refl) as [H _].
  exact H.
Defined.

(** The search of getNamedValue in its table of names. *)
Lemma searchNames_absent (tok : string) (names : list (string * Z)) :
  searchNames tok names = None <-> (In tok (map fst names) -> False).
Proof.
  induction names as [|[name v] rest IH]; cbn [searchNames map fst In].
  - split; [intros _ []|reflexivity].
  - destruct (String.eqb tok name) eqn:Hn.
    + apply String.eqb_eq in Hn. split; [discriminate|].
      intros H. exfalso. apply H. left. symmetry. exact Hn.
    + apply String.eqb_neq in Hn. rewrite IH. split.
      * intros H [Heq|Hin]; [congruence|auto].
      * intros H Hin. apply H. right. exact Hin.
Qed.

(** X15: the option of the shutdown command.  The names shut_rd, shut_wr
    and shut_rdwr, in any mix of upper and lower case, give SHUT_RD,
    SHUT_WR and SHUT_RDWR; any other token that strtol reads as a number
    is passed to shutdown() as it is, whatever the number; anything else
    gets two lines on stderr and no call.  Either way at most one call is
    made, on the current socket. *)
Theorem shutdown_option (E : env) (cmd tok : string) (s : state) :
  let run := doShutdown E [cmd; tok] s in
  let called (how : Z) :=
    filter is_sys (trace (final run))
    = Sys (sys_op SHUTDOWN (currentSocket s) [how])
        (answer E (sys_op SHUTDOWN (currentSocket s) [how]) s)
      :: filter is_sys (trace s) in
  let other :=
    In (lowercase tok) ["shut_rd"; "shut_wr"; "shut_rdwr"] -> False in
  (lowercase tok = "shut_rd" -> called (SHUT_RD E))
  /\ (lowercase tok = "shut_wr" -> called (SHUT_WR E))
  /\ (lowercase tok = "shut_rdwr" -> called (SHUT_RDWR E))
  /\ (other -> forall how, strtol E (lowercase tok) = Some how -> called how)
  /\ (other -> strtol E (lowercase tok) = None ->
      run = Returned tt
              (set_trace
                 (Out stderr "Invalid shutdown option value.\n" []
                  :: Out stderr "%s is not a recognized option value.\n"
                       [AStr (lowercase tok)]
                  :: trace s) s)).
Proof.
  cbv zeta.
  assert (Hcall : forall how,
             getNamedValue E tok
               [("shut_rd", SHUT_RD E); ("shut_wr", SHUT_WR E);
                ("shut_rdwr", SHUT_RDWR E)] s = Returned (0, how) s ->
             filter is_sys (trace (final (doShutdown E [cmd; tok] s)))
             = Sys (sys_op SHUTDOWN (currentSocket s) [how])
                 (answer E (sys_op SHUTDOWN (currentSocket s) [how]) s)
               :: filter is_sys (trace s)).
  { intros how Hv. unfold doShutdown.
    cbn [gTokenCount List.length Z.of_nat token nth].
    change (negb (Z.pos (Pos.of_succ_nat 1) =? 2)) with false. cbv iota.
    rewrite (bind_returned _ _ _ _ _ Hv).
    change (negb (0 =? 0)) with false. cbv iota.
    rewrite then_tt_final. apply plainAPI_run. }
  assert (Hother : (In (lowercase tok) ["shut_rd"; "shut_wr"; "shut_rdwr"] -> False) ->
                   searchNames (lowercase tok)
                     [("shut_rd", SHUT_RD E); ("shut_wr", SHUT_WR E);
                      ("shut_rdwr", SHUT_RDWR E)] = None).
  { intros H. apply searchNames_absent. exact H. }
  split; [|split; [|split; [|split]]].
  - intros Ht. apply Hcall. unfold getNamedValue. rewrite Ht. reflexivity.
  - intros Ht. apply Hcall. unfold getNamedValue. rewrite Ht. reflexivity.
  - intros Ht. apply Hcall. unfold getNamedValue. rewrite Ht. reflexivity.
  - intros Ho how Hn. apply Hcall. unfold getNamedValue.
    rewrite (Hother Ho), Hn. reflexivity.
  - intros Ho Hn. unfold doShutdown.
    cbn [gTokenCount List.length Z.of_nat token nth].
    change (negb (Z.pos (Pos.of_succ_nat 1) =? 2)) with false. cbv iota.
    unfold getNamedValue. rewrite (Hother Ho), Hn. reflexivity.
Qed.

Lemma shutdown_option_witness :
  filter is_sys
    (trace (final (doShutdown all_succeed ["shutdown"; "SHUT_wr"]
                     (with_sockets BLOCKING_MODEL 0 [5]))))
  = [Sys (sys_op SHUTDOWN 5 [1]) (plain 0)]
  /\ filter is_sys
       (trace (final (doShutdown all_succeed ["shutdown"; "77"]
                        (with_sockets BLOCKING_MODEL 0 [5]))))
     = [Sys (sys_op SHUTDOWN 5 [77]) (plain 0)].
Proof.
  split.
  - destruct (shutdown_option all_succeed "shutdown" "SHUT_wr"
                (with_sockets BLOCKING_MODEL 0 [5])) as [_ [H _]].
    exact (H eq_refl).
  - destruct (shutdown_option all_succeed "shutdown" "77"
                (with_sockets BLOCKING_MODEL 0 [5])) as [_ [_ [_ [H _]]]].
    exact (H ltac:(cbn; intuition discriminate) 77 eq_refl).
Defined.

(** ** The slots in use *)

(** The search for a free slot gives an unused slot of the registry and
    changes nothing, or gives -1 and only prints. *)
Lemma findFreeSocketSlot_unused (s : state) :
  (exists i, findFreeSocketSlot s = Returned i s /\ is_slot i = true
             /\ gSockfd s i = UNUSED_FD)
  \/ (exists s1, findFreeSocketSlot s = Returned (-1) s1
                 /\ gCurrent s1 = gCurrent s /\ gSockfd s1 = gSockfd s).
Proof.
  pose proof (scanSlots_first (gSockfd s) (Z.to_nat MAXSOCKETS) 0) as H.
  cbn zeta in H. destruct H as [Hr [_ Hf]].
  unfold findFreeSocketSlot, bindM, gets.
  set (j := scanSlots (gSockfd s) 0 (Z.to_nat MAXSOCKETS)) in *.
  destruct (j >=? MAXSOCKETS) eqn:Hge.
  - right. eexists. split; [reflexivity|]. split; reflexivity.
  - left. exists j. split; [reflexivity|].
    unfold is_slot, MAXSOCKETS in *.
    change (Z.of_nat (Z.to_nat 10)) with 10 in *.
    split; [lia|]. apply Hf. lia.
Qed.

Lemma doAccept_slots (E : env) (fuel : nat) (s : state) (k : Z) :
  gSockfd s k <> UNUSED_FD ->
  gSockfd (final (doAccept E fuel s)) k = gSockfd s k.
Proof.
  intros Hk. unfold doAccept.
  destruct (findFreeSocketSlot_unused s)
    as [[i [Hi [Hslot Hfree]]]|[s1 [Hi [_ Hfd]]]];
    rewrite (bind_returned _ _ _ _ _ Hi).
  - assert (Hneg : (i <? 0) = false) by (unfold is_slot in Hslot; lia).
    rewrite Hneg.
    pose proof (callAPI_selection E fuel READ_READY ACCEPT [] s) as Hkeep.
    unfold same in Hkeep. cbv beta in Hkeep. rewrite final_bind.
    destruct (callAPI E fuel READ_READY ACCEPT [] s) as [r s2|s2];
      rewrite ?final_returned, ?final_spinning in Hkeep;
      injection Hkeep as _ Hfd; [|rewrite Hfd; reflexivity].
    destruct r as [result|]; [|cbn; rewrite Hfd; reflexivity].
    destruct (result <? 0); cbn; [rewrite Hfd; reflexivity|].
    destruct (k =? i) eqn:Hki; [|rewrite Hfd; reflexivity].
    apply Z.eqb_eq in Hki. congruence.
  - change (-1 <? 0) with true. cbv iota. unfold retM. rewrite final_returned.
    rewrite Hfd. reflexivity.
Qed.

Lemma doSocket_slots (E : env) (fuel : nat) (gTokens : list string) (s : state)
    (k : Z) :
  gSockfd s k <> UNUSED_FD ->
  gSockfd (final (doSocket E fuel gTokens s)) k = gSockfd s k.
Proof.
  unfold doSocket.
  set (s3 := set_gProtocol 0 (set_gType (SOCK_STREAM E) (set_gDomain (PF_INET6 E) s))).
  do 3 (rewrite bind_tt by apply returns_modify). cbn [final modify]. fold s3.
  change (gSockfd s) with (gSockfd s3). clearbody s3. clear s. intros Hk.
  pose proof (keeps_socketOptions E _ _ _ (selection_frame E)
                ltac:(reflexivity) ltac:(reflexivity) ltac:(reflexivity)
                fuel gTokens 0 s3) as Hkeep.
  unfold same in Hkeep. cbv beta in Hkeep. rewrite final_bind.
  destruct (socketOptions E fuel gTokens 0 s3) as [parsed s4|s4];
    rewrite ?final_returned, ?final_spinning in Hkeep; injection Hkeep as _ Hfd;
    [|rewrite Hfd; reflexivity].
  destruct parsed as [[retval optind]|]; [|cbn; rewrite Hfd; reflexivity].
  destruct (optind <? gTokenCount gTokens); [cbn; rewrite Hfd; reflexivity|].
  destruct (negb (retval =? 0)); [cbn; rewrite Hfd; reflexivity|].
  destruct (findFreeSocketSlot_unused s4)
    as [[i [Hi [Hslot Hfree]]]|[s5 [Hi [_ Hfd5]]]];
    rewrite (bind_returned _ _ _ _ _ Hi).
  - assert (Hneg : (i <? 0) = false) by (unfold is_slot in Hslot; lia).
    rewrite Hneg.
    rewrite bind_tt by apply returns_modify. cbn [final modify].
    set (s5 := set_gCurrent i s4).
    do 3 (rewrite (bind_returned _ _ _ _ _ (gets_returned _ s5))).
    rewrite (bind_returned _ _ _ _ _ (call_returned E _ s5)).
    set (c := sys_socket (gDomain s5) (gType s5) (gProtocol s5)).
    destruct (call_registry E c s5) as [Hc6 [Hfd6 _]].
    set (r := answer E c s5) in *. set (s6 := final (call E c s5)) in *.
    change (gCurrent s5) with i in Hc6.
    change (gSockfd s5) with (gSockfd s4) in Hfd6.
    clearbody r s6.
    rewrite (bind_returned _ _ _ _ _ (gets_returned gCurrent s6)). rewrite Hc6.
    rewrite bind_tt by apply returns_modify. cbn [final modify].
    set (s7 := store_gSockfd i (ret r) s6).
    rewrite (bind_returned _ _ _ _ _ (gets_returned currentSocket s7)).
    assert (H7 : gSockfd s7 k = gSockfd s3 k).
    { unfold s7. cbn. destruct (k =? i) eqn:Hki.
      - apply Z.eqb_eq in Hki. subst k. rewrite <- Hfd in Hk. contradiction.
      - rewrite Hfd6, Hfd. reflexivity. }
    clearbody s7.
    destruct (currentSocket s7 <? 0); cbn; exact H7.
  - change (-1 <? 0) with true. cbv iota. unfold retM. rewrite final_returned.
    rewrite Hfd5, Hfd. reflexivity.
Qed.

Lemma doClose_slots (E : env) (s : state) (k : Z) :
  k <> gCurrent s -> gSockfd (final (doClose E s)) k = gSockfd s k.
Proof.
  intros Hk. unfold doClose.
  rewrite (bind_returned _ _ _ _ _ (gets_returned currentSocket s)).
  rewrite (bind_returned _ _ _ _ _ (call_returned E _ s)).
  destruct (call_registry E (sys_close (currentSocket s)) s) as [Hc [Hfd _]].
  set (r := answer E (sys_close (currentSocket s)) s) in *.
  set (s1 := final (call E (sys_close (currentSocket s)) s)) in *.
  clearbody s1 r.
  destruct (ret r <? 0); cbn; [rewrite Hfd; reflexivity|].
  rewrite Hc. apply Z.eqb_neq in Hk. rewrite Hk, Hfd. reflexivity.
Qed.

(** X16: no command loses an open descriptor.  A slot of the registry
    that holds a descriptor holds the same one after any command but
    close -- socket and accept write only to a slot that was unused --
    and the close command writes to no slot but the selected one. *)
Theorem open_slots_kept (E : env) (fuel : nat) (gTokens : list string)
    (s : state) :
  let i := findCommand (token gTokens 0) gCommands 0 in
  let s' := final (command E fuel gTokens s) in
  (i <> CMD_CLOSE ->
   forall k, gSockfd s k <> UNUSED_FD -> gSockfd s' k = gSockfd s k)
  /\ (forall k, k <> gCurrent s -> gSockfd s k <> UNUSED_FD ->
      gSockfd s' k = gSockfd s k).
Proof.
  cbv zeta.
  destruct (gTokenCount gTokens >=? MAXTOKENS) eqn:Hmany.
  { assert (Hrun : final (command E fuel gTokens s)
                   = set_trace (Out stderr "Too many tokens in input line.\n" []
                                  :: trace s) s).
    { unfold command. rewrite Hmany. reflexivity. }
    rewrite Hrun. split; intros; reflexivity. }
  rewrite (command_dispatch E fuel gTokens s Hmany).
  set (i := findCommand (token gTokens 0) gCommands 0). clearbody i.
  set (s0 := set_gInterrupted false s).
  change (gSockfd s) with (gSockfd s0). change (gCurrent s) with (gCurrent s0).
  clearbody s0.
  assert (Hopen : i <> CMD_CLOSE ->
                  forall k, gSockfd s0 k <> UNUSED_FD ->
                            gSockfd (final (dispatch E fuel i gTokens s0)) k
                            = gSockfd s0 k).
  { intros Hcl k Hk.
    destruct (Nat.eq_dec i CMD_SOCKET) as [->|Hso].
    { change (dispatch E fuel CMD_SOCKET gTokens)
        with (bindM (doSocket E fuel gTokens) (fun _ => retM false)).
      rewrite final_then. apply doSocket_slots, Hk. }
    destruct (Nat.eq_dec i CMD_ACCEPT) as [->|Ha].
    { change (dispatch E fuel CMD_ACCEPT gTokens)
        with (bindM (doAccept E fuel) (fun _ => retM false)).
      rewrite final_then. apply doAccept_slots, Hk. }
    destruct (dispatch_selection E fuel i gTokens s0) as [_ [Hw _]].
    rewrite Hw by auto. reflexivity. }
  split; [exact Hopen|].
  intros k Hk Hin.
  destruct (Nat.eq_dec i CMD_CLOSE) as [->|Hcl]; [|apply Hopen; assumption].
  change (dispatch E fuel CMD_CLOSE gTokens)
    with (bindM (doClose E) (fun _ => retM false)).
  rewrite final_then. apply doClose_slots, Hk.
Qed.

(** ** The arguments of bind, connect and listen *)

Lemma lookupAddress_run (E : env) (node : option string) (s : state) :
  let c := sys_getaddrinfo node in
  lookupAddress E node s
  = Returned (ret (answer E c s)) (final (lookupAddress E node s))
  /\ filter is_sys (trace (final (lookupAddress E node s)))
     = Sys c (answer E c s) :: filter is_sys (trace s)
  /\ currentSocket (final (lookupAddress E node s)) = currentSocket s.
Proof.
  cbv zeta. unfold lookupAddress.
  rewrite (bind_returned _ _ _ _ _ (call_returned E _ s)).
  destruct (call_step E (sys_getaddrinfo node) s) as [Hfd [Ht _]].
  set (r := answer E (sys_getaddrinfo node) s) in *.
  set (s1 := final (call E (sys_getaddrinfo node) s)) in *. clearbody r s1.
  destruct (negb (ret r =? 0)); cbn -[filter currentSocket]; cbn [filter is_sys];
    (split; [reflexivity|split; assumption]).
Qed.

(** X18: what bind, connect and listen do with their arguments, once the
    port (or the backlog) reads as an integer.  bind without a host makes
    one call, bind() with the port, and looks nothing up; with a host it
    calls getaddrinfo first and calls bind() only when that gave 0.
    connect calls getaddrinfo in every case -- with a null node when no
    host was given -- and makes no other call when that fails.  listen
    passes the backlog given, and 1 when none was. *)
Theorem bind_connect_listen_arguments (E : env) (fuel : nat)
    (cmd port host : string) (p : Z) (s : state) :
  sscanf_i E port = Some p ->
  let fd := currentSocket s in
  let resolve := sys_getaddrinfo (Some host) in
  let s1 := final (lookupAddress E (Some host) s) in
  let sys (s' : state) := filter is_sys (trace s') in
  sys (final (doBind E [cmd; port] s))
  = Sys (sys_op BIND fd [p]) (answer E (sys_op BIND fd [p]) s) :: sys s
  /\ (ret (answer E resolve s) <> 0 ->
      sys (final (doBind E [cmd; port; host] s))
      = Sys resolve (answer E resolve s) :: sys s
      /\ sys (final (doConnect E fuel [cmd; port; host] s))
         = Sys resolve (answer E resolve s) :: sys s)
  /\ (ret (answer E resolve s) = 0 ->
      sys (final (doBind E [cmd; port; host] s))
      = Sys (sys_op BIND fd [p]) (answer E (sys_op BIND fd [p]) s1)
        :: Sys resolve (answer E resolve s) :: sys s)
  /\ (ret (answer E (sys_getaddrinfo None) s) <> 0 ->
      sys (final (doConnect E fuel [cmd; port] s))
      = Sys (sys_getaddrinfo None) (answer E (sys_getaddrinfo None) s) :: sys s)
  /\ sys (final (doListen E [cmd; port] s))
     = Sys (sys_op LISTEN fd [p]) (answer E (sys_op LISTEN fd [p]) s) :: sys s
  /\ sys (final (doListen E [cmd] s))
     = Sys (sys_op LISTEN fd [1]) (answer E (sys_op LISTEN fd [1]) s) :: sys s.
Proof.
  intros Hp. cbv zeta.
  assert (Hport : setIntegerArgument E port s = Returned (Some p) s)
    by (unfold setIntegerArgument; rewrite Hp; reflexivity).
  destruct (lookupAddress_run E (Some host) s) as [Hl [Htl Hfdl]].
  destruct (lookupAddress_run E None s) as [Hn [Htn _]].
  cbv zeta in Hl, Htl, Hn, Htn.
  split; [|split; [|split; [|split; [|split]]]].
  - unfold doBind. change (gTokenCount [cmd; port]) with 2.
    change ((2 <? 2) || (2 >? 3)) with false. cbv iota.
    change (token [cmd; port] 1) with port.
    rewrite (bind_returned _ _ _ _ _ Hport).
    change (2 =? 3) with false. cbv iota.
    unfold retM at 1. rewrite (bind_returned _ _ _ _ _ eq_refl).
    change (negb (0 =? 0)) with false. cbv iota.
    rewrite then_tt_final. apply plainAPI_run.
  - intros Hfail. apply Z.eqb_neq in Hfail. split.
    + unfold doBind. change (gTokenCount [cmd; port; host]) with 3.
      change ((3 <? 2) || (3 >? 3)) with false. cbv iota.
      change (token [cmd; port; host] 1) with port.
      change (token [cmd; port; host] 2) with host.
      rewrite (bind_returned _ _ _ _ _ Hport).
      change (3 =? 3) with true. cbv iota.
      rewrite (bind_returned _ _ _ _ _ Hl), Hfail. exact Htl.
    + unfold doConnect. change (gTokenCount [cmd; port; host]) with 3.
      change ((3 <? 2) || (3 >? 3)) with false. cbv iota.
      change (token [cmd; port; host] 1) with port.
      change (nth_error [cmd; port; host] 2) with (Some host).
      rewrite (bind_returned _ _ _ _ _ Hport).
      rewrite (bind_returned _ _ _ _ _ Hl), Hfail. exact Htl.
  - intros Hok. unfold doBind. change (gTokenCount [cmd; port; host]) with 3.
    change ((3 <? 2) || (3 >? 3)) with false. cbv iota.
    change (token [cmd; port; host] 1) with port.
    change (token [cmd; port; host] 2) with host.
    rewrite (bind_returned _ _ _ _ _ Hport).
    change (3 =? 3) with true. cbv iota.
    rewrite (bind_returned _ _ _ _ _ Hl), Hok.
    change (negb (0 =? 0)) with false. cbv iota.
    rewrite then_tt_final.
    destruct (plainAPI_run E BIND [p] (final (lookupAddress E (Some host) s)))
      as [_ Ht].
    cbv zeta in Ht. rewrite Hfdl, Htl in Ht. exact Ht.
  - intros Hfail. apply Z.eqb_neq in Hfail.
    unfold doConnect. change (gTokenCount [cmd; port]) with 2.
    change ((2 <? 2) || (2 >? 3)) with false. cbv iota.
    change (token [cmd; port] 1) with port.
    change (nth_error [cmd; port] 2) with (@None string).
    rewrite (bind_returned _ _ _ _ _ Hport).
    rewrite (bind_returned _ _ _ _ _ Hn), Hfail. exact Htn.
  - unfold doListen. change (gTokenCount [cmd; port]) with 2.
    change (2 >? 2) with false. change (2 =? 2) with true. cbv iota.
    change (token [cmd; port] 1) with port.
    rewrite (bind_returned _ _ _ _ _ Hport).
    rewrite then_tt_final. apply plainAPI_run.
  - unfold doListen. change (gTokenCount [cmd]) with 1.
    change (1 >? 2) with false. change (1 =? 2) with false. cbv iota.
    unfold retM at 1. rewrite (bind_returned _ _ _ _ _ eq_refl).
    rewrite then_tt_final. apply plainAPI_run.
Qed.

Lemma bind_connect_listen_arguments_witness :
  filter is_sys
    (trace (final (doListen all_succeed ["listen"]
                     (with_sockets BLOCKING_MODEL 0 [5]))))
  = [Sys (sys_op LISTEN 5 [1]) (plain 0)]
  /\ filter is_sys
       (trace (final (doBind all_succeed ["bind"; "8080"]
                        (with_sockets BLOCKING_MODEL 0 [5]))))
     = [Sys (sys_op BIND 5 [8080]) (plain 0)].
Proof.
  destruct (bind_connect_listen_arguments all_succeed 0 "bind" "8080" "host" 8080
              (with_sockets BLOCKING_MODEL 0 [5]) eq_refl)
    as [Hb [_ [_ [_ [_ Hl]]]]].
  split; [exact Hl|exact Hb].
Defined.

(** ** Around the call, in the nonblocking model *)

Lemma doBlockingSetup_run (E : env) (s : state) :
  currentSocket (final (doBlockingSetup E s)) = currentSocket s
  /\ filter is_sys (trace (final (doBlockingSetup E s)))
     = Sys sys_gettimeofday (answer E sys_gettimeofday s) :: filter is_sys (trace s).
Proof.
  unfold doBlockingSetup.
  rewrite (bind_returned _ _ _ _ _ (call_returned E _ s)).
  destruct (call_step E sys_gettimeofday s) as [Hfd [Ht _]].
  set (r := answer E sys_gettimeofday s) in *.
  set (s1 := final (call E sys_gettimeofday s)) in *. clearbody r s1.
  unfold modify. rewrite final_returned. split; assumption.
Qed.

(** The end of nonblockingPostAPISetup: the sleep before another try. *)
Lemma sleep_tail (E : env) (done : bool) (s : state) :
  filter is_sys
    (trace (final (((if negb done then r <- call E (sys_sleep 1) ;; retM tt
                     else retM tt) ;; retM done) s)))
  = ((if done then [] else [Sys (sys_sleep 1) (answer E (sys_sleep 1) s)])
     ++ filter is_sys (trace s))%list.
Proof.
  destruct done; cbn [negb]; [reflexivity|].
  rewrite final_then, then_tt_final.
  destruct (call_step E (sys_sleep 1) s) as [_ [Ht _]]. exact Ht.
Qed.


(** ** The wait of the select model *)

Lemma selectOnce_answer (E : env) (c : readyCondition) (s : state) :
  exists nfds rb wb xb t,
    selectOnce E c s
    = Returned (ret (answer E (sys_select nfds rb wb xb t) s) =? 1)
        (final (selectOnce E c s)).
Proof.
  destruct (watching c (currentSocket s)) as [[rb wb] xb] eqn:W.
  set (sel := sys_select (currentSocket s + 1) rb wb xb (mkTimeval 1 0)).
  assert (Heq : selectOnce E c s
                = checkSelect c (answer E sel s) (final (call E sel s))).
  { unfold selectOnce.
    rewrite (bind_returned _ _ _ _ _ (gets_returned currentSocket s)).
    cbv beta. rewrite W. cbv beta iota zeta.
    rewrite (bind_returned _ _ _ _ _
               (gets_returned (fun s => currentSocket s + 1) s)).
    cbv beta. fold sel.
    rewrite (bind_returned _ _ _ _ _ (call_returned E sel s)). reflexivity. }
  exists (currentSocket s + 1), rb, wb, xb, (mkTimeval 1 0). fold sel.
  rewrite Heq. apply checkSelect_value.
Qed.

Lemma selectLoop_S (E : env) (n : nat) (c : readyCondition) :
  selectLoop E (S n) c
  = (done <- selectOnce E c ;;
     i <- gets gInterrupted ;;
     if negb done && negb i then selectLoop E n c else retM tt).
Proof. reflexivity. Qed.

(** X20: the wait of the select model has no way out but the user.  As
    long as select() returns anything but 1 -- 0 for a time-out, -1 for an
    error such as a closed descriptor -- and no signal arrives, the loop
    calls select() again: the setup before the call never ends, the
    operation is not called, and the interrupt flag stays down. *)
Theorem select_keeps_waiting (E : env) (fuel : nat) (cond : readyCondition)
    (s : state) :
  (forall c n, sigs (respond E c n) = []) ->
  (forall nfds rb wb xb t n, ret (respond E (sys_select nfds rb wb xb t) n) <> 1) ->
  gInterrupted s = false ->
  exists s', selectPreAPISetup E fuel cond s = Spinning s'
             /\ gInterrupted s' = false
             /\ ops (trace s') = ops (trace s).
Proof.
  intros Hq Hsel. unfold selectPreAPISetup.
  enough (H : forall n s, gInterrupted s = false ->
              exists s', selectLoop E n cond s = Spinning s'
                         /\ gInterrupted s' = false
                         /\ ops (trace s') = ops (trace s)).
  { intros Hi. destruct (H fuel s Hi) as [s' [Hl Hs']].
    exists s'. split; [apply bind_spinning, Hl|exact Hs']. }
  clear s. intros n. induction n as [|n IH]; intros s Hi.
  { exists s. split; [reflexivity|]. split; [exact Hi|reflexivity]. }
  rewrite selectLoop_S.
  destruct (selectOnce_answer E cond s) as [nfds [rb [wb [xb [t Hone]]]]].
  assert (Hno : (ret (answer E (sys_select nfds rb wb xb t) s) =? 1) = false)
    by (apply Z.eqb_neq, Hsel).
  rewrite Hno in Hone.
  pose proof (keeps_selectOnce E _ _ _ (silent_frame E Hq) (fun _ _ _ _ _ => I)
                cond s) as Hflags.
  pose proof (keeps_selectOnce E _ _ _ (ops_frame E)
                (fun _ _ _ _ _ _ => eq_refl) cond s) as Hops.
  unfold same in Hflags, Hops. cbv beta in Hflags, Hops.
  rewrite (bind_returned _ _ _ _ _ Hone).
  set (s1 := final (selectOnce E cond s)) in *. clearbody s1.
  injection Hflags as _ Hi1. rewrite Hi in Hi1.
  rewrite (bind_returned _ _ _ _ _ (gets_returned gInterrupted s1)), Hi1.
  cbn [negb andb].
  destruct (IH s1 Hi1) as [s' [Hl [Hi' Ho']]].
  exists s'. split; [exact Hl|]. split; [exact Hi'|congruence].
Qed.

Lemma select_keeps_waiting_witness :
  exists s',
    selectPreAPISetup (linux (fun _ _ => failure 9)) 3 READ_READY
      (with_sockets SELECT_MODEL 0 []) = Spinning s'
    /\ calls (trace s')
       = [sys_select 0 [-1] [] [] (mkTimeval 1 0);
          sys_select 0 [-1] [] [] (mkTimeval 1 0);
          sys_select 0 [-1] [] [] (mkTimeval 1 0)].
Proof.
  destruct (select_keeps_waiting (linux (fun _ _ => failure 9)) 3 READ_READY
              (with_sockets SELECT_MODEL 0 [])
              ltac:(reflexivity)
              ltac:(intros; vm_compute; discriminate)
              ltac:(reflexivity)) as [s' [Hrun _]].
  exists (final (selectPreAPISetup (linux (fun _ _ => failure 9)) 3 READ_READY
                   (with_sockets SELECT_MODEL 0 []))).
  split; vm_compute; reflexivity.
Defined.

(** ** What only one command changes *)

Lemma model_frame (E : env) :
  frame E (same model) (fun _ => True) (fun _ => True).
Proof.
  apply frame_same; try reflexivity; try handlers.
  intros; apply Forall_any.
Qed.

Lemma verbose_frame (E : env) :
  frame E (same gVerbose) (fun _ => True) (fun _ => True).
Proof.
  apply frame_same; try reflexivity.
  - intros s sg _. pose proof (handler_beyond sg s) as H.
    unfold beyond_signals in H. congruence.
  - intros; apply Forall_any.
Qed.

(** X21: the model in force changes with the model command and with no
    other.  Entered with the selection on a slot of the registry, so that
    what a command stores through gSockfd[gCurrent] lands inside the
    array, every other command, whatever its arguments and whatever
    happens while it runs, leaves the model as it found it; and no command
    at all changes the verbosity chosen on the command line. *)
Theorem model_changes_with_model_command (E : env) (fuel : nat)
    (gTokens : list string) (s : state) :
  is_slot (gCurrent s) = true ->
  let i := findCommand (token gTokens 0) gCommands 0 in
  let s' := final (command E fuel gTokens s) in
  gVerbose s' = gVerbose s
  /\ (i <> CMD_MODEL -> model s' = model s).
Proof.
  intros _. cbv zeta.
  destruct (gTokenCount gTokens >=? MAXTOKENS) eqn:Hmany.
  { assert (Hrun : final (command E fuel gTokens s)
                   = set_trace (Out stderr "Too many tokens in input line.\n" []
                                  :: trace s) s).
    { unfold command. rewrite Hmany. reflexivity. }
    rewrite Hrun. split; [reflexivity|intros _; reflexivity]. }
  rewrite (command_dispatch E fuel gTokens s Hmany).
  set (i := findCommand (token gTokens 0) gCommands 0). clearbody i.
  set (s0 := set_gInterrupted false s).
  change (gVerbose s) with (gVerbose s0). change (model s) with (model s0).
  clearbody s0. split.
  - apply (keeps_dispatch_any E fuel _ _ _ (verbose_frame E));
      try (intros; exact I); intros; reflexivity.
  - intros Hm.
    apply (keeps_dispatch_but_model E fuel _ _ _ (model_frame E));
      try (intros; exact I); try exact Hm; intros; reflexivity.
Qed.

(** X21 on a concrete run: the close command on the socket in slot 0
    leaves the select model in force, and the verbosity as it was. *)
Lemma model_changes_with_model_command_witness :
  let s := with_sockets SELECT_MODEL 0 [5] in
  let s' := final (command all_succeed 1 ["close"] s) in
  is_slot (gCurrent s) = true
  /\ gVerbose s' = gVerbose s
  /\ model s' = SELECT_MODEL
  /\ gSockfd s' 0 = UNUSED_FD.
Proof.
  cbv zeta.
  destruct (model_changes_with_model_command all_succeed 1 ["close"]
              (with_sockets SELECT_MODEL 0 [5]) eq_refl) as [Hv Hm].
  split; [reflexivity|]. split; [exact Hv|].
  split; [|reflexivity].
  apply Hm. vm_compute. discriminate.
Defined.

(** * The interrupt flag while the setup waits *)

(** The handlers of the signals of a call raise the interrupt flag when
    one of the signals interrupts, and never lower it. *)
Lemma deliver_interrupts (sgs : list signo) (s : state) :
  gInterrupted (deliver sgs s) = gInterrupted s || existsb interrupts sgs.
Proof.
  revert s. induction sgs as [|sg sgs IH]; intros s.
  - cbn. rewrite orb_false_r. reflexivity.
  - cbn [deliver fold_left existsb].
    fold (deliver sgs (final (handler_of sg s s))).
    rewrite IH. destruct (handler_flags sg s) as [Hi _].
    rewrite Hi, orb_assoc. reflexivity.
Qed.

Lemma call_interrupts (E : env) (c : syscall) (s : state) :
  existsb interrupts (sigs (answer E c s)) = true ->
  gInterrupted (final (call E c s)) = true.
Proof.
  intros Hint. unfold call, answer in *. rewrite final_returned.
  rewrite deliver_interrupts, Hint. apply orb_true_r.
Qed.

(** One turn of the loop doing the select: the select call on the current
    socket, then the check of its answer. *)
Lemma selectOnce_call (E : env) (c : readyCondition) (s : state) :
  let sel := selectCall c (currentSocket s) in
  selectOnce E c s = checkSelect c (answer E sel s) (final (call E sel s)).
Proof.
  cbv zeta. unfold selectOnce, selectCall.
  rewrite (bind_returned _ _ _ _ _ (gets_returned currentSocket s)).
  cbv beta. destruct (watching c (currentSocket s)) as [[rb wb] xb].
  cbv beta iota zeta.
  rewrite (bind_returned _ _ _ _ _
             (gets_returned (fun s => currentSocket s + 1) s)).
  cbv beta.
  rewrite (bind_returned _ _ _ _ _ (call_returned E _ s)). reflexivity.
Qed.

(** A signal that interrupts, arriving while select waits, leaves the
    interrupt flag up at the end of the turn. *)
Lemma selectOnce_interrupts (E : env) (c : readyCondition) (s : state) :
  existsb interrupts (sigs (answer E (selectCall c (currentSocket s)) s)) = true ->
  gInterrupted (final (selectOnce E c s)) = true.
Proof.
  intros H. rewrite selectOnce_call.
  apply (keeps_checkSelect E _ _ _ (interrupted_frame E)).
  apply call_interrupts, H.
Qed.

(** More turns allowed do not change a wait that ended. *)
Lemma selectLoop_more (E : env) (c : readyCondition) (n : nat) (s s1 : state)
    (a : unit) :
  selectLoop E n c s = Returned a s1 -> selectLoop E (S n) c s = Returned a s1.
Proof.
  revert s. induction n as [|n IH]; intros s H; [discriminate|].
  rewrite (selectLoop_S E n c) in H. rewrite (selectLoop_S E (S n) c).
  destruct (returns_selectOnce E c s) as [done Hd].
  rewrite (bind_returned _ _ _ _ _ Hd) in H.
  rewrite (bind_returned _ _ _ _ _ Hd).
  set (s' := final (selectOnce E c s)) in *. clearbody s'.
  rewrite (bind_returned _ _ _ _ _ (gets_returned gInterrupted s')) in H.
  rewrite (bind_returned _ _ _ _ _ (gets_returned gInterrupted s')).
  destruct (negb done && negb (gInterrupted s')); [apply IH, H|exact H].
Qed.

Lemma sigioLoop_more (E : env) (n : nat) (s s1 : state) (a : unit) :
  sigioLoop E n s = Returned a s1 -> sigioLoop E (S n) s = Returned a s1.
Proof.
  revert s. induction n as [|n IH]; intros s H; [discriminate|].
  rewrite (sigioLoop_S E n s) in H. rewrite (sigioLoop_S E (S n) s).
  destruct (negb (sigioReceived s) && negb (gInterrupted s)); [apply IH, H|exact H].
Qed.

(** The loop doing the select does not go round again with the interrupt
    flag up: where it ends or stands with the flag up after at most [n]
    turns, it has returned by the turn after. *)
Lemma selectLoop_wait (E : env) (c : readyCondition) (n : nat) (s : state) :
  gInterrupted (final (selectLoop E n c s)) = true ->
  exists s1, selectLoop E (S n) c s = Returned tt s1 /\ gInterrupted s1 = true.
Proof.
  revert s. induction n as [|n IH]; intros s H.
  - cbn [selectLoop] in H. unfold spin in H. rewrite final_spinning in H.
    destruct (selectLoop_interrupted E c 0 s H) as [[] Hr].
    exists (final (selectLoop E 1 c s)). split; [exact Hr|].
    apply (interrupted_selectLoop E c 1 s H).
  - rewrite (selectLoop_S E n c) in H. rewrite (selectLoop_S E (S n) c).
    destruct (returns_selectOnce E c s) as [done Hd].
    rewrite (bind_returned _ _ _ _ _ Hd) in H.
    rewrite (bind_returned _ _ _ _ _ Hd).
    set (s' := final (selectOnce E c s)) in *. clearbody s'.
    rewrite (bind_returned _ _ _ _ _ (gets_returned gInterrupted s')) in H.
    rewrite (bind_returned _ _ _ _ _ (gets_returned gInterrupted s')).
    destruct (negb done && negb (gInterrupted s')); [apply IH, H|].
    unfold retM in *. rewrite final_returned in H.
    exists s'. split; [reflexivity|exact H].
Qed.

(** Nor does the loop waiting for SIGIO. *)
Lemma sigioLoop_wait (E : env) (n : nat) (s : state) :
  gInterrupted (final (sigioLoop E n s)) = true ->
  exists s1, sigioLoop E (S n) s = Returned tt s1 /\ gInterrupted s1 = true.
Proof.
  revert s. induction n as [|n IH]; intros s H.
  - cbn [sigioLoop] in H. unfold spin in H. rewrite final_spinning in H.
    destruct (sigioLoop_interrupted E 0 s H) as [[] Hr].
    exists (final (sigioLoop E 1 s)). split; [exact Hr|].
    apply (interrupted_sigioLoop E 1 s H).
  - rewrite (sigioLoop_S E n s) in H. rewrite (sigioLoop_S E (S n) s).
    destruct (negb (sigioReceived s) && negb (gInterrupted s)); [apply IH, H|].
    rewrite final_returned in H. exists s. split; [reflexivity|exact H].
Qed.

Lemma settles_total {A : Type} (m : M A) : returns m -> settles m m.
Proof. intros Hm s H. destruct (Hm s) as [a Ha]. exists a. split; assumption. Qed.

Lemma settles_bind {A B : Type} (p : M A) (k k' : A -> M B) :
  returns p -> (forall a, settles (k a) (k' a)) -> settles (bindM p k) (bindM p k').
Proof.
  intros Hp Hk s H. destruct (Hp s) as [a Ha].
  rewrite (bind_returned _ _ _ _ _ Ha) in H.
  rewrite (bind_returned _ _ _ _ _ Ha). apply Hk, H.
Qed.

(** A wait followed by a step that returns and keeps the flag up. *)
Lemma settles_wait {B : Type} (L L' : M unit) (k : M B) :
  (forall s a s1, L s = Returned a s1 -> L' s = Returned a s1) ->
  (forall s, gInterrupted (final (L s)) = true ->
             exists s1, L' s = Returned tt s1 /\ gInterrupted s1 = true) ->
  returns k -> keeps (still gInterrupted) k ->
  settles (L ;; k) (L' ;; k).
Proof.
  intros Hmore Hwait Hk Hi s H.
  destruct (L s) as [a s1|s1] eqn:HL.
  - rewrite (bind_returned _ _ _ _ _ HL) in H.
    rewrite (bind_returned _ _ _ _ _ (Hmore _ _ _ HL)).
    destruct (Hk s1) as [b Hb]. exists b. split; assumption.
  - rewrite (bind_spinning _ _ _ _ HL), final_spinning in H.
    destruct (Hwait s) as [s2 [Hr H2]]; [rewrite HL, final_spinning; exact H|].
    rewrite (bind_returned _ _ _ _ _ Hr).
    destruct (Hk s2) as [b Hb]. exists b. split; [exact Hb|].
    apply (Hi s2 H2).
Qed.

Lemma interrupted_doBlockingSetup (E : env) :
  keeps (still gInterrupted) (doBlockingSetup E).
Proof. apply (keeps_doBlockingSetup E _ _ _ (interrupted_frame E)); trivial_goods. Qed.

(** Where the setup before the call ends or stands with the interrupt
    flag up, it has returned by the turn after. *)
Lemma preAPISetup_settles (E : env) (fuel : nat) (c : readyCondition) :
  settles (preAPISetup E fuel c) (preAPISetup E (S fuel) c).
Proof.
  unfold preAPISetup. apply settles_bind; [apply returns_gets|].
  intros m. destruct m.
  - apply settles_total, returns_blockingPreAPISetup.
  - apply settles_total, returns_nonblockingPreAPISetup.
  - unfold selectPreAPISetup. apply settles_wait.
    + intros s a s1. apply selectLoop_more.
    + apply selectLoop_wait.
    + apply returns_doBlockingSetup.
    + apply interrupted_doBlockingSetup.
  - unfold signalPreAPISetup.
    destruct (is_WRITE_READY c); [apply settles_total, returns_doBlockingSetup|].
    apply settles_bind; [apply returns_signal_SIGIO|].
    intros sigResult. destruct (sigResult <? 0); [apply settles_total; rets|].
    apply settles_bind; [apply returns_call|]. intros pid.
    apply settles_bind; [apply returns_gets|]. intros fd.
    apply settles_bind; [apply returns_call|]. intros r.
    destruct (ret r <? 0); [apply settles_total; rets|].
    apply settles_bind; [apply returns_modify|]. intros _.
    apply settles_bind; [apply returns_setFctlFlag|]. intros _.
    apply settles_wait.
    + intros s a s1. apply sigioLoop_more.
    + apply sigioLoop_wait.
    + apply returns_doBlockingSetup.
    + apply interrupted_doBlockingSetup.
Qed.

(** With the interrupt flag up when the setup before the call returns,
    the retry loop returns, and the operation is not called. *)
Lemma callAPILoop_abandons (E : env) (fuel n : nat) (cond : readyCondition)
    (api : sockop) (args : list Z) (s s1 : state) :
  preAPISetup E fuel cond s = Returned tt s1 -> gInterrupted s1 = true ->
  callAPILoop E fuel (S n) cond api args s = Returned None s1
  /\ ops (trace s1) = ops (trace s).
Proof.
  intros Hpre Hi. rewrite callAPILoop_S.
  pose proof (preAPISetup_ops E fuel cond s) as Ho.
  rewrite Hpre, final_returned in Ho.
  rewrite (bind_returned _ _ _ _ _ Hpre).
  rewrite (bind_returned _ _ _ _ _ (gets_returned gInterrupted s1)), Hi.
  split; [reflexivity|exact Ho].
Qed.

(** C8: the retry loop behind every readiness-sensitive command returns
    without calling the socket operation (again)
    - when it is entered, or re-entered, with the interrupt flag up;
    - when the flag goes up while the setup before the call waits:
      wherever the setup ends or stands with the flag up, it has returned
      by the turn after, and the loop returns without the call;
    - in particular when a signal that interrupts arrives while select
      waits, in the select model, and while sleep waits in the loop of
      the signal model, which then ends at that turn.
    This holds for each of the six handlers that hold the loop.  When main
    dispatches a command the flag reads false, whatever it read before,
    and nothing else has changed. *)
Theorem interrupt_abandons (E : env) (fuel n : nat) (cond : readyCondition)
    (api : sockop) (args : list Z) (gTokens : list string) (s : state) :
  (gInterrupted s = true ->
     exists s', callAPILoop E (S fuel) (S n) cond api args s = Returned None s'
                /\ gInterrupted s' = true
                /\ ops (trace s') = ops (trace s))
  /\ (gInterrupted (final (preAPISetup E fuel cond s)) = true ->
      exists s', callAPILoop E (S fuel) (S n) cond api args s = Returned None s'
                 /\ gInterrupted s' = true
                 /\ ops (trace s') = ops (trace s))
  /\ (model s = SELECT_MODEL ->
      existsb interrupts (sigs (answer E (selectCall cond (currentSocket s)) s))
      = true ->
      selectLoop E (S fuel) cond s = Returned tt (final (selectOnce E cond s))
      /\ exists s', callAPILoop E (S fuel) (S n) cond api args s = Returned None s'
                    /\ gInterrupted s' = true
                    /\ ops (trace s') = ops (trace s))
  /\ (sigioReceived s = false -> gInterrupted s = false ->
      existsb interrupts (sigs (answer E (sys_sleep 1) s)) = true ->
      sigioLoop E (S (S fuel)) s = Returned tt (final (sigioTick E s))
      /\ gInterrupted (final (sigioTick E s)) = true)
  /\ (gInterrupted s = true ->
      ops (trace (final (doConnect E (S fuel) gTokens s))) = ops (trace s)
      /\ ops (trace (final (doAccept E (S fuel) s))) = ops (trace s)
      /\ ops (trace (final (doRecvmsg E (S fuel) gTokens s))) = ops (trace s)
      /\ ops (trace (final (doSendmsg E (S fuel) gTokens s))) = ops (trace s)
      /\ ops (trace (final (doRead E (S fuel) s))) = ops (trace s)
      /\ ops (trace (final (doWrite E (S fuel) s))) = ops (trace s))
  /\ (gTokenCount gTokens < MAXTOKENS ->
      exists s0,
        command E fuel gTokens s
        = dispatch E fuel (findCommand (token gTokens 0) gCommands 0) gTokens s0
        /\ gInterrupted s0 = false
        /\ gSockfd s0 = gSockfd s /\ gCurrent s0 = gCurrent s
        /\ model s0 = model s /\ sigioReceived s0 = sigioReceived s
        /\ trace s0 = trace s).
Proof.
  split; [apply callAPILoop_interrupted|].
  split.
  { intros H. destruct (preAPISetup_settles E fuel cond s H) as [[] [Hpre Hi]].
    exists (final (preAPISetup E (S fuel) cond s)).
    destruct (callAPILoop_abandons E (S fuel) n cond api args s _ Hpre Hi)
      as [Hrun Ho].
    split; [exact Hrun|]. split; [exact Hi|exact Ho]. }
  split.
  { intros Hm Hsig.
    pose proof (selectOnce_interrupts E cond s Hsig) as Hi1.
    assert (Hloop : selectLoop E (S fuel) cond s
                    = Returned tt (final (selectOnce E cond s))).
    { rewrite (selectLoop_S E fuel cond).
      destruct (returns_selectOnce E cond s) as [done Hd].
      rewrite (bind_returned _ _ _ _ _ Hd).
      rewrite (bind_returned _ _ _ _ _ (gets_returned gInterrupted _)).
      rewrite Hi1, andb_false_r. reflexivity. }
    split; [exact Hloop|].
    destruct (select_model_setup E (S fuel) cond s Hm) as [Hpre _].
    rewrite (bind_returned _ _ _ _ _ Hloop) in Hpre.
    pose proof (returns_tt _ (final (selectOnce E cond s))
                  (returns_doBlockingSetup E)) as Hb.
    rewrite Hb in Hpre.
    pose proof (interrupted_doBlockingSetup E _ Hi1) as Hi2.
    exists (final (doBlockingSetup E (final (selectOnce E cond s)))).
    destruct (callAPILoop_abandons E (S fuel) n cond api args s _ Hpre Hi2)
      as [Hrun Ho].
    split; [exact Hrun|]. split; [exact Hi2|exact Ho]. }
  split.
  { intros Hg Hi Hsig.
    assert (Hup : gInterrupted (final (sigioTick E s)) = true).
    { unfold sigioTick.
      rewrite (bind_returned _ _ _ _ _ (call_returned E _ s)).
      pose proof (call_interrupts E (sys_sleep 1) s Hsig) as Hc.
      set (s1 := final (call E (sys_sleep 1) s)) in *. clearbody s1.
      rewrite (bind_returned _ _ _ _ _ (gets_returned gVerbose s1)).
      destruct (gVerbose s1); exact Hc. }
    split; [|exact Hup].
    rewrite (sigioLoop_S E (S fuel) s), Hg, Hi. cbn [negb andb].
    rewrite (sigioLoop_S E fuel), Hup, andb_false_r. reflexivity. }
  split.
  { intros Hs.
    split; [apply (doConnect_unattempted E fuel gTokens s Hs)|].
    split; [apply (doAccept_unattempted E fuel s Hs)|].
    split; [apply (doRecvmsg_unattempted E fuel gTokens s Hs)|].
    split; [apply (doSendmsg_unattempted E fuel gTokens s Hs)|].
    split; [apply (doRead_unattempted E fuel s Hs)|].
    apply (doWrite_unattempted E fuel s Hs). }
  intros Hcount. exists (set_gInterrupted false s). unfold command.
  assert (Hlt : (gTokenCount gTokens >=? MAXTOKENS) = false)
    by (rewrite Z.geb_leb; apply Z.leb_gt; exact Hcount).
  rewrite Hlt.
  rewrite bind_tt by apply returns_modify.
  unfold modify. rewrite final_returned. repeat split.
Qed.

(** C8 on a concrete run: in the select model the user interrupts while
    select waits; the read command returns and read() is never called. *)
Lemma interrupt_abandons_witness :
  let s := with_sockets SELECT_MODEL 0 [5] in
  let run := callAPILoop interrupt_during_select 1 1 READ_READY READ [100] s in
  (exists s1, run = Returned None s1
              /\ gInterrupted s1 = true /\ ops (trace s1) = ops (trace s))
  /\ calls (trace (final run))
     = [sys_select 6 [5] [] [] (mkTimeval 1 0); sys_gettimeofday].
Proof.
  cbv zeta. split; [|reflexivity].
  destruct (interrupt_abandons interrupt_during_select 0 0 READ_READY READ [100]
              [] (with_sockets SELECT_MODEL 0 [5])) as [_ [_ [H _]]].
  exact (proj2 (H eq_refl eq_refl)).
Defined.
